(** * jariahkusvg: the SVG export pipeline of [pages/index.tsx]

    A shallow embedding of the functions of [src/index.tsx] that carry the
    behaviour of the gallery: [getSvgIntrinsicSize], [svgToDataUrl],
    [rasterizeSvg], [downloadBlob] and the state and handlers of the [Card]
    component, followed by the properties the specification states about
    them.

    Conventions of the embedding.
    - A JavaScript string is the list of its UTF-16 code units ([jsstring]).
    - A JavaScript number is [NaN], an infinity, or a finite value kept as a
      rational; results of [Number], [parseFloat], [/] and [*] are rounded
      to the nearest binary64 value by [binary64].  The sign of zero is not
      kept: no function of the file divides by a negative zero or prints
      one.
    - Browser services (the XML parser, image decoding, the canvas encoder,
      DOM calls that may throw) are arguments of the functions that use
      them. *)

From Stdlib Require Import ZArith NArith QArith Qround Qabs List Bool Lia Lqa.
From Stdlib Require Import Ascii String DecimalString.
Import ListNotations.

Set Implicit Arguments.

(* ===================================================================== *)
(** ** JavaScript strings *)
(* ===================================================================== *)

Module Js.

(** One UTF-16 code unit. *)
Definition codeunit := N.

Definition jsstring := list codeunit.

(** An ASCII literal as a JavaScript string. *)
Definition js (s : string) : jsstring :=
  map N_of_ascii (list_ascii_of_string s).

Fixpoint str_eqb (a b : jsstring) : bool :=
  match a, b with
  | [], [] => true
  | x :: a', y :: b' => N.eqb x y && str_eqb a' b'
  | _, _ => false
  end.

(** [between lo hi c]: the code unit lies in the closed range. *)
Definition between (lo hi c : N) : bool := (lo <=? c)%N && (c <=? hi)%N.

(** The class [\s] of regular expressions, which is also the set that
    [String.prototype.trim] and [StringToNumber] strip: WhiteSpace and
    LineTerminator of ECMA-262. *)
Definition isWhiteSpace (c : codeunit) : bool :=
  between 9 13 c          (* TAB LF VT FF CR *)
  || N.eqb c 32           (* SPACE *)
  || N.eqb c 160          (* U+00A0 *)
  || N.eqb c 5760         (* U+1680 *)
  || between 8192 8202 c  (* U+2000 .. U+200A *)
  || N.eqb c 8232 || N.eqb c 8233   (* U+2028 U+2029 *)
  || N.eqb c 8239         (* U+202F *)
  || N.eqb c 8287         (* U+205F *)
  || N.eqb c 12288        (* U+3000 *)
  || N.eqb c 65279.       (* U+FEFF *)

Definition isDigit (c : codeunit) : bool := between 48 57 c.
Definition isLower (c : codeunit) : bool := between 97 122 c.
Definition isUpper (c : codeunit) : bool := between 65 90 c.
Definition isAlpha (c : codeunit) : bool := isLower c || isUpper c.

(** [\w]: the word characters that decide [\b]. *)
Definition isWordChar (c : codeunit) : bool :=
  isAlpha c || isDigit c || N.eqb c 95.

Fixpoint dropWhile (p : codeunit -> bool) (s : jsstring) : jsstring :=
  match s with
  | [] => []
  | c :: r => if p c then dropWhile p r else s
  end.

Fixpoint takeWhile (p : codeunit -> bool) (s : jsstring) : jsstring :=
  match s with
  | [] => []
  | c :: r => if p c then c :: takeWhile p r else []
  end.

(** [String.prototype.trimStart], [trimEnd] and [trim]. *)
Definition trimStart (s : jsstring) : jsstring := dropWhile isWhiteSpace s.
Definition trimEnd (s : jsstring) : jsstring :=
  rev (dropWhile isWhiteSpace (rev s)).
Definition trim (s : jsstring) : jsstring := trimEnd (trimStart s).

(** [isPrefix p s]: [s] starts with [p]. *)
Fixpoint isPrefix (p s : jsstring) : bool :=
  match p, s with
  | [], _ => true
  | x :: p', y :: s' => N.eqb x y && isPrefix p' s'
  | _ :: _, [] => false
  end.

(** [String.prototype.includes]. *)
Fixpoint includes (s needle : jsstring) : bool :=
  isPrefix needle s ||
  match s with
  | [] => false
  | _ :: r => includes r needle
  end.

(** [s.split(/\s+/)]: the pieces between the maximal runs of white space.
    A run at the very start or end leaves an empty piece there, and the
    empty string splits to one empty piece.  [cur] is the piece being
    read, reversed; [inSep] tells that the previous unit was white space. *)
Fixpoint split_ws_go (s : jsstring) (cur : jsstring) (inSep : bool)
  : list jsstring :=
  match s with
  | [] => [rev cur]
  | c :: r =>
      if isWhiteSpace c then
        if inSep then split_ws_go r [] true
        else rev cur :: split_ws_go r [] true
      else split_ws_go r (c :: cur) false
  end.

Definition split_ws (s : jsstring) : list jsstring := split_ws_go s [] false.

(** [s.replace(/pat/g, rep)] for a pattern that is a fixed non-empty text
    and a replacement without [$]: scan from the left, replace each match
    and go on after it.  [skip] counts the units of the current match that
    are still to be passed over. *)
Fixpoint replaceAll_go (pat rep s : jsstring) (skip : nat) : jsstring :=
  match s with
  | [] => []
  | c :: r =>
      match skip with
      | S k => replaceAll_go pat rep r k
      | O =>
          if isPrefix pat s
          then rep ++ replaceAll_go pat rep r (Nat.pred (List.length pat))
          else c :: replaceAll_go pat rep r 0
      end
  end.

Definition replaceAll (pat rep s : jsstring) : jsstring :=
  replaceAll_go pat rep s 0.


End Js.
Export Js.

(* ===================================================================== *)
(** ** JavaScript numbers *)
(* ===================================================================== *)

Module Num.

Inductive number : Type :=
| NaN
| Inf (negative : bool)
| Fin (q : Q).

Definition Qltb (a b : Q) : bool := negb (Qle_bool b a).

Definition isNaN (x : number) : bool :=
  match x with NaN => true | _ => false end.

(** [x > y], [x >= y]: false as soon as one side is [NaN]. *)
Definition gt (x y : number) : bool :=
  match x, y with
  | NaN, _ | _, NaN => false
  | Inf nx, Inf ny => negb nx && ny
  | Inf nx, Fin _ => negb nx
  | Fin _, Inf ny => ny
  | Fin a, Fin b => Qltb b a
  end.

Definition ge (x y : number) : bool :=
  match x, y with
  | NaN, _ | _, NaN => false
  | Inf nx, Inf ny => negb nx || ny
  | Inf nx, Fin _ => negb nx
  | Fin _, Inf ny => ny
  | Fin a, Fin b => Qle_bool b a
  end.

Definition zero : number := Fin 0.
Definition one : number := Fin 1.
Definition ofZ (z : Z) : number := Fin (inject_Z z).

(** ToBoolean on a number: [NaN] and zero are falsy. *)
Definition truthy (x : number) : bool :=
  match x with
  | NaN => false
  | Inf _ => true
  | Fin q => negb (Qeq_bool q 0)
  end.

(** [x || y] on numbers. *)
Definition or_else (x y : number) : number := if truthy x then x else y.

(** [Math.round]: the integer nearest to [x], ties going up. *)
Definition Math_round (x : number) : number :=
  match x with
  | Fin q => Fin (inject_Z (Qfloor (q + (1 # 2))))
  | _ => x
  end.

(** [Math.max] of two numbers: [NaN] if either is. *)
Definition Math_max (x y : number) : number :=
  match x, y with
  | NaN, _ | _, NaN => NaN
  | _, _ => if ge x y then x else y
  end.

(** Round a non-negative fraction [n / d] to an integer, ties to even. *)
Definition round_ties_even (n d : Z) : Z :=
  let q := (n / d)%Z in
  let r := (n mod d)%Z in
  if (2 * r <? d)%Z then q
  else if (d <? 2 * r)%Z then (q + 1)%Z
  else if Z.even q then q else (q + 1)%Z.

(** The binary64 value nearest to a rational (ties to even), as the
    arithmetic of JavaScript produces it: 53 bits of significand, the least
    exponent -1074, and infinity from 2^1024 on. *)
Definition binary64 (q : Q) : number :=
  let n := Z.abs (Qnum q) in
  let d := Zpos (Qden q) in
  if (n =? 0)%Z then Fin 0 else
  let k := (Z.log2 n - Z.log2 d)%Z in
  (* 2^(k-1) < n/d < 2^(k+1) *)
  let e0 := (k - 53)%Z in
  let below := (* n/d < 2^(e0+53) = 2^k *)
    if (0 <=? k)%Z then (n <? d * 2 ^ k)%Z else (n * 2 ^ (- k) <? d)%Z in
  let e1 := if below then e0 else (e0 + 1)%Z in
  let e := Z.max e1 (-1074) in
  let m :=
    if (0 <=? e)%Z then round_ties_even n (d * 2 ^ e)
    else round_ties_even (n * 2 ^ (- e)) d in
  let negative := (Qnum q <? 0)%Z in
  if (971 <? e)%Z || ((e =? 971)%Z && (2 ^ 53 <=? m)%Z) then Inf negative
  else
    let s := if negative then (-1)%Z else 1%Z in
    if (0 <=? e)%Z then Fin (inject_Z (s * m * 2 ^ e))
    else Fin (Qred ((s * m) # Z.to_pos (2 ^ (- e)))).

(** [x / y]. *)
Definition div (x y : number) : number :=
  match x, y with
  | NaN, _ | _, NaN => NaN
  | Inf _, Inf _ => NaN
  | Inf nx, Fin b => Inf (xorb nx (Qltb b 0))
  | Fin _, Inf _ => Fin 0
  | Fin a, Fin b =>
      if Qeq_bool b 0 then
        if Qeq_bool a 0 then NaN else Inf (Qltb a 0)
      else binary64 (a / b)
  end.

(** [x * y]. *)
Definition mul (x y : number) : number :=
  match x, y with
  | NaN, _ | _, NaN => NaN
  | Inf nx, Inf ny => Inf (xorb nx ny)
  | Inf nx, Fin b => if Qeq_bool b 0 then NaN else Inf (xorb nx (Qltb b 0))
  | Fin a, Inf ny => if Qeq_bool a 0 then NaN else Inf (xorb ny (Qltb a 0))
  | Fin a, Fin b => binary64 (a * b)
  end.

(** *** Numeric literals in strings *)

Definition digitVal (c : codeunit) : Z :=
  if isDigit c then Z.of_N c - 48
  else if isLower c then Z.of_N c - 87
  else Z.of_N c - 55.

Fixpoint digitsValue (base : Z) (ds : jsstring) (acc : Z) : Z :=
  match ds with
  | [] => acc
  | c :: r => digitsValue base r (base * acc + digitVal c)
  end.

(** ExponentPart: [e] or [E], an optional sign, one digit or more.  When
    the part is incomplete there is no exponent and nothing is consumed. *)
Definition parseExponent (s : jsstring) : Z * jsstring :=
  match s with
  | c :: r =>
      if N.eqb c 101 || N.eqb c 69 then
        let '(neg, r1) :=
          match r with
          | 43%N :: r' => (false, r')
          | 45%N :: r' => (true, r')
          | _ => (false, r)
          end in
        match takeWhile isDigit r1 with
        | [] => (0%Z, s)
        | ds =>
            let v := digitsValue 10 ds 0 in
            ((if neg then - v else v)%Z, dropWhile isDigit r1)
        end
      else (0%Z, s)
  | [] => (0%Z, s)
  end.

(** The longest prefix that is a StrUnsignedDecimalLiteral other than
    [Infinity], with its exact value and the text left over. *)
Definition parseUnsignedDecimal (s : jsstring) : option (Q * jsstring) :=
  let ip := takeWhile isDigit s in
  let r1 := dropWhile isDigit s in
  let '(fp, r2) :=
    match r1 with
    | 46%N :: r => (takeWhile isDigit r, dropWhile isDigit r)
    | _ => ([], r1)
    end in
  match ip, fp with
  | [], [] => None
  | _, _ =>
      let '(ex, r3) := parseExponent r2 in
      Some (inject_Z (digitsValue 10 (ip ++ fp) 0)
              * 10 ^ (ex - Z.of_nat (List.length fp)), r3)
  end.

(** The longest prefix that is a StrDecimalLiteral. *)
Definition parseStrDecimalLiteral (s : jsstring) : option (number * jsstring) :=
  let '(neg, r) :=
    match s with
    | 43%N :: r' => (false, r')
    | 45%N :: r' => (true, r')
    | _ => (false, s)
    end in
  if isPrefix (js "Infinity") r then Some (Inf neg, skipn 8 r)
  else
    match parseUnsignedDecimal r with
    | Some (q, rest) => Some (binary64 (if neg then - q else q), rest)
    | None => None
    end.

Definition isHexDigit (c : codeunit) : bool :=
  isDigit c || between 97 102 c || between 65 70 c.

(** NonDecimalIntegerLiteral: [0x], [0o] or [0b] and digits of that base. *)
Definition parseNonDecimal (s : jsstring) : option number :=
  match s with
  | 48%N :: p :: ds =>
      let lit (base : Z) (ok : codeunit -> bool) :=
        match ds with
        | [] => None
        | _ => if forallb ok ds
               then Some (binary64 (inject_Z (digitsValue base ds 0)))
               else None
        end in
      if N.eqb p 120 || N.eqb p 88 then lit 16%Z isHexDigit
      else if N.eqb p 111 || N.eqb p 79 then lit 8%Z (between 48 55)
      else if N.eqb p 98 || N.eqb p 66 then lit 2%Z (between 48 49)
      else None
  | _ => None
  end.

(** [Number(s)] on a string (StringToNumber): white space around the
    literal is ignored, the empty text is 0, anything that is not one
    whole numeric literal is [NaN]. *)
Definition Number (s : jsstring) : number :=
  match trim s with
  | [] => Fin 0
  | t =>
      match parseNonDecimal t with
      | Some v => v
      | None =>
          match parseStrDecimalLiteral t with
          | Some (v, []) => v
          | _ => NaN
          end
      end
  end.

(** [parseFloat(s)]: the longest decimal literal after leading white
    space, [NaN] if there is none. *)
Definition parseFloat (s : jsstring) : number :=
  match parseStrDecimalLiteral (trimStart s) with
  | Some (v, _) => v
  | None => NaN
  end.

(** *** Printing *)

Definition decimal (z : Z) : jsstring :=
  js (NilZero.string_of_int (Z.to_int z)).

Definition isInteger (q : Q) : bool := Qeq_bool q (inject_Z (Qfloor q)).

(** [String(x)] (Number::toString, radix 10).  Integers below 10^21 print
    as their decimal digits.  The shortest round-trip digits of the other
    finite values are produced by [shortest], which the caller supplies. *)
Definition Number_toString (shortest : Q -> jsstring) (x : number)
  : jsstring :=
  match x with
  | NaN => js "NaN"
  | Inf false => js "Infinity"
  | Inf true => js "-Infinity"
  | Fin q =>
      if isInteger q && Qltb (Qabs q) (inject_Z (10 ^ 21))
      then decimal (Qfloor q)
      else shortest q
  end.

End Num.
Export Num.

(* ===================================================================== *)
(** ** Completions: a value or a thrown exception *)
(* ===================================================================== *)

(** [Throw err]: an exception, named by a text; for a rejection with an
    event it is the text the event prints as. *)
Inductive completion (A : Type) : Type :=
| Normal (a : A)
| Throw (err : jsstring).

Arguments Normal {A} a.
Arguments Throw {A} err.

Definition bind {A B} (c : completion A) (k : A -> completion B)
  : completion B :=
  match c with
  | Normal a => k a
  | Throw e => Throw e
  end.

(** [try { body } catch { handler }]. *)
Definition try_catch {A} (body : completion A)
  (handler : jsstring -> completion A) : completion A :=
  match body with
  | Normal a => Normal a
  | Throw e => handler e
  end.

Declare Scope js_scope.
Delimit Scope js_scope with js.
Notation "x <- c ;; k" := (bind c (fun x => k))
  (at level 61, c at next level, right associativity) : js_scope.

(* ===================================================================== *)
(** ** The intrinsic size of an SVG: [getSvgIntrinsicSize] *)
(* ===================================================================== *)

(** [type Size = { width: number; height: number }] *)
Record Size : Type := mkSize { width : number; height : number }.

(** What the code reads of the DOM: the root element of the parsed
    document and its attributes. *)
Record Element : Type := mkElement {
  tagName : jsstring;
  attributes : list (jsstring * jsstring)
}.

Record Document : Type := mkDocument {
  documentElement : option Element
}.

(** [el.getAttribute(name)]: the value, or [null]. *)
Fixpoint lookupAttr (attrs : list (jsstring * jsstring)) (name : jsstring)
  : option jsstring :=
  match attrs with
  | [] => None
  | (k, v) :: r => if str_eqb k name then Some v else lookupAttr r name
  end.

Definition getAttribute (el : Element) (name : jsstring) : option jsstring :=
  lookupAttr (attributes el) name.

(** [s.replace(/[a-z%]+$/i, "")]: the longest run of ASCII letters and
    percent signs that ends the text is removed. *)
Definition isUnitChar (c : codeunit) : bool := isAlpha c || N.eqb c 37.

Definition stripUnitSuffix (s : jsstring) : jsstring :=
  rev (dropWhile isUnitChar (rev s)).

(** [parseLen]: [s ? parseFloat(s.replace(/[a-z%]+$/i, "")) : NaN] *)
Definition parseLen (s : option jsstring) : number :=
  match s with
  | Some (c :: r) => parseFloat (stripUnitSuffix (c :: r))
  | _ => NaN
  end.

(** The body of [if (vb) { ... }]: the size a viewBox gives, if it does. *)
Definition viewBoxSize (vb : jsstring) : option Size :=
  let parts := map Number (split_ws (trim vb)) in
  if Nat.eqb (List.length parts) 4
     && forallb (fun n => negb (isNaN n)) parts
  then
    match parts with
    | [_; _; w; h] =>
        if gt w zero && gt h zero then Some (mkSize w h) else None
    | _ => None
    end
  else None.

Section Resolver.

(** [new DOMParser().parseFromString(markup, "image/svg+xml")], which
    yields a document or throws. *)
Variable parseFromString : jsstring -> completion Document.

Definition getSvgIntrinsicSize_body (svgMarkup : jsstring)
  : completion (option Size) :=
  (doc <- parseFromString svgMarkup ;;
   svgEl <- match documentElement doc with
            | Some el => Normal el
            | None => Throw (js "TypeError")
            end ;;
   let vb := getAttribute svgEl (js "viewBox") in
   match
     match vb with
     | Some (c :: r) => viewBoxSize (c :: r)
     | _ => None
     end
   with
   | Some sz => Normal (Some sz)
   | None =>
       let wAttr := getAttribute svgEl (js "width") in
       let hAttr := getAttribute svgEl (js "height") in
       let w := parseLen wAttr in
       let h := parseLen hAttr in
       if gt w zero && gt h zero then Normal (Some (mkSize w h))
       else Normal None
   end)%js.

Definition getSvgIntrinsicSize (svgMarkup : jsstring)
  : completion (option Size) :=
  try_catch (getSvgIntrinsicSize_body svgMarkup)
            (fun _ => Normal None).

End Resolver.

(** *** The words of the specification about the resolver *)

Definition WhiteSpaceRun (s : jsstring) : Prop :=
  Forall (fun c => isWhiteSpace c = true) s.

Definition Token (s : jsstring) : Prop :=
  s <> [] /\ Forall (fun c => isWhiteSpace c = false) s.

(** [vb] is four tokens separated by white space, which may also lead and
    trail. *)
Definition FourTokens (vb t1 t2 t3 t4 : jsstring) : Prop :=
  exists w0 w1 w2 w3 w4,
    vb = w0 ++ t1 ++ w1 ++ t2 ++ w2 ++ t3 ++ w3 ++ t4 ++ w4
    /\ WhiteSpaceRun w0 /\ WhiteSpaceRun w4
    /\ (w1 <> [] /\ WhiteSpaceRun w1)
    /\ (w2 <> [] /\ WhiteSpaceRun w2)
    /\ (w3 <> [] /\ WhiteSpaceRun w3)
    /\ Token t1 /\ Token t2 /\ Token t3 /\ Token t4.

(** A well-formed, strictly positive bounding box of size [w] by [h]:
    exactly four numeric tokens [min-x min-y width height], none [NaN], the
    last two positive. *)
Definition WellFormedViewBox (vb : jsstring) (w h : number) : Prop :=
  exists t1 t2 t3 t4,
    FourTokens vb t1 t2 t3 t4
    /\ isNaN (Number t1) = false /\ isNaN (Number t2) = false
    /\ isNaN (Number t3) = false /\ isNaN (Number t4) = false
    /\ w = Number t3 /\ h = Number t4
    /\ gt w zero = true /\ gt h zero = true.

Definition HasViewBox (el : Element) : Prop :=
  exists vb w h,
    getAttribute el (js "viewBox") = Some vb /\ WellFormedViewBox vb w h.

(** Width and height attributes that, once a unit suffix of letters or
    [%] is stripped, parse to strictly positive numbers. *)
Definition HasPositiveWidthHeight (el : Element) : Prop :=
  exists ws hs,
    getAttribute el (js "width") = Some ws
    /\ getAttribute el (js "height") = Some hs
    /\ gt (parseFloat (stripUnitSuffix ws)) zero = true
    /\ gt (parseFloat (stripUnitSuffix hs)) zero = true.

(* ===================================================================== *)
(** ** The inline image reference: [svgToDataUrl] *)
(* ===================================================================== *)

Definition quote : codeunit := 34%N.       (* the double quote *)
Definition apostrophe : codeunit := 39%N.
Definition percent : codeunit := 37%N.

(** The replacement text of the first [replace]:
    [<svg xmlns="http://www.w3.org/2000/svg"] *)
Definition svgWithXmlns : jsstring :=
  js "<svg xmlns=" ++ [quote] ++ js "http://www.w3.org/2000/svg" ++ [quote].

(** A match of [/<svg\b/] at the head of [s]. *)
Definition matchesSvgTag (s : jsstring) : bool :=
  isPrefix (js "<svg") s &&
  match skipn 4 s with
  | [] => true
  | c :: _ => negb (isWordChar c)
  end.

(** [s.replace(/<svg\b/, svgWithXmlns)]: only the first match is
    replaced. *)
Fixpoint replaceFirstSvgTag (s : jsstring) : jsstring :=
  if matchesSvgTag s then svgWithXmlns ++ skipn 4 s
  else
    match s with
    | [] => []
    | c :: r => c :: replaceFirstSvgTag r
    end.

(** Lines 98-103: ensure xmlns is present. *)
Definition ensureXmlns (svg : jsstring) : jsstring :=
  if negb (includes svg (js "xmlns=")) then replaceFirstSvgTag svg else svg.

(** The UTF-8 octets of a string; [None] when a surrogate is unpaired,
    where [encodeURIComponent] throws a URIError. *)
Fixpoint utf8 (s : jsstring) : option (list N) :=
  match s with
  | [] => Some []
  | c :: r =>
      if (c <? 128)%N then option_map (cons c) (utf8 r)
      else if (c <? 2048)%N then
        option_map (fun t => (192 + c / 64)%N :: (128 + c mod 64)%N :: t)
                   (utf8 r)
      else if between 55296 56319 c then
        match r with
        | d :: r' =>
            if between 56320 57343 d then
              let cp := (65536 + (c - 55296) * 1024 + (d - 56320))%N in
              option_map
                (fun t => (240 + cp / 262144)%N
                          :: (128 + (cp / 4096) mod 64)%N
                          :: (128 + (cp / 64) mod 64)%N
                          :: (128 + cp mod 64)%N :: t)
                (utf8 r')
            else None
        | [] => None
        end
      else if between 56320 57343 c then None
      else
        option_map
          (fun t => (224 + c / 4096)%N
                    :: (128 + (c / 64) mod 64)%N
                    :: (128 + c mod 64)%N :: t)
          (utf8 r)
  end.

(** The characters [encodeURIComponent] leaves as they are:
    letters, digits and [- _ . ! ~ * ' ( )]. *)
Definition isUnreserved (b : N) : bool :=
  isAlpha b || isDigit b
  || existsb (N.eqb b) [45; 95; 46; 33; 126; 42; 39; 40; 41]%N.

Definition hexDigit (n : N) : codeunit :=
  if (n <? 10)%N then (48 + n)%N else (55 + n)%N.

(** [%XX], in upper-case hexadecimal. *)
Definition escapeOctet (b : N) : jsstring :=
  [percent; hexDigit (b / 16); hexDigit (b mod 16)].

Definition encodeOctet (b : N) : jsstring :=
  if isUnreserved b then [b] else escapeOctet b.

Definition encodeURIComponent (s : jsstring) : completion jsstring :=
  match utf8 s with
  | Some bs => Normal (flat_map encodeOctet bs)
  | None => Throw (js "URIError")
  end.

(** The chain of [replace] calls of lines 106-111. *)
Definition tidy (encoded : jsstring) : jsstring :=
  replaceAll (js "%22") [apostrophe]
    (replaceAll (js "%2F") (js "/")
      (replaceAll (js "%3A") (js ":")
        (replaceAll (js "%3D") (js "=")
          (replaceAll (js "%20") (js " ")
            (replaceAll (js "%0A") [] encoded))))).

Definition dataUrlPrefix : jsstring := js "data:image/svg+xml;charset=utf-8,".

Definition svgToDataUrl (svg : jsstring) : completion jsstring :=
  let svg := ensureXmlns svg in
  (encoded0 <- encodeURIComponent svg ;;
   let encoded := tidy encoded0 in
   Normal (dataUrlPrefix ++ encoded))%js.

(** *** The words of the specification about the reference builder *)

(** What one octet of the markup becomes under [encodeURIComponent] and
    the six [replace] calls, as is proved of the source below: a newline
    vanishes, space [=] [:] [/] stay literal, the double quote turns into
    an apostrophe, the rest is as [encodeURIComponent] leaves it. *)
Definition tidyOctet (b : N) : jsstring :=
  if N.eqb b 10 then []
  else if N.eqb b 34 then [apostrophe]
  else if existsb (N.eqb b) [32; 61; 58; 47]%N then [b]
  else encodeOctet b.

(** The same by the specification's sentence: the quote character is
    restored to literal form like the other four. *)
Definition spec_tidyOctet (b : N) : jsstring :=
  if N.eqb b 10 then []
  else if existsb (N.eqb b) [32; 61; 58; 47; 34]%N then [b]
  else encodeOctet b.

Definition spec_percentEncodeTidy (markup : jsstring) : completion jsstring :=
  match utf8 markup with
  | Some bs => Normal (dataUrlPrefix ++ flat_map spec_tidyOctet bs)
  | None => Throw (js "URIError")
  end.

(** The opening tag of the root element, for the specification's
    "root element": the text from the first [<] that is followed by a
    letter up to the first [>] outside a quoted attribute value. *)
Fixpoint spec_tagText (s : jsstring) (inQuote : option codeunit) : jsstring :=
  match s with
  | [] => []
  | c :: r =>
      match inQuote with
      | Some q => c :: spec_tagText r (if N.eqb c q then None else Some q)
      | None =>
          if N.eqb c 62 then [c]
          else c :: spec_tagText r
                 (if N.eqb c quote || N.eqb c apostrophe then Some c else None)
      end
  end.

Fixpoint spec_rootOpenTag (s : jsstring) : option jsstring :=
  match s with
  | [] => None
  | c :: r =>
      match r with
      | d :: _ =>
          if N.eqb c 60 && isAlpha d then Some (spec_tagText s None)
          else spec_rootOpenTag r
      | [] => None
      end
  end.

(** An attribute named [xmlns] in a tag: the name after white space,
    followed by [=] (white space allowed before it), outside quotes. *)
Fixpoint spec_declaresXmlns (tag : jsstring) (inQuote : option codeunit)
  (afterSpace : bool) : bool :=
  match tag with
  | [] => false
  | c :: r =>
      match inQuote with
      | Some q => spec_declaresXmlns r (if N.eqb c q then None else Some q) false
      | None =>
          (afterSpace && isPrefix (js "xmlns") tag
             && isPrefix (js "=") (dropWhile isWhiteSpace (skipn 5 tag)))
          || spec_declaresXmlns r
               (if N.eqb c quote || N.eqb c apostrophe then Some c else None)
               (isWhiteSpace c)
      end
  end.

Definition spec_rootDeclaresNamespace (markup : jsstring) : bool :=
  match spec_rootOpenTag markup with
  | Some tag => spec_declaresXmlns tag None false
  | None => false
  end.

Definition spec_isNameChar (c : codeunit) : bool :=
  isWordChar c || existsb (N.eqb c) [58; 45; 46]%N.

(** [ xmlns="http://www.w3.org/2000/svg"] *)
Definition xmlnsDeclaration : jsstring := skipn 4 svgWithXmlns.

(** The declaration put into the root opening tag, after the element's
    name. *)
Fixpoint spec_injectNamespace (s : jsstring) : jsstring :=
  match s with
  | [] => []
  | c :: r =>
      match r with
      | d :: _ =>
          if N.eqb c 60 && isAlpha d
          then c :: takeWhile spec_isNameChar r ++ xmlnsDeclaration
                 ++ dropWhile spec_isNameChar r
          else c :: spec_injectNamespace r
      | [] => [c]
      end
  end.

(** Encoding as the source does it, of a markup taken as it is. *)
Definition encodeMarkup (markup : jsstring) : completion jsstring :=
  (encoded0 <- encodeURIComponent markup ;;
   Normal (dataUrlPrefix ++ tidy encoded0))%js.

Definition spec_buildInlineImageRef (markup : jsstring) : completion jsstring :=
  encodeMarkup (if spec_rootDeclaresNamespace markup then markup
                else spec_injectNamespace markup).

(* ===================================================================== *)
(** ** The rasterizer: [rasterizeSvg] *)
(* ===================================================================== *)

(** [type RasterFormat = "png" | "jpeg"] *)
Inductive RasterFormat : Type := png | jpeg.

Definition RasterFormat_eqb (a b : RasterFormat) : bool :=
  match a, b with
  | png, png | jpeg, jpeg => true
  | _, _ => false
  end.

Definition formatName (f : RasterFormat) : jsstring :=
  match f with png => js "png" | jpeg => js "jpeg" end.

(** [{ color: string; transparent: boolean }] *)
Record Background : Type := mkBackground {
  color : jsstring;
  transparent : bool
}.

(** A decoded [HTMLImageElement]. *)
Record Image : Type := mkImage { src : jsstring }.

(** What has been painted on a canvas, oldest first. *)
Inductive DrawOp : Type :=
| FillRect (style : jsstring) (x y w h : number)
| DrawImage (img : Image) (x y w h : number).

(** A canvas element with its 2D context.  The width and the height are
    what the element reports when the code reads [canvas.width] and
    [canvas.height] back; the fill style is what the code assigns (the
    parsing of the colour belongs to the browser). *)
Record Canvas : Type := mkCanvas {
  canvas_width : number;
  canvas_height : number;
  fillStyle : jsstring;
  painted : list DrawOp
}.

(** [document.createElement("canvas")]: 300 by 150, black fill style,
    nothing painted. *)
Definition createCanvas : Canvas :=
  mkCanvas (ofZ 300) (ofZ 150) (js "#000000") [].

(** [canvas.width] and [canvas.height] are attributes of type
    [unsigned long].  A number assigned to one is first converted (Web
    IDL): [NaN] and the infinities give 0, any other number is truncated
    toward zero and reduced modulo 2^32. *)
Definition toUnsignedLong (x : number) : Z :=
  match x with
  | Fin q => (Z.quot (Qnum q) (Zpos (Qden q))) mod 2 ^ 32
  | _ => 0
  end.

(** The attributes reflect content attributes with a default (HTML): a
    converted value above 2147483647 is replaced by the default, 300 for
    the width and 150 for the height. *)
Definition reflectUnsignedLong (default n : Z) : Z :=
  if (n <=? 2147483647)%Z then n else default.

Definition set_width (c : Canvas) (w : number) : Canvas :=
  mkCanvas (ofZ (reflectUnsignedLong 300 (toUnsignedLong w)))
           (canvas_height c) (fillStyle c) (painted c).
Definition set_height (c : Canvas) (h : number) : Canvas :=
  mkCanvas (canvas_width c)
           (ofZ (reflectUnsignedLong 150 (toUnsignedLong h)))
           (fillStyle c) (painted c).
Definition set_fillStyle (c : Canvas) (s : jsstring) : Canvas :=
  mkCanvas (canvas_width c) (canvas_height c) s (painted c).
Definition fillRect (c : Canvas) (x y w h : number) : Canvas :=
  mkCanvas (canvas_width c) (canvas_height c) (fillStyle c)
           (painted c ++ [FillRect (fillStyle c) x y w h]).
Definition drawImage (c : Canvas) (img : Image) (x y w h : number) : Canvas :=
  mkCanvas (canvas_width c) (canvas_height c) (fillStyle c)
           (painted c ++ [DrawImage img x y w h]).

(** What a pixel shows. *)
Inductive Paint : Type :=
| Transparent
| Colour (c : jsstring)
| Picture (img : Image) (under : Paint).

Definition add (x y : number) : number :=
  match x, y with
  | NaN, _ | _, NaN => NaN
  | Inf a, Inf b => if Bool.eqb a b then Inf a else NaN
  | Inf a, Fin _ => Inf a
  | Fin _, Inf b => Inf b
  | Fin a, Fin b => binary64 (a + b)
  end.

(** The pixel [(px, py)] lies in the rectangle at [(x, y)] of extent
    [w] by [h]. *)
Definition inRect (x y w h : number) (px py : Z) : bool :=
  ge (ofZ px) x && gt (add x w) (ofZ px)
  && ge (ofZ py) y && gt (add y h) (ofZ py).

Definition applyOp (under : Paint) (op : DrawOp) (px py : Z) : Paint :=
  match op with
  | FillRect style x y w h =>
      if inRect x y w h px py then Colour style else under
  | DrawImage img x y w h =>
      if inRect x y w h px py then Picture img under else under
  end.

Definition pixelAt (ops : list DrawOp) (px py : Z) : Paint :=
  fold_left (fun p op => applyOp p op px py) ops Transparent.

(** A pixel of the surface of a canvas. *)
Definition onSurface (c : Canvas) (px py : Z) : bool :=
  inRect zero zero (canvas_width c) (canvas_height c) px py.

Section Rasterizer.

Variable Blob : Type.

(** Decoding the image: [Some img] when [onload] fires, [None] when
    [onerror] does. *)
Variable loadImage : jsstring -> option Image.
(** [canvas.getContext("2d")] returns a context. *)
Variable contextAvailable : bool.
(** [canvas.toBlob(callback, type, quality)]: the blob handed to the
    callback, or [null]. *)
Variable toBlob : Canvas -> jsstring -> option Q -> option Blob.

(** The state a call leaves behind is the canvas it made, if it got
    that far. *)
Definition rasterizeSvg (svgMarkup : jsstring) (outSize : Size)
  (format : RasterFormat) (background : Background)
  : completion Blob * option Canvas :=
  match svgToDataUrl svgMarkup with
  | Throw e => (Throw e, None)
  | Normal imgUrl =>
  match loadImage imgUrl with
  | None => (Throw (js "[object Event]"), None)
  | Some img =>
  let canvas := createCanvas in
  let canvas := set_width canvas (Math_max one (Math_round (width outSize))) in
  let canvas := set_height canvas (Math_max one (Math_round (height outSize))) in
  if negb contextAvailable
  then (Throw (js "Canvas context unavailable"), Some canvas)
  else
  let canvas :=
    if RasterFormat_eqb format jpeg || negb (transparent background) then
      let canvas :=
        set_fillStyle canvas
          (match color background with
           | [] => js "#ffffff"
           | c => c
           end) in
      fillRect canvas zero zero (canvas_width canvas) (canvas_height canvas)
    else canvas in
  let canvas :=
    drawImage canvas img zero zero (canvas_width canvas)
              (canvas_height canvas) in
  let quality :=
    if RasterFormat_eqb format jpeg then Some (92 # 100) else None in
  match toBlob canvas (js "image/" ++ formatName format) quality with
  | Some b => (Normal b, Some canvas)
  | None => (Throw (js "toBlob failed"), Some canvas)
  end
  end
  end.

End Rasterizer.

(** The colour the fill uses: [background.color || "#ffffff"]. *)
Definition fillColour (bg : Background) : jsstring :=
  match color bg with
  | [] => js "#ffffff"
  | c => c
  end.

(** *** The words of the specification about the surface *)

(** Rounding half away from zero. *)
Definition spec_round (x : number) : number :=
  match x with
  | Fin q =>
      if Qltb q 0 then Fin (inject_Z (- Qfloor (- q + (1 # 2))))
      else Fin (inject_Z (Qfloor (q + (1 # 2))))
  | _ => x
  end.

(** [round(max(1, d))] *)
Definition spec_surfaceDim (d : number) : number :=
  spec_round (Math_max one d).

(** A requested dimension whose clamped and rounded value a canvas
    attribute holds as it is: a number below 2147483647.5. *)
Definition holdsInCanvas (d : number) : bool :=
  match d with
  | Fin q => Qltb q (4294967295 # 2)
  | _ => false
  end.

(* ===================================================================== *)
(** ** The download trigger: [downloadBlob] *)
(* ===================================================================== *)

(** The calls of [downloadBlob] into the browser, each of which may
    throw. *)
Inductive DomCall : Type :=
| CallCreateObjectURL
| CallCreateElement
| CallAppendChild
| CallClick
| CallRemove
| CallRevokeObjectURL.

(** An [<a>] element. *)
Record Anchor : Type := mkAnchor {
  node : nat;             (* which element it is *)
  href : jsstring;
  download : jsstring
}.

Section Download.

Variable Blob : Type.

(** The part of the page the function touches: the blob URL store, the
    children it appended to [document.body], the saves the browser has
    started (URL, file name, bytes), and a counter for fresh URLs. *)
Record Browser : Type := mkBrowser {
  objectURLs : list (jsstring * Blob);
  bodyChildren : list Anchor;
  saves : list (jsstring * jsstring * Blob);
  minted : nat
}.

(** Which calls throw in the run at hand. *)
Variable throws : DomCall -> bool.

(** Browser state threaded through calls that may throw. *)
Definition Dom (A : Type) : Type := Browser -> completion A * Browser.

Definition dom_bind {A B} (m : Dom A) (k : A -> Dom B) : Dom B :=
  fun b =>
    match m b with
    | (Normal a, b') => k a b'
    | (Throw e, b') => (Throw e, b')
    end.

(** A call that throws leaves the state as it was. *)
Definition call {A} (c : DomCall) (m : Dom A) : Dom A :=
  fun b => if throws c then (Throw (js "DOMException"), b) else m b.

Definition lookupURL (store : list (jsstring * Blob)) (url : jsstring)
  : option Blob :=
  match find (fun e => str_eqb (fst e) url) store with
  | Some e => Some (snd e)
  | None => None
  end.

Definition isLive (b : Browser) (url : jsstring) : bool :=
  match lookupURL (objectURLs b) url with Some _ => true | None => false end.

Definition createObjectURL (blob : Blob) : Dom jsstring :=
  call CallCreateObjectURL (fun b =>
    let url := js "blob:" ++ decimal (Z.of_nat (minted b)) in
    (Normal url,
     mkBrowser ((url, blob) :: objectURLs b) (bodyChildren b) (saves b)
               (S (minted b)))).

Definition revokeObjectURL (url : jsstring) : Dom unit :=
  call CallRevokeObjectURL (fun b =>
    (Normal tt,
     mkBrowser (filter (fun e => negb (str_eqb (fst e) url)) (objectURLs b))
               (bodyChildren b) (saves b) (minted b))).

Definition createAnchor : Dom Anchor :=
  call CallCreateElement (fun b =>
    (Normal (mkAnchor (minted b) [] []),
     mkBrowser (objectURLs b) (bodyChildren b) (saves b) (S (minted b)))).

Definition appendChild (a : Anchor) : Dom unit :=
  call CallAppendChild (fun b =>
    (Normal tt,
     mkBrowser (objectURLs b) (bodyChildren b ++ [a]) (saves b) (minted b))).

(** [a.click()] on a link with a [download] name: the browser starts to
    save what the link points to, if the reference is live. *)
Definition click (a : Anchor) : Dom unit :=
  call CallClick (fun b =>
    (Normal tt,
     match lookupURL (objectURLs b) (href a) with
     | Some blob =>
         mkBrowser (objectURLs b) (bodyChildren b)
                   (saves b ++ [(href a, download a, blob)]) (minted b)
     | None => b
     end)).

Definition remove (a : Anchor) : Dom unit :=
  call CallRemove (fun b =>
    (Normal tt,
     mkBrowser (objectURLs b)
               (filter (fun x => negb (Nat.eqb (node x) (node a)))
                       (bodyChildren b))
               (saves b) (minted b))).

Definition downloadBlob (blob : Blob) (filename : jsstring) : Dom unit :=
  dom_bind (createObjectURL blob) (fun url =>
  dom_bind createAnchor (fun a =>
  let a := mkAnchor (node a) url (download a) in
  let a := mkAnchor (node a) (href a) filename in
  dom_bind (appendChild a) (fun _ =>
  dom_bind (click a) (fun _ =>
  dom_bind (remove a) (fun _ =>
  revokeObjectURL url))))).

(** The reference a call to [downloadBlob] creates in browser [b]. *)
Definition mintedURL (b : Browser) : jsstring :=
  js "blob:" ++ decimal (Z.of_nat (minted b)).

End Download.

Arguments mkBrowser {Blob}.
Arguments objectURLs {Blob}.
Arguments bodyChildren {Blob}.
Arguments saves {Blob}.
Arguments minted {Blob}.

(* ===================================================================== *)
(** ** The [Card] component: state, handlers, export *)
(* ===================================================================== *)

(** [type SvgItem] *)
Record SvgItem : Type := mkSvgItem {
  id : jsstring;
  name : jsstring;
  svg : jsstring;
  tags : option (list jsstring)
}.

(** [String.prototype.toLowerCase] up to what the file name can show: the
    ASCII capitals, and the two other code units whose lower case holds an
    ASCII letter (U+0130, U+212A).  Every other unit outside ASCII
    lower-cases to units outside ASCII that are not white space either;
    they are kept as they are, since the second [replace] of the file name
    deletes them in both forms. *)
Definition lowerUnit (c : codeunit) : jsstring :=
  if isUpper c then [(c + 32)%N]
  else if N.eqb c 304 then [105; 775]%N
  else if N.eqb c 8490 then [107]%N
  else [c].

Definition toLowerCase (s : jsstring) : jsstring := flat_map lowerUnit s.

(** [s.replace(/\s+/g, "-")] *)
Fixpoint hyphenateRuns (s : jsstring) (inRun : bool) : jsstring :=
  match s with
  | [] => []
  | c :: r =>
      if isWhiteSpace c then
        if inRun then hyphenateRuns r true
        else 45%N :: hyphenateRuns r true
      else c :: hyphenateRuns r false
  end.

(** [[a-z0-9-]] *)
Definition isSlugChar (c : codeunit) : bool :=
  isLower c || isDigit c || N.eqb c 45.

(** [s.replace(/[^a-z0-9-]/g, "")] *)
Definition dropNonSlug (s : jsstring) : jsstring := filter isSlugChar s.

Module Card.

Record State : Type := mkState {
  format : RasterFormat;
  transparent : bool;
  bgColor : jsstring;
  lockRatio : bool;
  size : Size
}.

Section Component.

Variable parseFromString : jsstring -> completion Document.
Variable shortest : Q -> jsstring.
(** The props. *)
Variable item : SvgItem.
Variable defaultWidth : number.

Definition intrinsic : option Size :=
  match getSvgIntrinsicSize parseFromString (svg item) with
  | Normal r => r
  | Throw _ => None
  end.

Definition aspect : number :=
  match intrinsic with
  | Some i => div (width i) (height i)
  | None => one
  end.

Definition initialSize : Size :=
  match intrinsic with
  | Some i =>
      let w := defaultWidth in
      mkSize w (Math_round (div w (div (width i) (height i))))
  | None => mkSize defaultWidth (Math_round (div defaultWidth aspect))
  end.

Definition initialState : State :=
  mkState png true (js "#ffffff") true initialSize.

(** The effect on [format, transparent]. *)
Definition effect (st : State) : State :=
  if RasterFormat_eqb (format st) jpeg && transparent st
  then mkState (format st) false (bgColor st) (lockRatio st) (size st)
  else st.

Definition setSize (st : State) (s : Size) : State :=
  mkState (format st) (transparent st) (bgColor st) (lockRatio st) s.

Definition onWidthChange (v : number) (st : State) : State :=
  let width := Math_max one (Math_round (or_else v zero)) in
  if lockRatio st then
    setSize st (mkSize width (Math_max one (Math_round (div width aspect))))
  else
    setSize st (mkSize width (height (size st))).

Definition onHeightChange (v : number) (st : State) : State :=
  let height := Math_max one (Math_round (or_else v zero)) in
  if lockRatio st then
    setSize st (mkSize (Math_max one (Math_round (mul height aspect))) height)
  else
    setSize st (mkSize (width (size st)) height).

(** What the user does to the controls; the text of a number input
    reaches its handler through [Number(e.target.value)]. *)
Inductive Event : Type :=
| WidthInput (value : jsstring)
| HeightInput (value : jsstring)
| LockRatioInput (checked : bool)
| FormatInput (value : RasterFormat)
| TransparentInput (checked : bool)
| BgColorInput (value : jsstring).

Definition handle (e : Event) (st : State) : State :=
  match e with
  | WidthInput v => onWidthChange (Number v) st
  | HeightInput v => onHeightChange (Number v) st
  | LockRatioInput b =>
      mkState (format st) (transparent st) (bgColor st) b (size st)
  | FormatInput f =>
      mkState f (transparent st) (bgColor st) (lockRatio st) (size st)
  | TransparentInput b =>
      mkState (format st) b (bgColor st) (lockRatio st) (size st)
  | BgColorInput c =>
      mkState (format st) (transparent st) c (lockRatio st) (size st)
  end.

(** One event, then the effect that follows the render. *)
Definition step (st : State) (e : Event) : State := effect (handle e st).

Definition run (st : State) (es : list Event) : State :=
  fold_left step es st.

(** The settings [handleDownload] hands to [rasterizeSvg]. *)
Definition exportBackground (st : State) : Background :=
  mkBackground (bgColor st)
    (match format st with png => transparent st | jpeg => false end).

Definition slug : jsstring :=
  dropNonSlug (hyphenateRuns (toLowerCase (name item)) false).

Definition exportFilename (st : State) : jsstring :=
  slug ++ js "-" ++ Number_toString shortest (width (size st))
       ++ js "x" ++ Number_toString shortest (height (size st))
       ++ js "."
       ++ (match format st with jpeg => js "jpg" | png => js "png" end).

Section ExportFlow.

Variable Blob : Type.
Variable loadImage : jsstring -> option Image.
Variable contextAvailable : bool.
Variable toBlob : Canvas -> jsstring -> option Q -> option Blob.
Variable throws : DomCall -> bool.

(** [handleDownload]: the alert shown, if any, and the browser
    afterwards. *)
Definition handleDownload (st : State) (b : Browser Blob)
  : option jsstring * Browser Blob :=
  match
    rasterizeSvg loadImage contextAvailable toBlob
      (svg item) (size st) (format st) (exportBackground st)
  with
  | (Normal blob, _) =>
      match downloadBlob throws blob (exportFilename st) b with
      | (Normal _, b') => (None, b')
      | (Throw e, b') => (Some (js "Gagal mengunduh: " ++ e), b')
      end
  | (Throw e, _) => (Some (js "Gagal mengunduh: " ++ e), b)
  end.

End ExportFlow.

End Component.

End Card.

(** *** The words of the specification about the file name *)

(** The display name lower-cased, each run of white space one hyphen,
    every character outside [[a-z0-9-]] dropped: done in one pass over the
    name. *)
Fixpoint spec_slug (s : jsstring) (inRun : bool) : jsstring :=
  match s with
  | [] => []
  | c :: r =>
      if isWhiteSpace c then
        if inRun then spec_slug r true else 45%N :: spec_slug r true
      else filter isSlugChar (lowerUnit c) ++ spec_slug r false
  end.

(** [max(1, round(v))] *)
Definition spec_clamp (v : number) : number := Math_max one (Math_round v).

(** Both dimensions at least one. *)
Definition sizeOk (s : Size) : Prop :=
  ge (width s) one = true /\ ge (height s) one = true.

(** The catalogue of [SAMPLE_SVGS], by name and bounding box. *)
Definition sampleViewBoxes : list (jsstring * jsstring) :=
  [ (js "Ornamen Geometrik", js "0 0 160 160");
    (js "Masjid Siluet", js "0 0 240 160");
    (js "Kaligrafi Sederhana", js "0 0 200 120") ].

(** [x === 0] *)
Definition isZero (x : number) : bool :=
  match x with
  | Fin q => Qeq_bool q 0
  | _ => false
  end.

(** *** Auxiliary notions for the proofs about tokens *)

Definition notWhiteSpace (c : codeunit) : bool := negb (isWhiteSpace c).

(** [s] is empty or its first unit fails [p]: [dropWhile p] leaves it. *)
Definition headFails (p : codeunit -> bool) (s : jsstring) : Prop :=
  match s with
  | [] => True
  | c :: _ => p c = false
  end.

(** The parser gives no root to read: it throws, or hands back a document
    without a root element. *)
Definition NoRoot (parse : jsstring -> completion Document)
  (markup : jsstring) : Prop :=
  (exists e, parse markup = Throw e)
  \/ (exists doc, parse markup = Normal doc /\ documentElement doc = None).

(** The markup parses, and its root has neither a well-formed positive
    bounding box nor positive width and height. *)
Definition Dimensionless (parse : jsstring -> completion Document)
  (markup : jsstring) : Prop :=
  exists doc el,
    parse markup = Normal doc
    /\ documentElement doc = Some el
    /\ ~ HasViewBox el
    /\ ~ HasPositiveWidthHeight el.

(** *** Auxiliary notions for the proofs about the [replace] chain *)

(** A text made of one chunk per octet: either a literal text given by
    [lit], or the escape of the octet. *)
Definition chunk (lit : N -> option jsstring) (b : N) : jsstring :=
  match lit b with
  | Some t => t
  | None => escapeOctet b
  end.

(** What [replace(/%XX/g, rep)] does to the chunks, [v] being the octet
    that [%XX] escapes. *)
Definition replaceChunk (v : N) (rep : jsstring) (lit : N -> option jsstring)
  : N -> option jsstring :=
  fun b =>
    match lit b with
    | Some t => Some t
    | None => if N.eqb b v then Some rep else None
    end.

(** The chunks [encodeURIComponent] produces. *)
Definition encodedChunk (b : N) : option jsstring :=
  if isUnreserved b then Some [b] else None.

(** The markup contains [<svg] at a word boundary, first after [pre]. *)
Definition FirstSvgTag (markup pre post : jsstring) : Prop :=
  markup = pre ++ js "<svg" ++ post
  /\ headFails isWordChar post
  /\ forall p1 p2,
       pre = p1 ++ p2 -> p2 <> [] ->
       matchesSvgTag (p2 ++ js "<svg" ++ post) = false.

(** The markup contains no [<svg] at a word boundary. *)
Definition NoSvgTag (markup : jsstring) : Prop :=
  forall p1 p2, markup = p1 ++ p2 -> matchesSvgTag p2 = false.


(* ===================================================================== *)
(** ** The catalogue: [SAMPLE_SVGS] *)
(* ===================================================================== *)

(** An ASCII literal in which a backquote stands for a double quote (the
    catalogue has no backquote of its own). *)
Definition jsq (s : string) : jsstring :=
  map (fun c => if N.eqb c 96 then quote else c) (js s).

Definition ornamen_svg : jsstring :=
  jsq "
<svg xmlns=`http://www.w3.org/2000/svg` viewBox=`0 0 160 160`>
  <defs>
    <linearGradient id=`g` x1=`0` y1=`0` x2=`1` y2=`1`>
      <stop offset=`0` stop-color=`#22c55e`/>
      <stop offset=`1` stop-color=`#16a34a`/>
    </linearGradient>
  </defs>
  <rect width=`160` height=`160` rx=`16` fill=`url(#g)`/>
  <g fill=`none` stroke=`white` stroke-width=`3`>
    <path d=`M80 20l40 40-40 40-40-40z`/>
    <path d=`M80 60l40 40-40 40-40-40z` opacity=`0.6`/>
    <circle cx=`80` cy=`60` r=`10` fill=`white` stroke=`none`/>
  </g>
</svg>".

Definition masjid_svg : jsstring :=
  jsq "
<svg xmlns=`http://www.w3.org/2000/svg` viewBox=`0 0 240 160`>
  <rect width=`240` height=`160` fill=`#0ea5e9`/>
  <g fill=`white`>
    <path d=`M30 140h180v-40h-180z`/>
    <path d=`M60 100h40v-20a20 20 0 1 1 40 0v20h40v-10h-15v-35h-10v35h-30v-20a35 35 0 1 0-70 0v20H60z`/>
    <rect x=`35` y=`85` width=`10` height=`55`/>
    <rect x=`195` y=`85` width=`10` height=`55`/>
  </g>
</svg>".

Definition kaligrafi_svg : jsstring :=
  jsq "
<svg xmlns=`http://www.w3.org/2000/svg` viewBox=`0 0 200 120`>
  <rect width=`200` height=`120` fill=`#111827`/>
  <path d=`M20 80c30-40 50-40 80 0s50 40 80 0` fill=`none` stroke=`#fbbf24` stroke-width=`6` stroke-linecap=`round`/>
  <circle cx=`100` cy=`60` r=`8` fill=`#fbbf24`/>
</svg>".

Definition SAMPLE_SVGS : list SvgItem :=
  [ mkSvgItem (js "islamic-ornament") (js "Ornamen Geometrik") ornamen_svg
      (Some [js "geometric"; js "ornament"]);
    mkSvgItem (js "masjid") (js "Masjid Siluet") masjid_svg
      (Some [js "silhouette"; js "building"]);
    mkSvgItem (js "calligraphy") (js "Kaligrafi Sederhana") kaligrafi_svg
      (Some [js "calligraphy"; js "line"]) ].


(* ===================================================================== *)
(** ** The page: the filter of [HomePage] *)
(* ===================================================================== *)

Section HomePage.

(** [String.prototype.toLowerCase] in full, which the search applies to
    arbitrary text. *)
Variable lowerCase : jsstring -> jsstring.

(** [(s.tags || []).some((t) => t.toLowerCase().includes(q))] *)
Definition tagMatches (s : SvgItem) (q : jsstring) : bool :=
  existsb (fun t => includes (lowerCase t) q)
          (match tags s with Some ts => ts | None => [] end).

(** The [useMemo] of [HomePage]: the items shown for a query. *)
Definition filtered (query : jsstring) : list SvgItem :=
  let q := lowerCase (trim query) in
  match q with
  | [] => SAMPLE_SVGS
  | _ =>
      filter (fun s => includes (lowerCase (name s)) q || tagMatches s q)
             SAMPLE_SVGS
  end.

End HomePage.

(* ===================================================================== *)
(** ** Auxiliary notions for the further properties *)
(* ===================================================================== *)

(** The code units a data URL built by [svgToDataUrl] is made of: the
    unreserved characters, the five that the [replace] chain puts back,
    the percent sign, and [;] [,] [+] of the prefix. *)
Definition isDataUrlChar (c : codeunit) : bool :=
  isUnreserved c
  || existsb (N.eqb c) [32; 61; 58; 47; 37; 59; 44; 43]%N.

(** A surrogate of the second half, which completes a pair. *)
Definition isTrailSurrogate (c : codeunit) : bool := between 56320 57343 c.

(** Every element of the page is older than the next node to be made. *)
Definition nodesFresh {Blob : Type} (b : Browser Blob) : Prop :=
  Forall (fun a => (node a < minted b)%nat) (bodyChildren b).

(** The invariant of the card: no transparency with jpeg. *)
Definition opaqueWhenJpeg (st : Card.State) : Prop :=
  Card.format st = jpeg -> Card.transparent st = false.

(* ===================================================================== *)
(** * Properties *)
(* ===================================================================== *)

Unset Implicit Arguments.

(** ** Strings *)

Lemma str_eqb_eq a b : str_eqb a b = true <-> a = b.
Proof.
  revert b; induction a as [|x a IH]; intros [|y b]; simpl; split;
    try congruence; try reflexivity.
  - intros H. apply andb_true_iff in H as [H1 H2].
    apply N.eqb_eq in H1. apply IH in H2. congruence.
  - intros H. injection H as -> ->. rewrite N.eqb_refl. simpl.
    apply IH. reflexivity.
Qed.

Lemma str_eqb_refl a : str_eqb a a = true.
Proof. apply str_eqb_eq. reflexivity. Qed.

(** ** The embedding on concrete inputs *)

Example split_leading_trailing :
  split_ws (js " a  b ") = [[]; js "a"; js "b"; []].
Proof. reflexivity. Qed.

Example split_empty : split_ws [] = [[]].
Proof. reflexivity. Qed.

Example Number_samples :
  map (fun s => Number (js s))
      ["160"; " 12 "; ""; "0x10"; "1e3"; "1e"; "-.5"; "."; "12px"]%string
  = [ofZ 160; ofZ 12; ofZ 0; ofZ 16; ofZ 1000; NaN; Fin (-1 # 2); NaN; NaN].
Proof. vm_compute. reflexivity. Qed.

Example parseFloat_samples :
  map (fun s => parseFloat (js s))
      ["100.4px"; "1e"; "0x10"; "abc"; ".e5"; "5e+2z"; "-Infinityx"]%string
  = [Fin (3532510957718733 # 35184372088832); ofZ 1; ofZ 0; NaN; NaN;
     ofZ 500; Inf true].
Proof. vm_compute. reflexivity. Qed.

Example parseLen_units :
  map (fun s => parseLen (Some (js s))) ["100px"; "50%"; "2em"; "auto"]%string
  = [ofZ 100; ofZ 50; ofZ 2; NaN].
Proof. vm_compute. reflexivity. Qed.

Example binary64_tenth :
  binary64 (1 # 10) = Fin (3602879701896397 # 36028797018963968).
Proof. vm_compute. reflexivity. Qed.

Example Math_round_ties :
  map Math_round [Fin (5 # 2); Fin (-5 # 2); Fin (-7 # 3); Fin (1 # 3)]
  = [ofZ 3; ofZ (-2); ofZ (-2); ofZ 0].
Proof. vm_compute. reflexivity. Qed.

Example encodeURIComponent_astral :
  encodeURIComponent [233; 8364; 55357; 56832]%N
  = Normal (js "%C3%A9%E2%82%AC%F0%9F%98%80").
Proof. vm_compute. reflexivity. Qed.

Example encodeURIComponent_lone_surrogate :
  encodeURIComponent [55357]%N = Throw (js "URIError").
Proof. reflexivity. Qed.

(** ** Numbers *)

Lemma Qle_bool_false a b : Qle_bool a b = false -> (b < a)%Q.
Proof.
  intros H. apply Qnot_le_lt. intros Hle.
  apply Qle_bool_iff in Hle. congruence.
Qed.

Lemma Qltb_true a b : Qltb a b = true <-> (a < b)%Q.
Proof.
  unfold Qltb. split.
  - intros H. apply negb_true_iff in H. now apply Qle_bool_false.
  - intros H. apply negb_true_iff. destruct (Qle_bool b a) eqn:E; auto.
    apply Qle_bool_iff in E. lra.
Qed.

Lemma Qltb_false a b : Qltb a b = false <-> (b <= a)%Q.
Proof.
  unfold Qltb. rewrite negb_false_iff. apply Qle_bool_iff.
Qed.

(** The nearest integer, ties up, of a value that is at most one is at
    most one; of a value above one it is at least one. *)
Lemma round_le_one q : (q <= 1)%Q -> (Qfloor (q + (1 # 2)) <= 1)%Z.
Proof.
  intros H.
  assert (Hf : (Qfloor (q + (1 # 2)) <= Qfloor (3 # 2))%Z)
    by (apply Qfloor_resp_le; lra).
  exact Hf.
Qed.

Lemma round_ge_one q : (1 < q)%Q -> (1 <= Qfloor (q + (1 # 2)))%Z.
Proof.
  intros H.
  assert (Hf : (Qfloor (3 # 2) <= Qfloor (q + (1 # 2)))%Z)
    by (apply Qfloor_resp_le; lra).
  exact Hf.
Qed.

Lemma Qle_bool_inject a b : Qle_bool (inject_Z a) (inject_Z b) = (a <=? b)%Z.
Proof.
  destruct (Z.leb_spec a b) as [H|H].
  - apply Qle_bool_iff. rewrite <- Zle_Qle. exact H.
  - destruct (Qle_bool (inject_Z a) (inject_Z b)) eqn:E; auto.
    apply Qle_bool_iff in E. rewrite <- Zle_Qle in E. lia.
Qed.

Lemma Math_max_one_integer n :
  Math_max one (Fin (inject_Z n))
  = if (n <=? 1)%Z then one else Fin (inject_Z n).
Proof.
  cbn [Math_max one ge]. change 1%Q with (inject_Z 1).
  now rewrite Qle_bool_inject.
Qed.

(** The clamp of the source and the formula of the specification agree on
    every number. *)
Lemma clamp_round_eq x :
  Math_max one (Math_round x) = spec_surfaceDim x.
Proof.
  unfold spec_surfaceDim.
  destruct x as [|[|]|q]; try reflexivity.
  cbn [Math_round Math_max one ge].
  change 1%Q with (inject_Z 1) at 1.
  rewrite Qle_bool_inject.
  destruct (Qle_bool q 1) eqn:Hq.
  - apply Qle_bool_iff in Hq. apply round_le_one in Hq.
    apply Z.leb_le in Hq. rewrite Hq. reflexivity.
  - apply Qle_bool_false in Hq.
    assert (Hpos : Qltb q 0 = false) by (apply Qltb_false; lra).
    cbn [spec_round]. rewrite Hpos.
    pose proof (round_ge_one q Hq) as Hge.
    destruct (Z.leb_spec (Qfloor (q + (1 # 2))) 1) as [Hle|Hgt];
      [|reflexivity].
    assert (E : Qfloor (q + (1 # 2)) = 1%Z) by lia.
    rewrite E. reflexivity.
Qed.

(** A clamp is at least one unless its argument is not a number. *)
Lemma Math_max_one_ge x : isNaN x = false -> ge (Math_max one x) one = true.
Proof.
  destruct x as [|[|]|q]; intros H; try discriminate; try reflexivity.
  cbn [Math_max one ge].
  destruct (Qle_bool q 1) eqn:Hq; cbn [ge].
  - reflexivity.
  - apply Qle_bool_iff. apply Qle_bool_false in Hq. lra.
Qed.

Lemma Math_round_isNaN x : isNaN (Math_round x) = isNaN x.
Proof. destruct x; reflexivity. Qed.

Lemma Math_max_one_isNaN x : isNaN (Math_max one x) = isNaN x.
Proof.
  destruct x as [|[|]|q]; try reflexivity.
  unfold Math_max, one. destruct (ge _ _); reflexivity.
Qed.

Lemma Math_max_one_not_zero x : isZero (Math_max one x) = false.
Proof.
  destruct x as [|[|]|q]; try reflexivity.
  cbn [Math_max one ge].
  destruct (Qle_bool q 1) eqn:Hq; cbn [isZero].
  - reflexivity.
  - apply Qle_bool_false in Hq.
    destruct (Qeq_bool q 0) eqn:E; auto.
    apply Qeq_bool_iff in E. lra.
Qed.

(** ** The rasterizer *)

Section RasterizerFacts.

Variable Blob : Type.
Variable loadImage : jsstring -> option Image.
Variable toBlob : Canvas -> jsstring -> option Q -> option Blob.

(** Once the image is decoded and a context is there, the call leaves a
    canvas of the clamped size with the background decided by the format
    and the flag, and the image drawn over all of it. *)
Lemma rasterizeSvg_canvas markup outSize format bg url img :
  svgToDataUrl markup = Normal url ->
  loadImage url = Some img ->
  snd (rasterizeSvg loadImage true toBlob markup outSize format bg)
  = Some
      (let w := canvas_width (set_width createCanvas
                  (Math_max one (Math_round (width outSize)))) in
       let h := canvas_height (set_height createCanvas
                  (Math_max one (Math_round (height outSize)))) in
       if RasterFormat_eqb format jpeg || negb (transparent bg)
       then mkCanvas w h (fillColour bg)
              [FillRect (fillColour bg) zero zero w h;
               DrawImage img zero zero w h]
       else mkCanvas w h (js "#000000") [DrawImage img zero zero w h]).
Proof.
  intros Hurl Himg. unfold rasterizeSvg. rewrite Hurl, Himg.
  cbn [negb].
  destruct (RasterFormat_eqb format jpeg || negb (transparent bg));
    cbn -[Math_max Math_round js toUnsignedLong reflectUnsignedLong ofZ];
    destruct (toBlob _ _ _); reflexivity.
Qed.

End RasterizerFacts.

(** C1.  When the image has been decoded and a drawing context obtained,
    [rasterizeSvg] fills the whole surface with [background.color]
    (["#ffffff"] when that is empty) before it draws exactly when the
    format is jpeg or [transparent] is false: every pixel of the surface
    then shows the image over that colour.  With png and [transparent]
    true nothing is filled and every pixel shows the image over a
    transparent surface. *)
Theorem rasterize_background_rule :
  forall (Blob : Type) (loadImage : jsstring -> option Image)
         (toBlob : Canvas -> jsstring -> option Q -> option Blob)
         markup outSize format bg url img,
    svgToDataUrl markup = Normal url ->
    loadImage url = Some img ->
    exists c,
      snd (rasterizeSvg loadImage true toBlob markup outSize format bg)
      = Some c
      /\ (format = jpeg \/ transparent bg = false ->
          painted c
          = [FillRect (fillColour bg) zero zero
               (canvas_width c) (canvas_height c);
             DrawImage img zero zero (canvas_width c) (canvas_height c)]
          /\ forall px py,
               onSurface c px py = true ->
               pixelAt (painted c) px py = Picture img (Colour (fillColour bg)))
      /\ (format = png /\ transparent bg = true ->
          painted c
          = [DrawImage img zero zero (canvas_width c) (canvas_height c)]
          /\ forall px py,
               onSurface c px py = true ->
               pixelAt (painted c) px py = Picture img Transparent).
Proof.
  intros Blob loadImage toBlob markup outSize format bg url img Hurl Himg.
  eexists. split.
  - eapply rasterizeSvg_canvas; eassumption.
  - cbv zeta. split.
    + intros Hfill.
      assert (E : RasterFormat_eqb format jpeg || negb (transparent bg) = true).
      { destruct Hfill as [-> | ->]; [reflexivity | apply orb_true_r]. }
      rewrite E. cbn [painted canvas_width canvas_height]. split; [reflexivity|].
      intros px py Hin. unfold onSurface in Hin.
      cbn [canvas_width canvas_height] in Hin.
      unfold pixelAt. cbn [fold_left applyOp]. rewrite Hin. reflexivity.
    + intros [-> Ht]. rewrite Ht.
      cbn [RasterFormat_eqb negb orb painted canvas_width canvas_height].
      split; [reflexivity|].
      intros px py Hin. unfold onSurface in Hin.
      cbn [canvas_width canvas_height] in Hin.
      unfold pixelAt. cbn [fold_left applyOp]. rewrite Hin. reflexivity.
Qed.

(** A jpeg export with an empty colour: the surface is white under the
    image. *)
Lemma rasterize_background_rule_witness :
  exists c,
    snd (rasterizeSvg (fun u => Some (mkImage u)) true
           (fun _ _ _ => Some tt)
           (js "<svg viewBox='0 0 240 160'/>")
           (mkSize (ofZ 512) (ofZ 341)) jpeg (mkBackground [] true))
    = Some c
    /\ forall px py,
         onSurface c px py = true ->
         pixelAt (painted c) px py
         = Picture
             (mkImage (dataUrlPrefix
                ++ js "%3Csvg xmlns='http://www.w3.org/2000/svg' viewBox='0 0 240 160'/%3E"))
             (Colour (js "#ffffff")).
Proof.
  destruct (@rasterize_background_rule unit (fun u => Some (mkImage u))
              (fun _ _ _ => Some tt)
              (js "<svg viewBox='0 0 240 160'/>")
              (mkSize (ofZ 512) (ofZ 341)) jpeg (mkBackground [] true)
              (dataUrlPrefix
                 ++ js "%3Csvg xmlns='http://www.w3.org/2000/svg' viewBox='0 0 240 160'/%3E")
              (mkImage (dataUrlPrefix
                 ++ js "%3Csvg xmlns='http://www.w3.org/2000/svg' viewBox='0 0 240 160'/%3E"))
              ltac:(vm_compute; reflexivity) ltac:(reflexivity))
    as [c [Hc [Hfill _]]].
  exists c. split; [exact Hc|].
  destruct (Hfill (or_introl eq_refl)) as [_ Hpix].
  exact Hpix.
Defined.

(** The clamped and rounded value of a number is a whole number, at
    least one. *)
Lemma clamp_integer q :
  Math_max one (Math_round (Fin q)) = ofZ (Z.max 1 (Qfloor (q + (1 # 2)))).
Proof.
  cbn [Math_round]. rewrite Math_max_one_integer. unfold ofZ.
  destruct (Z.leb_spec (Qfloor (q + (1 # 2))) 1) as [H|H].
  - rewrite Z.max_l by lia. reflexivity.
  - rewrite Z.max_r by lia. reflexivity.
Qed.

(** A whole number from 0 to 2147483647 goes through the conversion to
    [unsigned long] and the reflection unchanged. *)
Lemma reflectUnsignedLong_small default m :
  (0 <= m <= 2147483647)%Z ->
  reflectUnsignedLong default (toUnsignedLong (ofZ m)) = m.
Proof.
  intros H. unfold toUnsignedLong, ofZ, inject_Z. cbn [Qnum Qden].
  change (2 ^ 32)%Z with 4294967296%Z.
  rewrite Z.quot_1_r, Z.mod_small by lia.
  unfold reflectUnsignedLong.
  destruct (Z.leb_spec m 2147483647); [reflexivity | lia].
Qed.

Lemma holdsInCanvas_clamp d :
  holdsInCanvas d = true ->
  exists m, Math_max one (Math_round d) = ofZ m
            /\ (1 <= m <= 2147483647)%Z.
Proof.
  destruct d as [| |q]; try discriminate. cbn [holdsInCanvas]. intros H.
  apply Qltb_true in H.
  exists (Z.max 1 (Qfloor (q + (1 # 2)))). split; [apply clamp_integer|].
  assert (Hf : (Qfloor (q + (1 # 2)) < 2147483648)%Z).
  { assert (Hlt : (inject_Z (Qfloor (q + (1 # 2))) < inject_Z 2147483648)%Q).
    { eapply Qle_lt_trans; [apply Qfloor_le|].
      assert (E : inject_Z 2147483648 == (4294967295 # 2) + (1 # 2))
        by (vm_compute; reflexivity).
      rewrite E. lra. }
    now rewrite <- Zlt_Qlt in Hlt. }
  lia.
Qed.

(** What a canvas attribute reports after a request that it holds: the
    clamped and rounded request, which is at least one. *)
Lemma canvas_dimension_held default d :
  holdsInCanvas d = true ->
  ofZ (reflectUnsignedLong default (toUnsignedLong (spec_surfaceDim d)))
  = spec_surfaceDim d
  /\ isZero (spec_surfaceDim d) = false
  /\ ge (spec_surfaceDim d) one = true.
Proof.
  intros H. rewrite <- clamp_round_eq.
  destruct (holdsInCanvas_clamp d H) as (m & -> & Hm).
  rewrite reflectUnsignedLong_small by lia.
  split; [reflexivity|]. split.
  - unfold isZero, ofZ.
    destruct (Qeq_bool (inject_Z m) 0) eqn:E; [|reflexivity].
    apply Qeq_bool_iff in E. unfold Qeq, inject_Z in E.
    cbn [Qnum Qden] in E. lia.
  - unfold ge, ofZ, one. change 1%Q with (inject_Z 1).
    rewrite Qle_bool_inject. apply Z.leb_le. lia.
Qed.

(** C4.  The canvas [rasterizeSvg] allocates reports as its width and
    height what its [unsigned long] attributes make of
    [round(max(1, width))] and [round(max(1, height))], rounding half away
    from zero.  For a requested dimension that is a number below
    2147483647.5 that is [round(max(1, d))] itself, which is at least one
    and so not zero.  A request of 100.4 by 99.6 gives a surface of 100 by
    100. *)
Theorem rasterize_surface_size :
  forall (Blob : Type) (loadImage : jsstring -> option Image)
         (contextAvailable : bool)
         (toBlob : Canvas -> jsstring -> option Q -> option Blob)
         markup outSize format bg url img,
    svgToDataUrl markup = Normal url ->
    loadImage url = Some img ->
    (exists c,
      snd (rasterizeSvg loadImage contextAvailable toBlob
             markup outSize format bg) = Some c
      /\ canvas_width c
         = ofZ (reflectUnsignedLong 300
                  (toUnsignedLong (spec_surfaceDim (width outSize))))
      /\ canvas_height c
         = ofZ (reflectUnsignedLong 150
                  (toUnsignedLong (spec_surfaceDim (height outSize))))
      /\ (holdsInCanvas (width outSize) = true ->
          canvas_width c = spec_surfaceDim (width outSize)
          /\ isZero (canvas_width c) = false
          /\ ge (canvas_width c) one = true)
      /\ (holdsInCanvas (height outSize) = true ->
          canvas_height c = spec_surfaceDim (height outSize)
          /\ isZero (canvas_height c) = false
          /\ ge (canvas_height c) one = true))
    /\ spec_surfaceDim (Number (js "100.4")) = ofZ 100
    /\ spec_surfaceDim (Number (js "99.6")) = ofZ 100.
Proof.
  intros Blob loadImage ctx toBlob markup outSize format bg url img Hurl Himg.
  split; [|split; vm_compute; reflexivity].
  assert (Hdims : forall c,
    snd (rasterizeSvg loadImage ctx toBlob markup outSize format bg) = Some c ->
    canvas_width c
    = ofZ (reflectUnsignedLong 300
             (toUnsignedLong (Math_max one (Math_round (width outSize)))))
    /\ canvas_height c
       = ofZ (reflectUnsignedLong 150
                (toUnsignedLong (Math_max one (Math_round (height outSize)))))).
  { intros c. unfold rasterizeSvg. rewrite Hurl, Himg.
    destruct ctx; cbn [negb].
    - destruct (RasterFormat_eqb format jpeg || negb (transparent bg));
        cbn -[Math_max Math_round js toUnsignedLong reflectUnsignedLong ofZ];
        destruct (toBlob _ _ _); cbn [snd];
        intros [= <-]; split; reflexivity.
    - cbn [snd]. intros [= <-]. split; reflexivity. }
  assert (Hex : exists c,
    snd (rasterizeSvg loadImage ctx toBlob markup outSize format bg) = Some c).
  { unfold rasterizeSvg. rewrite Hurl, Himg.
    destruct ctx; cbn [negb]; [|eexists; reflexivity].
    destruct (toBlob _ _ _); eexists; reflexivity. }
  destruct Hex as [c Hc]. exists c. split; [exact Hc|].
  destruct (Hdims c Hc) as [Hw Hh]. rewrite Hw, Hh, !clamp_round_eq.
  split; [reflexivity|]. split; [reflexivity|]. split.
  - intros Hin.
    destruct (canvas_dimension_held 300 (width outSize) Hin) as (E & Hz & Hg).
    rewrite E. repeat split; assumption.
  - intros Hin.
    destruct (canvas_dimension_held 150 (height outSize) Hin) as (E & Hz & Hg).
    rewrite E. repeat split; assumption.
Qed.

(** The scenario of the specification: 100.4 by 99.6 gives 100 by 100. *)
Lemma rasterize_surface_size_witness :
  exists c,
    snd (rasterizeSvg (fun u => Some (mkImage u)) true
           (fun _ _ _ => Some tt)
           (js "<svg/>")
           (mkSize (Number (js "100.4")) (Number (js "99.6")))
           png (mkBackground (js "#ffffff") true))
    = Some c
    /\ canvas_width c = ofZ 100 /\ canvas_height c = ofZ 100.
Proof.
  destruct (@rasterize_surface_size unit (fun u => Some (mkImage u)) true
              (fun _ _ _ => Some tt)
              (js "<svg/>")
              (mkSize (Number (js "100.4")) (Number (js "99.6")))
              png (mkBackground (js "#ffffff") true)
              (dataUrlPrefix
                 ++ js "%3Csvg xmlns='http://www.w3.org/2000/svg'/%3E")
              (mkImage (dataUrlPrefix
                 ++ js "%3Csvg xmlns='http://www.w3.org/2000/svg'/%3E"))
              ltac:(vm_compute; reflexivity) ltac:(reflexivity))
    as [[c [Hc [_ [_ [Hw Hh]]]]] [E1 E2]].
  exists c. split; [exact Hc|].
  cbn [width height] in Hw, Hh.
  destruct (Hw ltac:(vm_compute; reflexivity)) as [Ew _].
  destruct (Hh ltac:(vm_compute; reflexivity)) as [Eh _].
  rewrite Ew, Eh, E1, E2. split; reflexivity.
Defined.

(** C4 as the specification states it fails: a requested width of
    4294967296, which [round(max(1, width))] leaves as it is, gives a
    canvas whose width is 0. *)
Lemma rasterize_surface_width_zero :
  exists c,
    snd (rasterizeSvg (fun u => Some (mkImage u)) true
           (fun _ _ _ => Some tt)
           (js "<svg/>")
           (mkSize (Number (js "4294967296")) (Number (js "100")))
           png (mkBackground (js "#ffffff") true))
    = Some c
    /\ spec_surfaceDim (Number (js "4294967296")) = ofZ 4294967296
    /\ canvas_width c = zero
    /\ isZero (canvas_width c) = true
    /\ canvas_height c = ofZ 100.
Proof.
  eexists. split; [vm_compute; reflexivity|].
  repeat split; vm_compute; reflexivity.
Qed.

(** ** The [Card] component *)

(** C2.  Whenever the selected format is jpeg, the background settings
    that [handleDownload] hands to [rasterizeSvg] have [transparent] false,
    whatever the transparency flag of the state is; and the effect of the
    component switches the flag of the state itself off. *)
Theorem jpeg_export_never_transparent :
  forall st : Card.State,
    Card.format st = jpeg ->
    transparent (Card.exportBackground st) = false
    /\ Card.transparent (Card.effect st) = false
    /\ Card.format (Card.effect st) = jpeg.
Proof.
  intros [f t c l s] Hf. cbn in Hf. subst f.
  unfold Card.exportBackground, Card.effect. cbn.
  destruct t; cbn; auto.
Qed.

(** A state with jpeg selected and the transparency box still ticked. *)
Lemma jpeg_export_never_transparent_witness :
  transparent
    (Card.exportBackground
       (Card.mkState jpeg true (js "#ffffff") true (mkSize (ofZ 512) (ofZ 341))))
  = false.
Proof.
  apply (jpeg_export_never_transparent
           (Card.mkState jpeg true (js "#ffffff") true
              (mkSize (ofZ 512) (ofZ 341)))).
  reflexivity.
Defined.

Lemma binary64_not_NaN q : isNaN (binary64 q) = false.
Proof.
  unfold binary64.
  repeat match goal with
         | |- context [if ?b then _ else _] => destruct b
         end; reflexivity.
Qed.

Lemma or_else_zero_not_NaN x : isNaN (or_else x zero) = false.
Proof.
  destruct x as [| |q]; try reflexivity.
  unfold or_else, truthy. destruct (negb (Qeq_bool q 0)); reflexivity.
Qed.

(** [v || 0] does not change what [Math.round] gives, unless [v] is not a
    number. *)
Lemma round_or_else x :
  isNaN x = false -> Math_round (or_else x zero) = Math_round x.
Proof.
  destruct x as [| |q]; intros H; try discriminate; try reflexivity.
  unfold or_else, truthy. destruct (Qeq_bool q 0) eqn:E; [|reflexivity].
  cbn [negb zero Math_round]. apply Qeq_bool_iff in E.
  do 2 f_equal. apply Qfloor_comp. rewrite E. reflexivity.
Qed.

Lemma div_not_NaN x q :
  isNaN x = false -> (0 < q)%Q -> isNaN (div x (Fin q)) = false.
Proof.
  intros Hx Hq. destruct x as [| |a]; try discriminate; try reflexivity.
  cbn [div]. destruct (Qeq_bool q 0) eqn:E.
  - apply Qeq_bool_iff in E. lra.
  - apply binary64_not_NaN.
Qed.

Lemma mul_not_NaN x q :
  isNaN x = false -> (0 < q)%Q -> isNaN (mul x (Fin q)) = false.
Proof.
  intros Hx Hq. destruct x as [| |a]; try discriminate.
  - cbn [mul]. destruct (Qeq_bool q 0) eqn:E; [|reflexivity].
    apply Qeq_bool_iff in E. lra.
  - cbn [mul]. apply binary64_not_NaN.
Qed.

Lemma clamp_ge_one x :
  isNaN x = false -> ge (Math_max one (Math_round x)) one = true.
Proof.
  intros H. apply Math_max_one_ge. now rewrite Math_round_isNaN.
Qed.

Lemma clamp_isNaN x :
  isNaN (Math_max one (Math_round x)) = isNaN x.
Proof. now rewrite Math_max_one_isNaN, Math_round_isNaN. Qed.

Section CardFacts.

Variable parseFromString : jsstring -> completion Document.
Variable item : SvgItem.

Abbreviation aspect := (Card.aspect parseFromString item).
Abbreviation handle := (Card.handle parseFromString item).
Abbreviation step := (Card.step parseFromString item).
Abbreviation run := (Card.run parseFromString item).

Hypothesis aspect_positive : exists q, aspect = Fin q /\ (0 < q)%Q.

Lemma effect_size st : Card.size (Card.effect st) = Card.size st.
Proof.
  unfold Card.effect.
  destruct (RasterFormat_eqb (Card.format st) jpeg && Card.transparent st);
    reflexivity.
Qed.

Lemma handle_sizeOk e st :
  sizeOk (Card.size st) -> sizeOk (Card.size (handle e st)).
Proof.
  destruct aspect_positive as [q [Ha Hq]].
  intros [Hw Hh].
  destruct e as [v|v| | | | ]; cbn [Card.handle Card.size];
    try (split; assumption).
  - unfold Card.onWidthChange. rewrite Ha.
    destruct (Card.lockRatio st); cbn [Card.setSize Card.size];
      split; cbn [width height];
      try apply clamp_ge_one; try assumption;
      try apply or_else_zero_not_NaN.
    apply div_not_NaN; [|exact Hq].
    rewrite clamp_isNaN. apply or_else_zero_not_NaN.
  - unfold Card.onHeightChange. rewrite Ha.
    destruct (Card.lockRatio st); cbn [Card.setSize Card.size];
      split; cbn [width height];
      try apply clamp_ge_one; try assumption;
      try apply or_else_zero_not_NaN.
    apply mul_not_NaN; [|exact Hq].
    rewrite clamp_isNaN. apply or_else_zero_not_NaN.
Qed.

Lemma run_sizeOk es :
  forall st, sizeOk (Card.size st) -> sizeOk (Card.size (run st es)).
Proof.
  induction es as [|e es IH]; intros st Hst; [exact Hst|].
  cbn [Card.run fold_left]. apply IH.
  unfold Card.step. rewrite effect_size. now apply handle_sizeOk.
Qed.

End CardFacts.

Lemma onWidthChange_width parse item v st :
  width (Card.size (Card.onWidthChange parse item v st))
  = Math_max one (Math_round (or_else v zero)).
Proof.
  unfold Card.onWidthChange. destruct (Card.lockRatio st); reflexivity.
Qed.

Lemma onHeightChange_height parse item v st :
  height (Card.size (Card.onHeightChange parse item v st))
  = Math_max one (Math_round (or_else v zero)).
Proof.
  unfold Card.onHeightChange. destruct (Card.lockRatio st); reflexivity.
Qed.

(** Every item of the catalogue, at the default width, has an aspect
    ratio that is a positive number and an initial size of 1024 by 1024,
    683 or 614. *)
Lemma sample_cards_ok :
  Forall
    (fun entry =>
       (exists q,
          Card.aspect
            (fun _ =>
               Normal (mkDocument
                 (Some (mkElement (js "svg") [(js "viewBox", snd entry)]))))
            (mkSvgItem [] (fst entry) [] None) = Fin q /\ (0 < q)%Q)
       /\ sizeOk
            (Card.initialSize
               (fun _ =>
                  Normal (mkDocument
                    (Some (mkElement (js "svg") [(js "viewBox", snd entry)]))))
               (mkSvgItem [] (fst entry) [] None) (ofZ 1024)))
    sampleViewBoxes.
Proof.
  repeat constructor;
    try (eexists; split; [vm_compute; reflexivity | reflexivity]);
    vm_compute; reflexivity.
Qed.

Example sample_initial_sizes :
  map (fun entry =>
         Card.initialSize
           (fun _ =>
              Normal (mkDocument
                (Some (mkElement (js "svg") [(js "viewBox", snd entry)]))))
           (mkSvgItem [] (fst entry) [] None) (ofZ 1024))
      sampleViewBoxes
  = [mkSize (ofZ 1024) (ofZ 1024); mkSize (ofZ 1024) (ofZ 683);
     mkSize (ofZ 1024) (ofZ 614)].
Proof. vm_compute. reflexivity. Qed.


(** A bounding box whose width and height both read as [Infinity] gives
    the aspect ratio [NaN]; a width input of 300 with the ratio locked
    then stores [Math.max(1, NaN)], which is [NaN], as the height. *)
Example card_reaches_NaN_height :
  Card.aspect
    (fun _ : jsstring =>
       Normal (mkDocument
         (Some (mkElement (js "svg")
                  [(js "viewBox", js "0 0 1e400 1e400")]))))
    (mkSvgItem (js "big") (js "Big") [] None)
  = NaN
  /\ Card.size
       (Card.run
          (fun _ : jsstring =>
             Normal (mkDocument
               (Some (mkElement (js "svg")
                        [(js "viewBox", js "0 0 1e400 1e400")]))))
          (mkSvgItem (js "big") (js "Big") [] None)
          (Card.initialState
             (fun _ : jsstring =>
                Normal (mkDocument
                  (Some (mkElement (js "svg")
                           [(js "viewBox", js "0 0 1e400 1e400")]))))
             (mkSvgItem (js "big") (js "Big") [] None)
             (ofZ 1024))
          [Card.WidthInput (js "300")])
     = mkSize (ofZ 300) NaN.
Proof. split; vm_compute; reflexivity. Qed.

(** ** The download trigger *)

Section DownloadFacts.

Variable Blob : Type.

Lemma lookupURL_filter_same (store : list (jsstring * Blob)) url :
  lookupURL (filter (fun e => negb (str_eqb (fst e) url)) store) url = None.
Proof.
  unfold lookupURL. induction store as [|[u b] r IH]; [reflexivity|].
  cbn [filter fst]. destruct (str_eqb u url) eqn:E; cbn [negb]; [exact IH|].
  cbn [find fst]. rewrite E. exact IH.
Qed.

Lemma lookupURL_filter_other (store : list (jsstring * Blob)) url u :
  u <> url ->
  lookupURL (filter (fun e => negb (str_eqb (fst e) url)) store) u
  = lookupURL store u.
Proof.
  intros Hne. unfold lookupURL.
  induction store as [|[k b] r IH]; [reflexivity|].
  cbn [filter fst]. destruct (str_eqb k url) eqn:E; cbn [negb find fst].
  - apply str_eqb_eq in E. subst k.
    destruct (str_eqb url u) eqn:E2; [|exact IH].
    apply str_eqb_eq in E2. congruence.
  - destruct (str_eqb k u); [reflexivity | exact IH].
Qed.

Lemma lookupURL_head (store : list (jsstring * Blob)) url blob :
  lookupURL ((url, blob) :: store) url = Some blob.
Proof.
  unfold lookupURL. cbn [find fst]. rewrite str_eqb_refl. reflexivity.
Qed.

(** The run of [downloadBlob] when no call throws. *)
Lemma downloadBlob_normal throws (blob : Blob) filename b :
  (forall c, throws c = false) ->
  downloadBlob throws blob filename b
  = (Normal tt,
     mkBrowser
       (filter (fun e => negb (str_eqb (fst e) (mintedURL b)))
               ((mintedURL b, blob) :: objectURLs b))
       (filter (fun x => negb (Nat.eqb (node x) (S (minted b))))
               (bodyChildren b
                ++ [mkAnchor (S (minted b)) (mintedURL b) filename]))
       (saves b ++ [(mintedURL b, filename, blob)])
       (S (S (minted b)))).
Proof.
  intros Hok.
  unfold downloadBlob, dom_bind, createObjectURL, createAnchor, appendChild,
    click, remove, revokeObjectURL, call.
  rewrite !Hok.
  cbn [objectURLs bodyChildren saves minted href download node].
  change (js "blob:" ++ decimal (Z.of_nat (minted b))) with (mintedURL b).
  rewrite !lookupURL_head.
  cbn [objectURLs bodyChildren saves minted href download node].
  reflexivity.
Qed.

End DownloadFacts.

(** C10, as the source has it.  When no call into the browser throws,
    [downloadBlob] completes, the save is started on the reference it
    created while that reference is live, and on return the reference is
    released while every other one is as it was.  When a call after the
    creation of the reference throws, the exception leaves the function and
    the reference is still in the store. *)
Theorem downloadBlob_releases_when_no_call_throws :
  forall (Blob : Type) (throws : DomCall -> bool) (blob : Blob)
         (filename : jsstring) (b : Browser Blob),
    ((forall c, throws c = false) ->
     fst (downloadBlob throws blob filename b) = Normal tt
     /\ isLive (snd (downloadBlob throws blob filename b)) (mintedURL b)
        = false
     /\ saves (snd (downloadBlob throws blob filename b))
        = saves b ++ [(mintedURL b, filename, blob)]
     /\ forall u,
          u <> mintedURL b ->
          lookupURL (objectURLs (snd (downloadBlob throws blob filename b))) u
          = lookupURL (objectURLs b) u)
    /\ (throws CallCreateObjectURL = false ->
        throws CallCreateElement || throws CallAppendChild
        || throws CallClick || throws CallRemove
        || throws CallRevokeObjectURL = true ->
        fst (downloadBlob throws blob filename b) = Throw (js "DOMException")
        /\ isLive (snd (downloadBlob throws blob filename b)) (mintedURL b)
           = true).
Proof.
  intros Blob throws blob filename b. split.
  - intros Hok.
    rewrite (@downloadBlob_normal Blob throws blob filename b Hok).
    cbn [fst snd saves objectURLs]. repeat split.
    + unfold isLive. cbn [objectURLs]. now rewrite lookupURL_filter_same.
    + intros u Hu. rewrite lookupURL_filter_other by exact Hu.
      unfold lookupURL. cbn [find fst].
      destruct (str_eqb (mintedURL b) u) eqn:E; [|reflexivity].
      apply str_eqb_eq in E. congruence.
  - intros H0 Hlater.
    unfold downloadBlob, dom_bind, createObjectURL, createAnchor,
      appendChild, click, remove, revokeObjectURL, call, isLive.
    rewrite H0.
    change (js "blob:" ++ decimal (Z.of_nat (minted b))) with (mintedURL b).
    destruct (throws CallCreateElement);
      [cbn [fst snd objectURLs]; rewrite lookupURL_head; auto|].
    destruct (throws CallAppendChild);
      [cbn [fst snd objectURLs]; rewrite lookupURL_head; auto|].
    destruct (throws CallClick);
      [cbn [fst snd objectURLs]; rewrite lookupURL_head; auto|].
    cbn [objectURLs bodyChildren saves minted href download node].
    rewrite !lookupURL_head.
    cbn [objectURLs bodyChildren saves minted href download node].
    destruct (throws CallRemove);
      [cbn [fst snd objectURLs]; rewrite lookupURL_head; auto|].
    destruct (throws CallRevokeObjectURL);
      [cbn [fst snd objectURLs]; rewrite lookupURL_head; auto|].
    discriminate Hlater.
Qed.

Lemma downloadBlob_releases_when_no_call_throws_witness :
  isLive
    (snd (downloadBlob (fun _ => false) tt (js "masjid-siluet-512x341.jpg")
            (mkBrowser [] [] [] 0)))
    (js "blob:0")
  = false.
Proof.
  apply (proj1 (@downloadBlob_releases_when_no_call_throws unit
                  (fun _ => false) tt (js "masjid-siluet-512x341.jpg")
                  (mkBrowser [] [] [] 0))).
  reflexivity.
Defined.

(** C10 as the specification states it fails: when [a.click()] throws,
    the exception leaves [downloadBlob] and the reference it created stays
    in the store. *)
Lemma downloadBlob_keeps_reference_when_click_throws :
  fst (downloadBlob
         (fun c => match c with CallClick => true | _ => false end)
         tt (js "masjid-siluet-512x341.jpg") (mkBrowser [] [] [] 0))
  = Throw (js "DOMException")
  /\ isLive
       (snd (downloadBlob
               (fun c => match c with CallClick => true | _ => false end)
               tt (js "masjid-siluet-512x341.jpg") (mkBrowser [] [] [] 0)))
       (js "blob:0")
     = true.
Proof. vm_compute. split; reflexivity. Qed.

(** ** The export flow on the catalogue's second item *)

(** Width 512 with the ratio locked, then jpeg: the file is saved under
    the name of the specification's scenario, no alert is shown, and the
    reference is gone. *)
Example export_masjid_jpeg :
  Card.handleDownload (fun _ => []) 
    (mkSvgItem (js "masjid") (js "Masjid Siluet")
       (js "<svg viewBox='0 0 240 160'/>") None)
    (fun u => Some (mkImage u)) true (fun _ _ _ => Some tt) (fun _ => false)
    (Card.run
       (fun _ =>
          Normal (mkDocument
            (Some (mkElement (js "svg") [(js "viewBox", js "0 0 240 160")]))))
       (mkSvgItem (js "masjid") (js "Masjid Siluet")
          (js "<svg viewBox='0 0 240 160'/>") None)
       (Card.initialState
          (fun _ =>
             Normal (mkDocument
               (Some (mkElement (js "svg")
                        [(js "viewBox", js "0 0 240 160")]))))
          (mkSvgItem (js "masjid") (js "Masjid Siluet")
             (js "<svg viewBox='0 0 240 160'/>") None)
          (ofZ 1024))
       [Card.WidthInput (js "512"); Card.FormatInput jpeg])
    (mkBrowser [] [] [] 0)
  = (None,
     mkBrowser [] []
       [(js "blob:0", js "masjid-siluet-512x341.jpg", tt)] 2).
Proof. vm_compute. reflexivity. Qed.

(** The image fails to decode: the alert carries the error and nothing is
    saved. *)
Example export_decode_failure :
  Card.handleDownload (fun _ => [])
    (mkSvgItem (js "masjid") (js "Masjid Siluet") (js "<svg") None)
    (fun _ => None) true (fun _ _ _ => Some tt) (fun _ => false)
    (Card.mkState png true (js "#ffffff") true (mkSize (ofZ 512) (ofZ 341)))
    (mkBrowser [] [] [] 0)
  = (Some (js "Gagal mengunduh: [object Event]"), mkBrowser [] [] [] 0).
Proof. vm_compute. reflexivity. Qed.

(** ** The file name *)

(** Turn the boolean tests on code units into arithmetic. *)
Ltac unfold_classes :=
  unfold isSlugChar, isUnitChar, isWordChar, isAlpha, isLower, isUpper,
    isDigit, isWhiteSpace, between in *.

Ltac bool_arith :=
  repeat rewrite ?orb_true_iff, ?orb_false_iff, ?andb_true_iff,
    ?andb_false_iff, ?negb_true_iff, ?negb_false_iff,
    ?N.leb_le, ?N.leb_gt, ?N.eqb_eq, ?N.eqb_neq, ?N.ltb_lt, ?N.ltb_ge in *.

Lemma whitespace_lowerUnit c : isWhiteSpace c = true -> lowerUnit c = [c].
Proof.
  intros H. unfold lowerUnit.
  assert (E1 : isUpper c = false) by (unfold_classes; bool_arith; lia).
  assert (E2 : N.eqb c 304 = false) by (unfold_classes; bool_arith; lia).
  assert (E3 : N.eqb c 8490 = false) by (unfold_classes; bool_arith; lia).
  now rewrite E1, E2, E3.
Qed.

Lemma lowerUnit_not_whitespace c :
  isWhiteSpace c = false ->
  Forall (fun u => isWhiteSpace u = false) (lowerUnit c) /\ lowerUnit c <> [].
Proof.
  intros H. unfold lowerUnit.
  destruct (isUpper c) eqn:E1.
  - split; [|discriminate]. constructor; [|constructor].
    unfold_classes; bool_arith; lia.
  - destruct (N.eqb c 304); [|destruct (N.eqb c 8490)];
      (split; [|discriminate]); repeat constructor; assumption.
Qed.

Lemma hyphenateRuns_word l rest b :
  Forall (fun u => isWhiteSpace u = false) l ->
  l <> [] ->
  hyphenateRuns (l ++ rest) b = l ++ hyphenateRuns rest false.
Proof.
  intros Hl. revert b. induction Hl as [|u l Hu Hl IH]; intros b Hne.
  - congruence.
  - cbn [app hyphenateRuns]. rewrite Hu. f_equal.
    destruct l as [|v l']; [reflexivity|].
    apply IH. discriminate.
Qed.

Lemma filter_app_slug l r :
  filter isSlugChar (l ++ r) = filter isSlugChar l ++ filter isSlugChar r.
Proof. apply filter_app. Qed.

(** The three calls of the source compute the one-pass slug. *)
Lemma slug_pipeline s :
  forall b,
    dropNonSlug (hyphenateRuns (toLowerCase s) b) = spec_slug s b.
Proof.
  unfold dropNonSlug, toLowerCase.
  induction s as [|c r IH]; intros b; [reflexivity|].
  cbn [flat_map spec_slug].
  destruct (isWhiteSpace c) eqn:Hc.
  - rewrite (whitespace_lowerUnit c Hc). cbn [app hyphenateRuns].
    rewrite Hc. destruct b.
    + apply IH.
    + cbn [filter]. change (isSlugChar 45%N) with true. cbn iota.
      f_equal. apply IH.
  - destruct (lowerUnit_not_whitespace c Hc) as [Hall Hne].
    rewrite hyphenateRuns_word by assumption.
    rewrite filter_app_slug. f_equal. apply IH.
Qed.

Lemma spec_slug_chars s :
  forall b, Forall (fun c => isSlugChar c = true) (spec_slug s b).
Proof.
  induction s as [|c r IH]; intros b; [constructor|].
  cbn [spec_slug]. destruct (isWhiteSpace c).
  - destruct b; [apply IH|]. constructor; [reflexivity | apply IH].
  - apply Forall_app. split; [|apply IH].
    apply Forall_forall. intros x Hx. apply filter_In in Hx. tauto.
Qed.

(** C8.  The file name of an export is the display name lower-cased, with
    each run of white space turned into one hyphen and every character
    outside [[a-z0-9-]] removed, followed by [-{width}x{height}.{ext}]
    where [ext] is [jpg] for jpeg and [png] otherwise.  "Masjid Siluet" at
    512 by 341 in jpeg gives [masjid-siluet-512x341.jpg]. *)
Theorem export_filename_shape :
  forall (shortest : Q -> jsstring) (item : SvgItem) (st : Card.State),
    Card.exportFilename shortest item st
    = spec_slug (name item) false
      ++ js "-" ++ Number_toString shortest (width (Card.size st))
      ++ js "x" ++ Number_toString shortest (height (Card.size st))
      ++ js "."
      ++ (if RasterFormat_eqb (Card.format st) jpeg then js "jpg" else js "png")
    /\ Forall (fun c => isSlugChar c = true) (spec_slug (name item) false)
    /\ Card.exportFilename shortest
         (mkSvgItem (js "masjid") (js "Masjid Siluet") (svg item) (tags item))
         (Card.mkState jpeg (Card.transparent st) (Card.bgColor st)
            (Card.lockRatio st) (mkSize (ofZ 512) (ofZ 341)))
       = js "masjid-siluet-512x341.jpg".
Proof.
  intros shortest item st. split; [|split].
  - unfold Card.exportFilename, Card.slug. rewrite slug_pipeline.
    destruct (Card.format st); reflexivity.
  - apply spec_slug_chars.
  - vm_compute. reflexivity.
Qed.

(** ** Scanning: [takeWhile], [dropWhile], [trim], [split] *)

Lemma takeWhile_dropWhile p s : s = takeWhile p s ++ dropWhile p s.
Proof.
  induction s as [|c r IH]; [reflexivity|].
  cbn. destruct (p c); [cbn; f_equal; exact IH | reflexivity].
Qed.

Lemma takeWhile_all p s : Forall (fun c => p c = true) (takeWhile p s).
Proof.
  induction s as [|c r IH]; cbn; [constructor|].
  destruct (p c) eqn:E; constructor; assumption.
Qed.

Lemma dropWhile_headFails p s : headFails p (dropWhile p s).
Proof.
  induction s as [|c r IH]; cbn; [exact I|].
  destruct (p c) eqn:E; [exact IH | exact E].
Qed.

Lemma dropWhile_fixed p s : headFails p s -> dropWhile p s = s.
Proof. destruct s as [|c r]; cbn; [reflexivity|]. now intros ->. Qed.

Lemma dropWhile_app p w s :
  Forall (fun c => p c = true) w ->
  dropWhile p (w ++ s) = dropWhile p s.
Proof.
  induction 1 as [|c w Hc Hw IH]; [reflexivity|].
  cbn. now rewrite Hc.
Qed.

Lemma dropWhile_all p w :
  Forall (fun c => p c = true) w -> dropWhile p w = [].
Proof.
  intros H. rewrite <- (app_nil_r w). now rewrite dropWhile_app.
Qed.

Lemma takeWhile_app p t s :
  Forall (fun c => p c = true) t -> headFails p s ->
  takeWhile p (t ++ s) = t.
Proof.
  intros Ht Hs. induction Ht as [|c t Hc Ht IH].
  - destruct s as [|c r]; [reflexivity|]. cbn in *. now rewrite Hs.
  - cbn. rewrite Hc. f_equal. exact IH.
Qed.

Lemma headFails_app p l m : l <> [] -> headFails p l -> headFails p (l ++ m).
Proof. destruct l; [congruence | cbn; auto]. Qed.

Lemma headFails_nonempty_all p (l : jsstring) :
  l <> [] -> Forall (fun c => p c = false) l -> headFails p l.
Proof. destruct l; [congruence|]. intros _ H. inversion H; assumption. Qed.

Lemma notWhiteSpace_true c : notWhiteSpace c = true <-> isWhiteSpace c = false.
Proof. unfold notWhiteSpace. apply negb_true_iff. Qed.

Lemma notWhiteSpace_false c : notWhiteSpace c = false <-> isWhiteSpace c = true.
Proof. unfold notWhiteSpace. apply negb_false_iff. Qed.

Lemma Token_notWhiteSpace t :
  Forall (fun c => isWhiteSpace c = false) t <->
  Forall (fun c => notWhiteSpace c = true) t.
Proof.
  split; intros H; eapply Forall_impl; try exact H;
    intros c; apply notWhiteSpace_true.
Qed.

(** [trim] takes white space off both ends and nothing else. *)
Lemma trim_sandwich w0 body w4 :
  WhiteSpaceRun w0 -> WhiteSpaceRun w4 ->
  headFails isWhiteSpace body -> headFails isWhiteSpace (rev body) ->
  trim (w0 ++ body ++ w4) = body.
Proof.
  intros H0 H4 Hhead Hlast. unfold trim, trimStart, trimEnd.
  rewrite (dropWhile_app _ _ _ H0).
  destruct body as [|c body'].
  - cbn [app]. rewrite (dropWhile_all _ _ H4). reflexivity.
  - rewrite (dropWhile_fixed isWhiteSpace ((c :: body') ++ w4) Hhead).
    rewrite rev_app_distr.
    rewrite (dropWhile_app _ _ _ (Forall_rev H4)).
    rewrite (dropWhile_fixed _ _ Hlast).
    apply rev_involutive.
Qed.

Lemma trim_decompose s :
  exists w0 w4,
    s = w0 ++ trim s ++ w4
    /\ WhiteSpaceRun w0 /\ WhiteSpaceRun w4
    /\ headFails isWhiteSpace (trim s)
    /\ headFails isWhiteSpace (rev (trim s)).
Proof.
  unfold trim, trimEnd, trimStart.
  set (s1 := dropWhile isWhiteSpace s).
  exists (takeWhile isWhiteSpace s), (rev (takeWhile isWhiteSpace (rev s1))).
  assert (E1 : s = takeWhile isWhiteSpace s ++ s1)
    by apply takeWhile_dropWhile.
  assert (E2 : s1 = rev (dropWhile isWhiteSpace (rev s1))
                    ++ rev (takeWhile isWhiteSpace (rev s1))).
  { rewrite <- rev_app_distr, <- takeWhile_dropWhile.
    symmetry. apply rev_involutive. }
  repeat split.
  - rewrite <- E2. exact E1.
  - apply takeWhile_all.
  - apply Forall_rev. apply takeWhile_all.
  - (* the head of the trimmed text is the head of [s1], unless it is empty *)
    pose proof (dropWhile_headFails isWhiteSpace s) as Hs1. fold s1 in Hs1.
    pose proof (dropWhile_headFails isWhiteSpace (rev s1)) as Hr.
    destruct (rev (dropWhile isWhiteSpace (rev s1))) as [|c r] eqn:E;
      [exact I|].
    rewrite E2 in Hs1. exact Hs1.
  - rewrite rev_involutive. apply dropWhile_headFails.
Qed.

(** After a separator, [split] goes on with the next piece, and ends with
    an empty piece when nothing follows. *)
Lemma split_ws_go_after_sep s :
  split_ws_go s [] true
  = match dropWhile isWhiteSpace s with
    | [] => [[]]
    | r2 => split_ws r2
    end.
Proof.
  induction s as [|c r IH]; [reflexivity|].
  cbn [split_ws_go dropWhile]. destruct (isWhiteSpace c) eqn:E; [exact IH|].
  unfold split_ws. cbn [split_ws_go]. rewrite E. reflexivity.
Qed.

Lemma split_ws_go_unfold s :
  forall cur,
    split_ws_go s cur false
    = match dropWhile notWhiteSpace s with
      | [] => [rev cur ++ takeWhile notWhiteSpace s]
      | r =>
          (rev cur ++ takeWhile notWhiteSpace s)
          :: match dropWhile isWhiteSpace r with
             | [] => [[]]
             | r2 => split_ws r2
             end
      end.
Proof.
  induction s as [|c r IH]; intros cur.
  - cbn. now rewrite app_nil_r.
  - cbn [split_ws_go dropWhile takeWhile].
    destruct (isWhiteSpace c) eqn:E.
    + assert (Hn : notWhiteSpace c = false) by now apply notWhiteSpace_false.
      rewrite Hn. cbn [dropWhile]. rewrite E, app_nil_r. f_equal.
      apply split_ws_go_after_sep.
    + assert (Hn : notWhiteSpace c = true) by now apply notWhiteSpace_true.
      rewrite Hn, IH.
      destruct (dropWhile notWhiteSpace r); cbn [rev];
        rewrite <- app_assoc; reflexivity.
Qed.

(** [split] one piece at a time. *)
Lemma split_ws_unfold s :
  split_ws s
  = match dropWhile notWhiteSpace s with
    | [] => [takeWhile notWhiteSpace s]
    | r =>
        takeWhile notWhiteSpace s
        :: match dropWhile isWhiteSpace r with
           | [] => [[]]
           | r2 => split_ws r2
           end
    end.
Proof. unfold split_ws. now rewrite split_ws_go_unfold. Qed.

(** A token, a separator and more text: the token is the first piece. *)
Lemma split_ws_token_sep t w r2 :
  Token t -> w <> [] -> WhiteSpaceRun w ->
  r2 <> [] -> headFails isWhiteSpace r2 ->
  split_ws (t ++ w ++ r2) = t :: split_ws r2.
Proof.
  intros [Hne Ht] Hw Hws Hr2 Hhead.
  apply Token_notWhiteSpace in Ht.
  assert (Hsep : headFails notWhiteSpace (w ++ r2)).
  { destruct w as [|c w']; [congruence|]. cbn. apply notWhiteSpace_false.
    inversion Hws; assumption. }
  rewrite split_ws_unfold.
  rewrite (dropWhile_app _ _ _ Ht), (dropWhile_fixed _ _ Hsep).
  rewrite (takeWhile_app _ _ _ Ht Hsep).
  destruct (w ++ r2) as [|c x] eqn:E.
  - destruct w; [congruence | discriminate].
  - rewrite <- E. rewrite (dropWhile_app _ _ _ Hws).
    rewrite (dropWhile_fixed _ _ Hhead).
    destruct r2; [congruence | reflexivity].
Qed.

Lemma split_ws_token t : Token t -> split_ws t = [t].
Proof.
  intros [Hne Ht]. apply Token_notWhiteSpace in Ht.
  assert (E1 : dropWhile notWhiteSpace t = [])
    by (apply dropWhile_all; exact Ht).
  assert (E2 : takeWhile notWhiteSpace t = t).
  { rewrite <- (app_nil_r t) at 1. apply (takeWhile_app _ _ [] Ht I). }
  rewrite split_ws_unfold, E1, E2. reflexivity.
Qed.

(** ** The intrinsic size *)

Lemma Token_app_nonempty t r : Token t -> t ++ r <> [].
Proof. intros [Hne _]. destruct t; [congruence | discriminate]. Qed.

Lemma Token_app_headFails t r : Token t -> headFails isWhiteSpace (t ++ r).
Proof.
  intros [Hne Ht]. apply headFails_app; [exact Hne|].
  now apply headFails_nonempty_all.
Qed.

(** Four tokens in a row are what [trim] and [split] hand to the code. *)
Lemma FourTokens_split vb t1 t2 t3 t4 :
  FourTokens vb t1 t2 t3 t4 ->
  split_ws (trim vb) = [t1; t2; t3; t4] /\ vb <> [].
Proof.
  intros (w0 & w1 & w2 & w3 & w4 & Hvb & H0 & H4 & [N1 R1] & [N2 R2]
          & [N3 R3] & T1 & T2 & T3 & T4).
  set (body := t1 ++ w1 ++ t2 ++ w2 ++ t3 ++ w3 ++ t4).
  assert (Evb : vb = w0 ++ body ++ w4).
  { rewrite Hvb. unfold body. repeat rewrite <- app_assoc. reflexivity. }
  split.
  - rewrite Evb, trim_sandwich; try assumption.
    + unfold body.
      rewrite (split_ws_token_sep t1 w1 _ T1 N1 R1
                 (Token_app_nonempty _ _ T2) (Token_app_headFails _ _ T2)).
      rewrite (split_ws_token_sep t2 w2 _ T2 N2 R2
                 (Token_app_nonempty _ _ T3) (Token_app_headFails _ _ T3)).
      rewrite <- (app_nil_r t4) at 1.
      rewrite (split_ws_token_sep t3 w3 _ T3 N3 R3
                 (Token_app_nonempty _ _ T4) (Token_app_headFails _ _ T4)).
      rewrite app_nil_r, (split_ws_token _ T4). reflexivity.
    + apply Token_app_headFails. exact T1.
    + replace body with ((t1 ++ w1 ++ t2 ++ w2 ++ t3 ++ w3) ++ t4)
        by (unfold body; repeat rewrite <- app_assoc; reflexivity).
      rewrite rev_app_distr. destruct T4 as [N4 A4].
      apply headFails_app.
      * intros E. apply N4. rewrite <- (rev_involutive t4), E. reflexivity.
      * apply headFails_nonempty_all.
        -- intros E. apply N4. rewrite <- (rev_involutive t4), E. reflexivity.
        -- apply Forall_rev. exact A4.
  - rewrite Hvb. intros E. apply app_eq_nil in E as [_ E].
    apply (Token_app_nonempty _ _ T1 E).
Qed.

Lemma WellFormedViewBox_size vb w h :
  WellFormedViewBox vb w h -> viewBoxSize vb = Some (mkSize w h) /\ vb <> [].
Proof.
  intros (t1 & t2 & t3 & t4 & HT & Hn1 & Hn2 & Hn3 & Hn4 & -> & -> & Hw & Hh).
  destruct (FourTokens_split _ _ _ _ _ HT) as [Hs Hne].
  split; [|exact Hne].
  unfold viewBoxSize. rewrite Hs.
  cbn [map List.length Nat.eqb forallb andb].
  rewrite Hn1, Hn2, Hn3, Hn4. cbn [negb andb]. rewrite Hw, Hh. reflexivity.
Qed.

(** C3.  When the root of the parsed markup carries a [viewBox] of exactly
    four white-space-separated numeric tokens, none [NaN], the last two
    strictly positive, [getSvgIntrinsicSize] returns the numbers of the
    third and fourth token as width and height, whatever [width] and
    [height] attributes the root has. *)
Theorem viewBox_gives_intrinsic_size :
  forall (parse : jsstring -> completion Document)
         (markup : jsstring) (doc : Document) (el : Element)
         (vb : jsstring) (w h : number),
    parse markup = Normal doc ->
    documentElement doc = Some el ->
    getAttribute el (js "viewBox") = Some vb ->
    WellFormedViewBox vb w h ->
    getSvgIntrinsicSize parse markup = Normal (Some (mkSize w h)).
Proof.
  intros parse markup doc el vb w h Hp Hd Ha Hwf.
  destruct (WellFormedViewBox_size _ _ _ Hwf) as [Hs Hne].
  unfold getSvgIntrinsicSize, getSvgIntrinsicSize_body.
  rewrite Hp. cbn [bind]. rewrite Hd. cbn [bind]. rewrite Ha.
  destruct vb as [|c r]; [congruence|].
  rewrite Hs. reflexivity.
Qed.

(** The first catalogue item, with a width and a height that the bounding
    box overrides. *)
Lemma viewBox_gives_intrinsic_size_witness :
  getSvgIntrinsicSize
    (fun _ =>
       Normal (mkDocument
         (Some (mkElement (js "svg")
                  [(js "width", js "300px"); (js "height", js "150px");
                   (js "viewBox", js " 0 0  160 160 ")]))))
    (js "<svg/>")
  = Normal (Some (mkSize (ofZ 160) (ofZ 160))).
Proof.
  apply (viewBox_gives_intrinsic_size
           (fun _ =>
              Normal (mkDocument
                (Some (mkElement (js "svg")
                         [(js "width", js "300px"); (js "height", js "150px");
                          (js "viewBox", js " 0 0  160 160 ")]))))
           (js "<svg/>")
           (mkDocument
              (Some (mkElement (js "svg")
                       [(js "width", js "300px"); (js "height", js "150px");
                        (js "viewBox", js " 0 0  160 160 ")])))
           (mkElement (js "svg")
              [(js "width", js "300px"); (js "height", js "150px");
               (js "viewBox", js " 0 0  160 160 ")])
           (js " 0 0  160 160 ") (ofZ 160) (ofZ 160)
           eq_refl eq_refl eq_refl).
  exists (js "0"), (js "0"), (js "160"), (js "160").
  split.
  - exists (js " "), (js " "), (js "  "), (js " "), (js " ").
    repeat split; try discriminate; repeat constructor; reflexivity.
  - repeat split; vm_compute; reflexivity.
Defined.

(** The pieces [split] returns, read back from the text. *)
Lemma split_ws_inv_cons s tok rest :
  headFails isWhiteSpace s ->
  split_ws s = tok :: rest ->
  rest <> [] ->
  exists w r2,
    s = tok ++ w ++ r2
    /\ Token tok /\ w <> [] /\ WhiteSpaceRun w
    /\ headFails isWhiteSpace r2
    /\ rest = match r2 with [] => [[]] | _ => split_ws r2 end.
Proof.
  intros Hhead Hs Hrest.
  rewrite split_ws_unfold in Hs.
  pose proof (takeWhile_dropWhile notWhiteSpace s) as Es.
  pose proof (takeWhile_all notWhiteSpace s) as Ht.
  pose proof (dropWhile_headFails notWhiteSpace s) as Hr.
  destruct (dropWhile notWhiteSpace s) as [|c0 r'] eqn:Er.
  - injection Hs as _ <-. congruence.
  - injection Hs as Htok Hrst.
    change (if isWhiteSpace c0 then dropWhile isWhiteSpace r' else c0 :: r')
      with (dropWhile isWhiteSpace (c0 :: r')) in Hrst.
    pose proof (takeWhile_dropWhile isWhiteSpace (c0 :: r')) as Ew.
    pose proof (takeWhile_all isWhiteSpace (c0 :: r')) as Hw.
    pose proof (dropWhile_headFails isWhiteSpace (c0 :: r')) as Hr2.
    exists (takeWhile isWhiteSpace (c0 :: r')),
           (dropWhile isWhiteSpace (c0 :: r')).
    subst tok. repeat split.
    + rewrite <- Ew. exact Es.
    + (* the first piece is not empty: the text starts with a unit that is
         not white space *)
      destruct s as [|c1 s']; [discriminate Er|].
      cbn in Hhead. cbn [takeWhile].
      assert (Hn : notWhiteSpace c1 = true) by now apply notWhiteSpace_true.
      rewrite Hn. discriminate.
    + apply Token_notWhiteSpace. exact Ht.
    + cbn in Hr. apply notWhiteSpace_false in Hr.
      cbn [takeWhile]. rewrite Hr. discriminate.
    + exact Hw.
    + exact Hr2.
    + rewrite <- Hrst.
      destruct (dropWhile isWhiteSpace (c0 :: r')); reflexivity.
Qed.

Lemma split_ws_nonempty s : split_ws s <> [].
Proof.
  rewrite split_ws_unfold.
  destruct (dropWhile notWhiteSpace s); discriminate.
Qed.

Lemma split_ws_inv_single s tok :
  headFails isWhiteSpace s -> s <> [] ->
  split_ws s = [tok] ->
  s = tok /\ Token tok.
Proof.
  intros Hhead Hne Hs.
  rewrite split_ws_unfold in Hs.
  pose proof (takeWhile_dropWhile notWhiteSpace s) as Es.
  pose proof (takeWhile_all notWhiteSpace s) as Ht.
  destruct (dropWhile notWhiteSpace s) as [|c0 r'] eqn:Er.
  - injection Hs as Htok. rewrite app_nil_r in Es. subst tok.
    split; [exact Es|]. split.
    + rewrite <- Es. exact Hne.
    + apply Token_notWhiteSpace. exact Ht.
  - injection Hs as _ Hrst.
    change (if isWhiteSpace c0 then dropWhile isWhiteSpace r' else c0 :: r')
      with (dropWhile isWhiteSpace (c0 :: r')) in Hrst.
    destruct (dropWhile isWhiteSpace (c0 :: r')) as [|c2 r2];
      [discriminate|].
    exfalso. exact (split_ws_nonempty _ Hrst).
Qed.

(** A text that ends in white space does not come out of [trim]. *)
Lemma ends_in_whitespace x w :
  w <> [] -> WhiteSpaceRun w -> headFails isWhiteSpace (rev (x ++ w)) -> False.
Proof.
  intros Hne Hw H. rewrite rev_app_distr in H.
  apply Forall_rev in Hw.
  destruct (rev w) as [|c r] eqn:E.
  - apply Hne. rewrite <- (rev_involutive w), E. reflexivity.
  - cbn in H. inversion Hw; congruence.
Qed.

Lemma split_four_tokens vb a b c d :
  split_ws (trim vb) = [a; b; c; d] -> FourTokens vb a b c d.
Proof.
  intros Hs.
  destruct (trim_decompose vb) as (w0 & w4 & Evb & H0 & H4 & Hhead & Hlast).
  destruct (split_ws_inv_cons _ _ _ Hhead Hs ltac:(discriminate))
    as (w1 & r2 & E1 & Ta & N1 & R1 & Hh2 & Hrest2).
  destruct r2 as [|x2 r2']; [discriminate Hrest2|].
  symmetry in Hrest2.
  destruct (split_ws_inv_cons _ _ _ Hh2 Hrest2 ltac:(discriminate))
    as (w2 & r3 & E2 & Tb & N2 & R2 & Hh3 & Hrest3).
  destruct r3 as [|x3 r3']; [discriminate Hrest3|].
  symmetry in Hrest3.
  destruct (split_ws_inv_cons _ _ _ Hh3 Hrest3 ltac:(discriminate))
    as (w3 & r4 & E3 & Tc & N3 & R3 & Hh4 & Hrest4).
  destruct r4 as [|x4 r4'].
  - (* the text would end with the separator [w3] *)
    exfalso. apply (ends_in_whitespace (a ++ w1 ++ b ++ w2 ++ c) w3 N3 R3).
    replace ((a ++ w1 ++ b ++ w2 ++ c) ++ w3) with (trim vb); [exact Hlast|].
    rewrite E1, E2, E3. rewrite app_nil_r.
    repeat rewrite <- app_assoc. reflexivity.
  - symmetry in Hrest4.
    destruct (split_ws_inv_single _ _ Hh4 ltac:(discriminate) Hrest4)
      as [E4 Td].
    exists w0, w1, w2, w3, w4. repeat split; try assumption;
      try (apply Ta); try (apply Tb); try (apply Tc); try (apply Td).
    rewrite Evb at 1. rewrite E1, E2, E3, E4.
    repeat rewrite <- app_assoc. reflexivity.
Qed.

(** What the code accepts as a bounding box is one by the words of the
    specification. *)
Lemma viewBoxSize_WellFormed vb sz :
  viewBoxSize vb = Some sz -> WellFormedViewBox vb (width sz) (height sz).
Proof.
  unfold viewBoxSize. intros H.
  destruct (split_ws (trim vb)) as [|a [|b [|c [|d [|e l]]]]] eqn:Hs;
    cbn in H; try discriminate.
  destruct (isNaN (Number a)) eqn:Na; cbn in H; [discriminate|].
  destruct (isNaN (Number b)) eqn:Nb; cbn in H; [discriminate|].
  destruct (isNaN (Number c)) eqn:Nc; cbn in H; [discriminate|].
  destruct (isNaN (Number d)) eqn:Nd; cbn in H; [discriminate|].
  destruct (gt (Number c) zero) eqn:Gc; cbn in H; [|discriminate].
  destruct (gt (Number d) zero) eqn:Gd; cbn in H; [|discriminate].
  injection H as <-. cbn [width height].
  pose proof (split_four_tokens _ _ _ _ _ Hs) as HT.
  exists a, b, c, d. split; [exact HT|].
  repeat split; assumption.
Qed.

(** [try]/[catch] around the whole body: nothing leaves the function as an
    exception. *)
Lemma getSvgIntrinsicSize_never_throws parse markup :
  exists r, getSvgIntrinsicSize parse markup = Normal r.
Proof.
  unfold getSvgIntrinsicSize, try_catch.
  destruct (getSvgIntrinsicSize_body parse markup); eexists; reflexivity.
Qed.

Lemma parseLen_positive attr :
  gt (parseLen attr) zero = true ->
  exists s, attr = Some s /\ gt (parseFloat (stripUnitSuffix s)) zero = true.
Proof.
  destruct attr as [[|c r]|]; cbn [parseLen]; intros H;
    try discriminate H.
  exists (c :: r). split; [reflexivity | exact H].
Qed.

Lemma no_viewBox_size el :
  ~ HasViewBox el ->
  match getAttribute el (js "viewBox") with
  | Some (c :: r) => viewBoxSize (c :: r)
  | _ => None
  end = None.
Proof.
  intros Hnv.
  destruct (getAttribute el (js "viewBox")) as [[|c r]|] eqn:Ha;
    try reflexivity.
  destruct (viewBoxSize (c :: r)) as [sz|] eqn:Hs; [|reflexivity].
  exfalso. apply Hnv. exists (c :: r), (width sz), (height sz).
  split; [exact Ha | now apply viewBoxSize_WellFormed].
Qed.

Lemma parseLen_Some s :
  gt (parseFloat (stripUnitSuffix s)) zero = true ->
  parseLen (Some s) = parseFloat (stripUnitSuffix s).
Proof.
  destruct s as [|c r]; [|reflexivity].
  intros H. vm_compute in H. discriminate H.
Qed.

(** The result once the parser has given a root. *)
Lemma getSvgIntrinsicSize_root parse markup doc el :
  parse markup = Normal doc ->
  documentElement doc = Some el ->
  getSvgIntrinsicSize parse markup
  = match
      match getAttribute el (js "viewBox") with
      | Some (c :: r) => viewBoxSize (c :: r)
      | _ => None
      end
    with
    | Some sz => Normal (Some sz)
    | None =>
        if gt (parseLen (getAttribute el (js "width"))) zero
           && gt (parseLen (getAttribute el (js "height"))) zero
        then Normal (Some (mkSize (parseLen (getAttribute el (js "width")))
                                  (parseLen (getAttribute el (js "height")))))
        else Normal None
    end.
Proof.
  intros Hp Hd. unfold getSvgIntrinsicSize, getSvgIntrinsicSize_body.
  rewrite Hp. cbn [bind]. rewrite Hd. cbn [bind].
  destruct (match getAttribute el (js "viewBox") with
            | Some (c :: r) => viewBoxSize (c :: r)
            | _ => None
            end); [reflexivity|].
  destruct (gt (parseLen (getAttribute el (js "width"))) zero
            && gt (parseLen (getAttribute el (js "height"))) zero);
    reflexivity.
Qed.

(** C7.  [getSvgIntrinsicSize] does not throw, and it returns [null]
    exactly when the parser gives no root to read (it throws, or the
    document it returns has no root element) or the root of the document
    it returns has neither a well-formed strictly positive bounding box
    nor [width] and [height] attributes that parse, unit suffix stripped,
    to strictly positive numbers.  The code does not look for a parser
    error: the root of the document the parser returns for a markup that
    is not well-formed is read like any other. *)
Theorem intrinsic_size_null_when_undetermined :
  forall (parse : jsstring -> completion Document) (markup : jsstring),
    (exists r, getSvgIntrinsicSize parse markup = Normal r)
    /\ (getSvgIntrinsicSize parse markup = Normal None
        <-> NoRoot parse markup \/ Dimensionless parse markup).
Proof.
  intros parse markup.
  split; [apply getSvgIntrinsicSize_never_throws|]. split.
  - destruct (parse markup) as [doc|e] eqn:Hp;
      [|intros _; left; left; exists e; exact Hp].
    destruct (documentElement doc) as [el|] eqn:Hd;
      [|intros _; left; right; exists doc; split; [exact Hp|exact Hd]].
    rewrite (getSvgIntrinsicSize_root parse markup doc el Hp Hd).
    intros H. right. exists doc, el.
    split; [exact Hp|]. split; [exact Hd|]. split.
    + intros (vb & w & h & Ha & Hwf).
      apply WellFormedViewBox_size in Hwf as [Hs Hne].
      rewrite Ha in H. destruct vb as [|c r]; [now apply Hne|].
      rewrite Hs in H. discriminate H.
    + intros (ws & hs & Hw & Hh & Gw & Gh).
      destruct (match getAttribute el (js "viewBox") with
                | Some (c :: r) => viewBoxSize (c :: r)
                | _ => None
                end); [discriminate H|].
      rewrite Hw, Hh, (parseLen_Some ws Gw), (parseLen_Some hs Gh),
        Gw, Gh in H.
      discriminate H.
  - intros [[[e He] | (doc & Hp & Hnone)] | (doc & el & Hp & Hd & Hnv & Hnwh)].
    + unfold getSvgIntrinsicSize, getSvgIntrinsicSize_body.
      rewrite He. reflexivity.
    + unfold getSvgIntrinsicSize, getSvgIntrinsicSize_body.
      rewrite Hp. cbn [bind]. rewrite Hnone. reflexivity.
    + rewrite (getSvgIntrinsicSize_root parse markup doc el Hp Hd).
      rewrite (no_viewBox_size el Hnv).
      destruct (gt (parseLen (getAttribute el (js "width"))) zero) eqn:Gw;
        [|reflexivity].
      destruct (gt (parseLen (getAttribute el (js "height"))) zero) eqn:Gh;
        [|reflexivity].
      exfalso. apply Hnwh.
      apply parseLen_positive in Gw as (ws & Ew & Pw).
      apply parseLen_positive in Gh as (hs & Eh & Ph).
      exists ws, hs. repeat split; assumption.
Qed.

(** C7 as the specification states it fails.  The markup is not
    well-formed: the end tag of [rect] is missing.  A parser that keeps
    the part of the tree it has built, as Chromium's does (the root [svg]
    with its attributes, the [parsererror] element put inside it), hands
    the code a root with a bounding box, and the size is 10 by 10. *)
Lemma malformed_markup_keeps_its_viewBox :
  getSvgIntrinsicSize
    (fun m =>
       if str_eqb m (js "<svg viewBox='0 0 10 10'><rect></svg>")
       then Normal (mkDocument
              (Some (mkElement (js "svg") [(js "viewBox", js "0 0 10 10")])))
       else Throw (js "unused"))
    (js "<svg viewBox='0 0 10 10'><rect></svg>")
  = Normal (Some (mkSize (ofZ 10) (ofZ 10))).
Proof. vm_compute. reflexivity. Qed.

(** Under a parser that returns the lone [parsererror] root for the same
    markup, the result is [null]. *)
Example malformed_markup_parsererror_root :
  getSvgIntrinsicSize
    (fun m =>
       if str_eqb m (js "<svg viewBox='0 0 10 10'><rect></svg>")
       then Normal (mkDocument (Some (mkElement (js "parsererror") [])))
       else Throw (js "unused"))
    (js "<svg viewBox='0 0 10 10'><rect></svg>")
  = Normal None.
Proof. vm_compute. reflexivity. Qed.

(** ** The inline image reference *)

Lemma hexDigit_not_percent n : hexDigit n <> percent.
Proof.
  unfold hexDigit, percent. destruct (N.ltb_spec n 10); lia.
Qed.

Lemma hexDigit_inj m n : hexDigit m = hexDigit n -> m = n.
Proof.
  unfold hexDigit.
  destruct (N.ltb_spec m 10), (N.ltb_spec n 10); lia.
Qed.

Lemma escapeOctet_inj b v : escapeOctet b = escapeOctet v -> b = v.
Proof.
  unfold escapeOctet. intros H. injection H as H1 H2.
  apply hexDigit_inj in H1. apply hexDigit_inj in H2.
  rewrite (N.div_mod b 16), (N.div_mod v 16) by lia. congruence.
Qed.

Section ReplaceChain.

Variable v : N.
Variable rep : jsstring.
Hypothesis rep_literal : ~ In percent rep.

Abbreviation pat := (escapeOctet v).

(** A literal text is passed over as it is. *)
Lemma replaceAll_go_literal t rest :
  ~ In percent t ->
  replaceAll_go pat rep (t ++ rest) 0 = t ++ replaceAll_go pat rep rest 0.
Proof.
  induction t as [|c t IH]; intros Hin; [reflexivity|].
  cbn [app replaceAll_go].
  assert (Hc : N.eqb percent c = false).
  { apply N.eqb_neq. intros E. apply Hin. left. symmetry. exact E. }
  unfold escapeOctet at 1. cbn [isPrefix]. rewrite Hc. cbn [andb].
  f_equal. apply IH. intros H. apply Hin. right. exact H.
Qed.

(** An escape is replaced when it is the one looked for, and passed over
    otherwise. *)
Lemma replaceAll_go_escape b rest :
  replaceAll_go pat rep (escapeOctet b ++ rest) 0
  = (if N.eqb b v then rep else escapeOctet b)
    ++ replaceAll_go pat rep rest 0.
Proof.
  destruct (N.eqb_spec b v) as [->|Hne].
  - unfold escapeOctet. cbn [app replaceAll_go isPrefix List.length Nat.pred].
    rewrite !N.eqb_refl. cbn [andb]. reflexivity.
  - assert (Hmis : isPrefix pat (escapeOctet b ++ rest) = false).
    { unfold escapeOctet. cbn [app isPrefix]. rewrite N.eqb_refl. cbn [andb].
      destruct (N.eqb_spec (hexDigit (v / 16)) (hexDigit (b / 16))) as [E1|];
        [|reflexivity].
      destruct (N.eqb_spec (hexDigit (v mod 16)) (hexDigit (b mod 16)))
        as [E2|]; [|reflexivity].
      exfalso. apply Hne. apply escapeOctet_inj. unfold escapeOctet.
      congruence. }
    change (escapeOctet b ++ rest)
      with (percent :: [hexDigit (b / 16); hexDigit (b mod 16)] ++ rest)
      in *.
    cbn [replaceAll_go]. rewrite Hmis.
    change (escapeOctet b)
      with (percent :: [hexDigit (b / 16); hexDigit (b mod 16)]).
    cbn [app]. f_equal.
    apply (replaceAll_go_literal [hexDigit (b / 16); hexDigit (b mod 16)]).
    intros [H|[H|[]]]; exact (hexDigit_not_percent _ H).
Qed.

(** One [replace] of the chain, chunk by chunk. *)
Lemma replaceAll_chunks lit bs :
  (forall b t, lit b = Some t -> ~ In percent t) ->
  replaceAll pat rep (flat_map (chunk lit) bs)
  = flat_map (chunk (replaceChunk v rep lit)) bs.
Proof.
  intros Hlit. unfold replaceAll.
  induction bs as [|b bs IH]; [reflexivity|].
  cbn [flat_map]. unfold chunk at 1 3, replaceChunk at 1.
  destruct (lit b) as [t|] eqn:E.
  - rewrite replaceAll_go_literal by (eapply Hlit; exact E).
    f_equal. exact IH.
  - rewrite replaceAll_go_escape. destruct (N.eqb b v); f_equal; exact IH.
Qed.

Lemma replaceChunk_literal lit :
  (forall b t, lit b = Some t -> ~ In percent t) ->
  forall b t, replaceChunk v rep lit b = Some t -> ~ In percent t.
Proof.
  intros Hlit b t. unfold replaceChunk.
  destruct (lit b) as [t'|] eqn:E.
  - intros [= <-]. eapply Hlit. exact E.
  - destruct (N.eqb b v); [|discriminate]. intros [= <-]. exact rep_literal.
Qed.

End ReplaceChain.

Lemma unreserved_not_percent b t :
  encodedChunk b = Some t -> ~ In percent t.
Proof.
  unfold encodedChunk. destruct (isUnreserved b) eqn:U; [|discriminate].
  intros [= <-] [H|[]]. subst b. discriminate U.
Qed.

Lemma encodeOctet_chunk b : encodeOctet b = chunk encodedChunk b.
Proof.
  unfold encodeOctet, chunk, encodedChunk.
  destruct (isUnreserved b); reflexivity.
Qed.

(** The chunks after the six calls. *)
Lemma tidy_chunk b :
  chunk
    (replaceChunk 34 [apostrophe]
      (replaceChunk 47 (js "/")
        (replaceChunk 58 (js ":")
          (replaceChunk 61 (js "=")
            (replaceChunk 32 (js " ")
              (replaceChunk 10 [] encodedChunk)))))) b
  = tidyOctet b.
Proof.
  unfold chunk, replaceChunk, tidyOctet, encodeOctet, encodedChunk.
  cbn [existsb].
  destruct (isUnreserved b) eqn:U.
  - repeat match goal with
           | |- context [N.eqb b ?k] =>
               destruct (N.eqb_spec b k); [subst b; discriminate U|]
           end.
    reflexivity.
  - repeat match goal with
           | |- context [N.eqb b ?k] =>
               destruct (N.eqb_spec b k); [subst b; reflexivity|]
           end.
    reflexivity.
Qed.

(** The chain of [replace] calls, octet by octet. *)
Lemma tidy_octets bs :
  tidy (flat_map encodeOctet bs) = flat_map tidyOctet bs.
Proof.
  rewrite (flat_map_ext _ _ encodeOctet_chunk).
  unfold tidy.
  change (js "%0A") with (escapeOctet 10).
  change (js "%20") with (escapeOctet 32).
  change (js "%3D") with (escapeOctet 61).
  change (js "%3A") with (escapeOctet 58).
  change (js "%2F") with (escapeOctet 47).
  change (js "%22") with (escapeOctet 34).
  assert (L0 := unreserved_not_percent).
  assert (N0 : ~ In percent []) by (intros []).
  assert (N1 : ~ In percent (js " ")) by (intros [H|[]]; discriminate H).
  assert (N2 : ~ In percent (js "=")) by (intros [H|[]]; discriminate H).
  assert (N3 : ~ In percent (js ":")) by (intros [H|[]]; discriminate H).
  assert (N4 : ~ In percent (js "/")) by (intros [H|[]]; discriminate H).
  assert (N5 : ~ In percent [apostrophe]) by (intros [H|[]]; discriminate H).
  pose proof (replaceChunk_literal 10 [] N0 _ L0) as L1.
  pose proof (replaceChunk_literal 32 _ N1 _ L1) as L2.
  pose proof (replaceChunk_literal 61 _ N2 _ L2) as L3.
  pose proof (replaceChunk_literal 58 _ N3 _ L3) as L4.
  pose proof (replaceChunk_literal 47 _ N4 _ L4) as L5.
  rewrite (replaceAll_chunks 10 [] _ bs L0).
  rewrite (replaceAll_chunks 32 _ _ bs L1).
  rewrite (replaceAll_chunks 61 _ _ bs L2).
  rewrite (replaceAll_chunks 58 _ _ bs L3).
  rewrite (replaceAll_chunks 47 _ _ bs L4).
  rewrite (replaceAll_chunks 34 _ _ bs L5).
  apply flat_map_ext. exact tidy_chunk.
Qed.

(** C5, as the source has it.  [svgToDataUrl] returns the fixed prefix
    [data:image/svg+xml;charset=utf-8,] followed by the percent-encoded
    markup (after the namespace step) in which every encoded newline is
    removed, space, [=], [:] and [/] are literal again, and every double
    quote has become an apostrophe; a markup with an unpaired surrogate
    makes it throw the URIError of [encodeURIComponent]. *)
Theorem svgToDataUrl_octets :
  forall markup : jsstring,
    svgToDataUrl markup
    = match utf8 (ensureXmlns markup) with
      | Some bs => Normal (dataUrlPrefix ++ flat_map tidyOctet bs)
      | None => Throw (js "URIError")
      end.
Proof.
  intros markup. unfold svgToDataUrl, encodeURIComponent.
  destruct (utf8 (ensureXmlns markup)) as [bs|]; cbn [bind]; [|reflexivity].
  now rewrite tidy_octets.
Qed.

(** C5 as the specification states it fails: a double quote does not come
    back as a double quote. *)
Lemma svgToDataUrl_quote_becomes_apostrophe :
  svgToDataUrl (js "<svg xmlns=" ++ [quote] ++ js "u" ++ [quote] ++ js "/>")
  = Normal (dataUrlPrefix ++ js "%3Csvg xmlns='u'/%3E")
  /\ spec_percentEncodeTidy
       (ensureXmlns
          (js "<svg xmlns=" ++ [quote] ++ js "u" ++ [quote] ++ js "/>"))
     = Normal (dataUrlPrefix
               ++ js "%3Csvg xmlns=" ++ [quote] ++ js "u" ++ [quote]
               ++ js "/%3E")
  /\ svgToDataUrl
       (js "<svg xmlns=" ++ [quote] ++ js "u" ++ [quote] ++ js "/>")
     <> spec_percentEncodeTidy
          (ensureXmlns
             (js "<svg xmlns=" ++ [quote] ++ js "u" ++ [quote] ++ js "/>")).
Proof.
  split; [vm_compute; reflexivity|].
  split; [vm_compute; reflexivity|].
  vm_compute. discriminate.
Qed.

Lemma replaceFirstSvgTag_eq s :
  replaceFirstSvgTag s
  = if matchesSvgTag s then svgWithXmlns ++ skipn 4 s
    else match s with
         | [] => []
         | c :: r => c :: replaceFirstSvgTag r
         end.
Proof. destruct s; reflexivity. Qed.

Lemma matchesSvgTag_here post :
  headFails isWordChar post -> matchesSvgTag (js "<svg" ++ post) = true.
Proof.
  intros H. unfold matchesSvgTag. cbn [js list_ascii_of_string map app].
  cbn [isPrefix skipn]. cbn. destruct post as [|c r]; [reflexivity|].
  cbn in H. now rewrite H.
Qed.

(** The first match is the one replaced. *)
Lemma replaceFirstSvgTag_first markup pre post :
  FirstSvgTag markup pre post ->
  replaceFirstSvgTag markup = pre ++ svgWithXmlns ++ post.
Proof.
  intros (-> & Hpost & Hpre).
  induction pre as [|c pre IH].
  - cbn [app]. rewrite replaceFirstSvgTag_eq.
    rewrite (matchesSvgTag_here post Hpost). reflexivity.
  - rewrite replaceFirstSvgTag_eq.
    rewrite (Hpre [] (c :: pre) eq_refl ltac:(discriminate)).
    cbn [app]. f_equal. apply IH.
    intros p1 p2 E Hne. apply (Hpre (c :: p1) p2); [|exact Hne].
    cbn [app]. now rewrite E.
Qed.

Lemma replaceFirstSvgTag_none markup :
  NoSvgTag markup -> replaceFirstSvgTag markup = markup.
Proof.
  induction markup as [|c r IH]; intros Hno.
  - rewrite replaceFirstSvgTag_eq. now rewrite (Hno [] [] eq_refl).
  - rewrite replaceFirstSvgTag_eq.
    rewrite (Hno [] (c :: r) eq_refl). f_equal. apply IH.
    intros p1 p2 E. apply (Hno (c :: p1) p2). cbn [app]. now rewrite E.
Qed.

Lemma svgToDataUrl_encodeMarkup markup :
  svgToDataUrl markup = encodeMarkup (ensureXmlns markup).
Proof. reflexivity. Qed.

(** C6, as the source has it.  The namespace step looks at the text, not
    at the root element: a markup that contains [xmlns=] anywhere is
    encoded as it is; one that does not gets
    [ xmlns="http://www.w3.org/2000/svg"] after its first [<svg] that ends
    at a word boundary, and is encoded as it is when it has none. *)
Theorem svgToDataUrl_namespace_step :
  forall markup : jsstring,
    (includes markup (js "xmlns=") = true ->
     svgToDataUrl markup = encodeMarkup markup)
    /\ (includes markup (js "xmlns=") = false ->
        forall pre post,
          FirstSvgTag markup pre post ->
          svgToDataUrl markup = encodeMarkup (pre ++ svgWithXmlns ++ post))
    /\ (includes markup (js "xmlns=") = false ->
        NoSvgTag markup ->
        svgToDataUrl markup = encodeMarkup markup).
Proof.
  intros markup. rewrite svgToDataUrl_encodeMarkup. unfold ensureXmlns.
  repeat split.
  - intros ->. reflexivity.
  - intros -> pre post H. cbn [negb].
    now rewrite (replaceFirstSvgTag_first _ _ _ H).
  - intros -> H. cbn [negb]. now rewrite (replaceFirstSvgTag_none _ H).
Qed.

(** A root without a declaration and no [xmlns=] anywhere: the
    declaration is put in. *)
Lemma svgToDataUrl_namespace_step_witness :
  svgToDataUrl (js "<svg viewBox='0 0 1 1'/>")
  = encodeMarkup (svgWithXmlns ++ js " viewBox='0 0 1 1'/>").
Proof.
  apply (proj1 (proj2 (svgToDataUrl_namespace_step
                         (js "<svg viewBox='0 0 1 1'/>")))
           eq_refl [] (js " viewBox='0 0 1 1'/>")).
  split; [reflexivity|]. split; [reflexivity|].
  intros p1 p2 E Hne. exfalso. apply Hne.
  destruct p1; [cbn in E; now subst | discriminate E].
Defined.

(** C6 as the specification states it fails: the root element has no
    namespace declaration, a child declares one of its own, and the
    result carries no declaration of the SVG namespace. *)
Lemma svgToDataUrl_skips_root_without_namespace :
  spec_rootDeclaresNamespace (js "<svg><g xmlns='u'/></svg>") = false
  /\ svgToDataUrl (js "<svg><g xmlns='u'/></svg>")
     = Normal (dataUrlPrefix ++ js "%3Csvg%3E%3Cg xmlns='u'/%3E%3C/svg%3E")
  /\ svgToDataUrl (js "<svg><g xmlns='u'/></svg>")
     <> spec_buildInlineImageRef (js "<svg><g xmlns='u'/></svg>").
Proof.
  split; [vm_compute; reflexivity|].
  split; [vm_compute; reflexivity|].
  vm_compute. discriminate.
Qed.

(* ===================================================================== *)
(** * Further properties of the code *)
(* ===================================================================== *)

(** ** The intrinsic size: the width and height attributes *)

(** X1.  When the root has no bounding box that the code accepts, and
    [width] and [height] attributes whose values, unit suffix stripped,
    parse to strictly positive numbers, [getSvgIntrinsicSize] returns
    those two numbers. *)
Theorem width_height_fallback :
  forall (parse : jsstring -> completion Document)
         (markup : jsstring) (doc : Document) (el : Element)
         (ws hs : jsstring),
    parse markup = Normal doc ->
    documentElement doc = Some el ->
    ~ HasViewBox el ->
    getAttribute el (js "width") = Some ws ->
    getAttribute el (js "height") = Some hs ->
    gt (parseFloat (stripUnitSuffix ws)) zero = true ->
    gt (parseFloat (stripUnitSuffix hs)) zero = true ->
    getSvgIntrinsicSize parse markup
    = Normal (Some (mkSize (parseFloat (stripUnitSuffix ws))
                           (parseFloat (stripUnitSuffix hs)))).
Proof.
  intros parse markup doc el ws hs Hp Hd Hnv Hw Hh Gw Gh.
  unfold getSvgIntrinsicSize, getSvgIntrinsicSize_body.
  rewrite Hp. cbn [bind]. rewrite Hd. cbn [bind].
  rewrite (no_viewBox_size el Hnv), Hw, Hh.
  rewrite (parseLen_Some ws Gw), (parseLen_Some hs Gh), Gw, Gh.
  reflexivity.
Qed.

(** A bounding box of zero width is passed over for [100px] by [50%]. *)
Lemma width_height_fallback_witness :
  getSvgIntrinsicSize
    (fun _ =>
       Normal (mkDocument
         (Some (mkElement (js "svg")
                  [(js "viewBox", js "0 0 0 10"); (js "width", js "100px");
                   (js "height", js "50%")]))))
    (js "<svg/>")
  = Normal (Some (mkSize (ofZ 100) (ofZ 50))).
Proof.
  apply (width_height_fallback
           (fun _ =>
              Normal (mkDocument
                (Some (mkElement (js "svg")
                         [(js "viewBox", js "0 0 0 10");
                          (js "width", js "100px");
                          (js "height", js "50%")]))))
           (js "<svg/>")
           (mkDocument
              (Some (mkElement (js "svg")
                       [(js "viewBox", js "0 0 0 10");
                        (js "width", js "100px");
                        (js "height", js "50%")])))
           (mkElement (js "svg")
              [(js "viewBox", js "0 0 0 10"); (js "width", js "100px");
               (js "height", js "50%")])
           (js "100px") (js "50%") eq_refl eq_refl).
  - intros (vb & w & h & Ha & Hwf).
    injection Ha as <-.
    apply WellFormedViewBox_size in Hwf as [Hs _].
    vm_compute in Hs. discriminate Hs.
  - reflexivity.
  - reflexivity.
  - vm_compute. reflexivity.
  - vm_compute. reflexivity.
Defined.

(** X2.  Whatever size [getSvgIntrinsicSize] returns has a strictly
    positive width and a strictly positive height. *)
Theorem intrinsic_size_positive :
  forall (parse : jsstring -> completion Document) (markup : jsstring)
         (sz : Size),
    getSvgIntrinsicSize parse markup = Normal (Some sz) ->
    gt (width sz) zero = true /\ gt (height sz) zero = true.
Proof.
  intros parse markup sz.
  unfold getSvgIntrinsicSize, getSvgIntrinsicSize_body, try_catch, bind.
  destruct (parse markup) as [doc|e]; [|discriminate].
  destruct (documentElement doc) as [el|]; [|discriminate].
  destruct (match getAttribute el (js "viewBox") with
            | Some (c :: r) => viewBoxSize (c :: r)
            | _ => None
            end) as [sz'|] eqn:Hv.
  - intros [= <-].
    destruct (getAttribute el (js "viewBox")) as [[|c r]|];
      try discriminate Hv.
    apply viewBoxSize_WellFormed in Hv.
    destruct Hv as (t1 & t2 & t3 & t4 & _ & _ & _ & _ & _ & _ & _ & Hw & Hh).
    split; assumption.
  - destruct (gt (parseLen (getAttribute el (js "width"))) zero) eqn:Gw;
      [|discriminate].
    destruct (gt (parseLen (getAttribute el (js "height"))) zero) eqn:Gh;
      [|discriminate].
    cbn [andb]. intros [= <-]. cbn [width height]. split; assumption.
Qed.

Lemma intrinsic_size_positive_witness :
  gt (ofZ 240) zero = true /\ gt (ofZ 160) zero = true.
Proof.
  apply (intrinsic_size_positive
           (fun _ =>
              Normal (mkDocument
                (Some (mkElement (js "svg")
                         [(js "viewBox", js "0 0 240 160")]))))
           (js "<svg/>") (mkSize (ofZ 240) (ofZ 160))).
  vm_compute. reflexivity.
Defined.

Lemma stripUnitSuffix_app s u :
  Forall (fun c => isUnitChar c = true) u ->
  stripUnitSuffix (s ++ u) = stripUnitSuffix s.
Proof.
  intros Hu. unfold stripUnitSuffix. rewrite rev_app_distr.
  now rewrite (dropWhile_app _ _ _ (Forall_rev Hu)).
Qed.

(** X3.  A unit suffix of letters and percent signs does not change what
    [parseLen] reads: [parseLen(s + unit) = parseLen(s)]. *)
Theorem parseLen_ignores_unit :
  forall s u : jsstring,
    Forall (fun c => isUnitChar c = true) u ->
    parseLen (Some (s ++ u)) = parseLen (Some s).
Proof.
  intros s u Hu.
  assert (E : forall t, parseLen (Some t) = parseFloat (stripUnitSuffix t)).
  { intros [|c r]; reflexivity. }
  rewrite !E. now rewrite stripUnitSuffix_app.
Qed.

Lemma parseLen_ignores_unit_witness :
  parseLen (Some (js "12.5" ++ js "px")) = parseLen (Some (js "12.5")).
Proof.
  apply (parseLen_ignores_unit (js "12.5") (js "px")).
  repeat constructor.
Defined.

(** ** The inline image reference: the namespace step *)

Lemma isPrefix_split p s :
  isPrefix p s = true -> s = p ++ skipn (List.length p) s.
Proof.
  revert s. induction p as [|x p IH]; intros s H; [reflexivity|].
  destruct s as [|y s]; [discriminate H|].
  cbn [isPrefix] in H. apply andb_true_iff in H as [H1 H2].
  apply N.eqb_eq in H1. subst y. cbn [List.length skipn app].
  f_equal. now apply IH.
Qed.

Lemma isPrefix_app_r p s q : isPrefix p s = true -> isPrefix p (s ++ q) = true.
Proof.
  revert s. induction p as [|x p IH]; intros s H; [reflexivity|].
  destruct s as [|y s]; [discriminate H|].
  cbn [isPrefix app] in *. apply andb_true_iff in H as [H1 H2].
  rewrite H1. now apply IH.
Qed.

Lemma includes_eq s needle :
  includes s needle
  = isPrefix needle s
    || match s with [] => false | _ :: r => includes r needle end.
Proof. destruct s; reflexivity. Qed.

Lemma includes_app_l s q needle :
  includes s needle = true -> includes (s ++ q) needle = true.
Proof.
  induction s as [|c s IH]; intros H.
  - rewrite includes_eq in H. rewrite orb_false_r in H.
    rewrite includes_eq. rewrite (isPrefix_app_r _ _ q H). reflexivity.
  - rewrite includes_eq in H. cbn [app]. rewrite includes_eq.
    apply orb_true_iff in H as [H|H].
    + change (c :: s ++ q) with ((c :: s) ++ q).
      rewrite (isPrefix_app_r _ _ q H). reflexivity.
    + rewrite (IH H). apply orb_true_r.
Qed.

Lemma includes_app_r p s needle :
  includes s needle = true -> includes (p ++ s) needle = true.
Proof.
  intros H. induction p as [|c p IH]; [exact H|].
  cbn [app]. rewrite includes_eq, IH. apply orb_true_r.
Qed.

(** The first [replace] either finds no [<svg] at a word boundary and
    returns the text, or puts the declaration after the first one. *)
Lemma replaceFirstSvgTag_cases s :
  (NoSvgTag s /\ replaceFirstSvgTag s = s)
  \/ (exists pre post,
        s = pre ++ js "<svg" ++ post
        /\ replaceFirstSvgTag s = pre ++ svgWithXmlns ++ post).
Proof.
  induction s as [|c r IH].
  - left. split; [|reflexivity].
    intros p1 p2 E. symmetry in E. apply app_eq_nil in E as [_ ->].
    reflexivity.
  - rewrite replaceFirstSvgTag_eq.
    destruct (matchesSvgTag (c :: r)) eqn:M.
    + right. exists [], (skipn 4 (c :: r)). split; [|reflexivity].
      unfold matchesSvgTag in M. apply andb_true_iff in M as [M _].
      exact (isPrefix_split _ _ M).
    + destruct IH as [[Hno E] | (pre & post & E1 & E2)].
      * left. split; [|now rewrite E].
        intros p1 p2 Hs. destruct p1 as [|x p1].
        -- cbn [app] in Hs. now subst p2.
        -- injection Hs as _ Hs. exact (Hno p1 p2 Hs).
      * right. exists (c :: pre), post. split.
        -- cbn [app]. now rewrite E1.
        -- cbn [app]. now rewrite E2.
Qed.

Lemma svgWithXmlns_includes pre post :
  includes (pre ++ svgWithXmlns ++ post) (js "xmlns=") = true.
Proof.
  apply includes_app_r. apply includes_app_l. vm_compute. reflexivity.
Qed.

Lemma ensureXmlns_fixed s :
  includes s (js "xmlns=") = true -> ensureXmlns s = s.
Proof. intros H. unfold ensureXmlns. now rewrite H. Qed.

(** X4.  The namespace step is idempotent, so building the reference of
    a markup that has been through the step gives the reference of the
    markup itself. *)
Theorem ensureXmlns_idempotent :
  forall s : jsstring,
    ensureXmlns (ensureXmlns s) = ensureXmlns s
    /\ svgToDataUrl (ensureXmlns s) = svgToDataUrl s.
Proof.
  intros s.
  assert (E : ensureXmlns (ensureXmlns s) = ensureXmlns s).
  { destruct (includes s (js "xmlns=")) eqn:H.
    - rewrite (ensureXmlns_fixed s H). now apply ensureXmlns_fixed.
    - assert (Es : ensureXmlns s = replaceFirstSvgTag s)
        by (unfold ensureXmlns; rewrite H; reflexivity).
      rewrite Es.
      destruct (replaceFirstSvgTag_cases s)
        as [[_ Eid] | (pre & post & _ & Einj)].
      + rewrite Eid, Es. exact Eid.
      + rewrite Einj. apply ensureXmlns_fixed. apply svgWithXmlns_includes. }
  split; [exact E|].
  unfold svgToDataUrl. now rewrite E.
Qed.

(** X5.  Whenever the markup has [<svg] at a word boundary somewhere, the
    text that is encoded contains [xmlns=]. *)
Theorem ensureXmlns_declares :
  forall s p1 p2 : jsstring,
    s = p1 ++ p2 ->
    matchesSvgTag p2 = true ->
    includes (ensureXmlns s) (js "xmlns=") = true.
Proof.
  intros s p1 p2 Hs Hm. unfold ensureXmlns.
  destruct (includes s (js "xmlns=")) eqn:H; cbn [negb]; [exact H|].
  destruct (replaceFirstSvgTag_cases s)
    as [[Hno _] | (pre & post & _ & Einj)].
  - rewrite (Hno p1 p2 Hs) in Hm. discriminate Hm.
  - rewrite Einj. apply svgWithXmlns_includes.
Qed.

Lemma ensureXmlns_declares_witness :
  includes (ensureXmlns (js "<!-- icon --><svg viewBox='0 0 1 1'/>"))
           (js "xmlns=") = true.
Proof.
  apply (ensureXmlns_declares
           (js "<!-- icon --><svg viewBox='0 0 1 1'/>")
           (js "<!-- icon -->") (js "<svg viewBox='0 0 1 1'/>")).
  - reflexivity.
  - reflexivity.
Defined.

(** ** The inline image reference: what [encodeURIComponent] accepts and
    what the result is made of *)

(** Induction that follows [utf8]: one unit or a pair at a time. *)
Lemma pair_induction (P : list N -> Prop) :
  P [] ->
  (forall c, P [c]) ->
  (forall c d r, P r -> P (d :: r) -> P (c :: d :: r)) ->
  forall s : list N, P s.
Proof.
  intros H0 H1 H2 s.
  assert (H : P s /\ forall c, P (c :: s)); [|exact (proj1 H)].
  induction s as [|d r [IH1 IH2]].
  - split; [exact H0 | exact H1].
  - split; [apply IH2|]. intros c. apply H2; [exact IH1 | apply IH2].
Qed.

Lemma utf8_eq c r :
  utf8 (c :: r)
  = if (c <? 128)%N then option_map (cons c) (utf8 r)
    else if (c <? 2048)%N then
      option_map (fun t => (192 + c / 64)%N :: (128 + c mod 64)%N :: t)
                 (utf8 r)
    else if between 55296 56319 c then
      match r with
      | d :: r' =>
          if between 56320 57343 d then
            let cp := (65536 + (c - 55296) * 1024 + (d - 56320))%N in
            option_map
              (fun t => (240 + cp / 262144)%N
                        :: (128 + (cp / 4096) mod 64)%N
                        :: (128 + (cp / 64) mod 64)%N
                        :: (128 + cp mod 64)%N :: t)
              (utf8 r')
          else None
      | [] => None
      end
    else if between 56320 57343 c then None
    else
      option_map
        (fun t => (224 + c / 4096)%N
                  :: (128 + (c / 64) mod 64)%N
                  :: (128 + c mod 64)%N :: t)
        (utf8 r).
Proof. reflexivity. Qed.

(** The octets of two texts put together, when the second does not start
    with the second half of a pair. *)
Lemma utf8_app a b :
  headFails isTrailSurrogate b ->
  utf8 (a ++ b)
  = match utf8 a, utf8 b with
    | Some x, Some y => Some (x ++ y)
    | _, _ => None
    end.
Proof.
  intros Hb. induction a as [| c | c d r IHr IHdr] using pair_induction.
  - cbn [app utf8]. destruct (utf8 b); reflexivity.
  - cbn [app]. rewrite !utf8_eq. cbn [utf8].
    destruct (c <? 128)%N; [destruct (utf8 b); reflexivity|].
    destruct (c <? 2048)%N; [destruct (utf8 b); reflexivity|].
    destruct (between 55296 56319 c).
    + destruct b as [|d b']; [reflexivity|].
      cbn in Hb. unfold isTrailSurrogate in Hb. rewrite Hb. reflexivity.
    + destruct (between 56320 57343 c); [reflexivity|].
      destruct (utf8 b); reflexivity.
  - cbn [app] in *. rewrite (utf8_eq c), (utf8_eq c).
    destruct (c <? 128)%N;
      [rewrite IHdr; destruct (utf8 (d :: r)), (utf8 b); reflexivity|].
    destruct (c <? 2048)%N;
      [rewrite IHdr; destruct (utf8 (d :: r)), (utf8 b); reflexivity|].
    destruct (between 55296 56319 c).
    + cbn [app]. destruct (between 56320 57343 d); [|reflexivity].
      cbv zeta. rewrite IHr. destruct (utf8 r), (utf8 b); reflexivity.
    + destruct (between 56320 57343 c); [reflexivity|].
      rewrite IHdr. destruct (utf8 (d :: r)), (utf8 b); reflexivity.
Qed.

Lemma utf8_ascii_app a b :
  Forall (fun c => (c < 128)%N) a ->
  utf8 (a ++ b) = option_map (app a) (utf8 b).
Proof.
  induction 1 as [|c a Hc Ha IH];
    [cbn [app]; destruct (utf8 b); reflexivity|].
  cbn [app]. rewrite utf8_eq. apply N.ltb_lt in Hc. rewrite Hc, IH.
  destruct (utf8 b); reflexivity.
Qed.

Lemma utf8_ascii a :
  Forall (fun c => (c < 128)%N) a -> utf8 a = Some a.
Proof.
  intros H. rewrite <- (app_nil_r a) at 1.
  rewrite (utf8_ascii_app a [] H). cbn. now rewrite app_nil_r.
Qed.

(** The namespace step does not change whether the text can be encoded. *)
Lemma utf8_ensureXmlns s :
  utf8 (ensureXmlns s) = None <-> utf8 s = None.
Proof.
  unfold ensureXmlns.
  destruct (includes s (js "xmlns=")); cbn [negb]; [reflexivity|].
  destruct (replaceFirstSvgTag_cases s)
    as [[_ Eid] | (pre & post & Es & Einj)].
  - rewrite Eid. reflexivity.
  - rewrite Einj, Es.
    assert (A1 : Forall (fun c => (c < 128)%N) svgWithXmlns)
      by (apply Forall_forall; intros x Hx; apply N.ltb_lt;
          revert x Hx; apply forallb_forall; vm_compute; reflexivity).
    assert (A2 : Forall (fun c => (c < 128)%N) (js "<svg"))
      by (repeat constructor).
    rewrite (utf8_app pre (svgWithXmlns ++ post)) by reflexivity.
    rewrite (utf8_app pre (js "<svg" ++ post)) by reflexivity.
    rewrite utf8_ascii_app by exact A1.
    rewrite utf8_ascii_app by exact A2.
    destruct (utf8 pre), (utf8 post); cbn [option_map]; split; congruence.
Qed.

Lemma svgToDataUrl_by_octets s :
  svgToDataUrl s
  = match utf8 (ensureXmlns s) with
    | Some bs => Normal (dataUrlPrefix ++ flat_map tidyOctet bs)
    | None => Throw (js "URIError")
    end.
Proof.
  unfold svgToDataUrl, encodeURIComponent.
  destruct (utf8 (ensureXmlns s)) as [bs|]; cbn [bind]; [|reflexivity].
  now rewrite tidy_octets.
Qed.

(** X6.  [svgToDataUrl] throws, and then the URIError of
    [encodeURIComponent], exactly when the markup has an unpaired
    surrogate, whatever the namespace step does; a markup of ASCII
    characters always gives a reference. *)
Theorem svgToDataUrl_throws_iff_unpaired :
  forall s : jsstring,
    (svgToDataUrl s = Throw (js "URIError") <-> utf8 s = None)
    /\ ((exists u, svgToDataUrl s = Normal u) <-> utf8 s <> None)
    /\ (Forall (fun c => (c < 128)%N) s -> exists u, svgToDataUrl s = Normal u).
Proof.
  intros s. rewrite svgToDataUrl_by_octets.
  pose proof (utf8_ensureXmlns s) as Hiff.
  assert (P1 : match utf8 (ensureXmlns s) with
               | Some bs => Normal (dataUrlPrefix ++ flat_map tidyOctet bs)
               | None => Throw (js "URIError")
               end = Throw (js "URIError") <-> utf8 s = None).
  { destruct (utf8 (ensureXmlns s)) as [bs|]; split; intros H.
    - discriminate H.
    - apply Hiff in H. discriminate H.
    - now apply Hiff.
    - reflexivity. }
  assert (P2 : (exists u,
                  match utf8 (ensureXmlns s) with
                  | Some bs => Normal (dataUrlPrefix ++ flat_map tidyOctet bs)
                  | None => Throw (js "URIError")
                  end = Normal u) <-> utf8 s <> None).
  { destruct (utf8 (ensureXmlns s)) as [bs|]; split.
    - intros _ H. apply Hiff in H. discriminate H.
    - intros _. eexists. reflexivity.
    - intros [u H]. discriminate H.
    - intros H. exfalso. apply H. now apply Hiff. }
  split; [exact P1|]. split; [exact P2|].
  intros Hascii. apply P2. rewrite (utf8_ascii s Hascii). discriminate.
Qed.

Lemma svgToDataUrl_throws_iff_unpaired_witness :
  exists u, svgToDataUrl (js "<svg viewBox='0 0 1 1'/>") = Normal u.
Proof.
  apply (proj2 (proj2 (svgToDataUrl_throws_iff_unpaired
                         (js "<svg viewBox='0 0 1 1'/>")))).
  repeat constructor.
Defined.

Lemma div_lt_256 c : (c < 65536)%N -> (c / 4096 < 16)%N.
Proof. intros H. apply N.Div0.div_lt_upper_bound. lia. Qed.

Lemma option_map_Forall (P : N -> Prop) (f : list N -> list N) o bs :
  (forall t, Forall P t -> Forall P (f t)) ->
  (forall t, o = Some t -> Forall P t) ->
  option_map f o = Some bs -> Forall P bs.
Proof.
  intros Hf Ho. destruct o as [t|]; [|discriminate].
  cbn [option_map]. intros E.
  assert (E' : bs = f t) by congruence.
  rewrite E'. apply Hf. now apply Ho.
Qed.

Ltac octets_below :=
  intros t Ht; repeat (apply Forall_cons; [lia|]); exact Ht.

(** The octets of a text of 16-bit units are octets. *)
Lemma utf8_octets s :
  Forall (fun c => (c < 65536)%N) s ->
  forall bs, utf8 s = Some bs -> Forall (fun b => (b < 256)%N) bs.
Proof.
  assert (Step : forall c r,
    (c < 65536)%N ->
    between 55296 56319 c = false ->
    forall bs,
      (forall t, utf8 r = Some t -> Forall (fun b => (b < 256)%N) t) ->
      utf8 (c :: r) = Some bs -> Forall (fun b => (b < 256)%N) bs).
  { intros c r Hc Bc bs IH. rewrite utf8_eq, Bc.
    destruct (N.ltb_spec c 128).
    - apply option_map_Forall; [octets_below | exact IH].
    - destruct (N.ltb_spec c 2048).
      + assert ((c / 64 < 32)%N) by (apply N.Div0.div_lt_upper_bound; lia).
        pose proof (N.mod_lt c 64 ltac:(lia)).
        apply option_map_Forall; [octets_below | exact IH].
      + destruct (between 56320 57343 c); [discriminate|].
        pose proof (div_lt_256 c Hc).
        pose proof (N.mod_lt (c / 64) 64 ltac:(lia)).
        pose proof (N.mod_lt c 64 ltac:(lia)).
        apply option_map_Forall; [octets_below | exact IH]. }
  induction s as [| c | c d r IHr IHdr] using pair_induction;
    intros Hs bs.
  - intros [= <-]. constructor.
  - inversion Hs as [|? ? Hc _]; subst.
    destruct (between 55296 56319 c) eqn:Bc.
    + rewrite utf8_eq, Bc.
      destruct (c <? 128)%N eqn:E1;
        [unfold between in Bc; apply andb_true_iff in Bc as [Bc _];
         apply N.leb_le in Bc; apply N.ltb_lt in E1; lia|].
      destruct (c <? 2048)%N eqn:E2;
        [unfold between in Bc; apply andb_true_iff in Bc as [Bc _];
         apply N.leb_le in Bc; apply N.ltb_lt in E2; lia|].
      discriminate.
    + apply (Step c [] Hc Bc). intros t [= <-]. constructor.
  - inversion Hs as [|? ? Hc Hdr]; subst.
    inversion Hdr as [|? ? Hd Hr]; subst.
    destruct (between 55296 56319 c) eqn:Bc.
    + rewrite utf8_eq, Bc.
      pose proof Bc as Bc'.
      unfold between in Bc'. apply andb_true_iff in Bc' as [Bc1 Bc2].
      apply N.leb_le in Bc1, Bc2.
      destruct (N.ltb_spec c 128); [lia|].
      destruct (N.ltb_spec c 2048); [lia|].
      destruct (between 56320 57343 d) eqn:Bd; [|discriminate].
      unfold between in Bd. apply andb_true_iff in Bd as [Bd1 Bd2].
      apply N.leb_le in Bd1, Bd2.
      cbv zeta.
      set (cp := (65536 + (c - 55296) * 1024 + (d - 56320))%N).
      assert (Hcp : (cp < 1114112)%N) by (unfold cp; lia).
      assert ((cp / 262144 < 5)%N)
        by (apply N.Div0.div_lt_upper_bound; lia).
      pose proof (N.mod_lt (cp / 4096) 64 ltac:(lia)).
      pose proof (N.mod_lt (cp / 64) 64 ltac:(lia)).
      pose proof (N.mod_lt cp 64 ltac:(lia)).
      apply option_map_Forall; [octets_below|].
      intros t Ht. now apply IHr.
    + apply (Step c (d :: r) Hc Bc). intros t Ht. now apply IHdr.
Qed.

Lemma hexDigit_unreserved n :
  (n < 16)%N -> isUnreserved (hexDigit n) = true.
Proof.
  intros H. unfold hexDigit, isUnreserved.
  destruct (N.ltb_spec n 10).
  - assert (E : isDigit (48 + n)%N = true)
      by (unfold isDigit, between; bool_arith; lia).
    rewrite E. now rewrite orb_true_r.
  - assert (E : isAlpha (55 + n)%N = true)
      by (unfold isAlpha, isLower, isUpper, between; bool_arith; lia).
    now rewrite E.
Qed.

Lemma unreserved_dataUrlChar c :
  isUnreserved c = true -> isDataUrlChar c = true.
Proof. intros H. unfold isDataUrlChar. now rewrite H. Qed.

Lemma tidyOctet_chars b :
  (b < 256)%N -> Forall (fun c => isDataUrlChar c = true) (tidyOctet b).
Proof.
  intros Hb. unfold tidyOctet.
  destruct (N.eqb b 10); [constructor|].
  destruct (N.eqb b 34); [repeat constructor|].
  destruct (existsb (N.eqb b) [32; 61; 58; 47]%N) eqn:E.
  - repeat constructor. cbn [existsb] in E.
    repeat match type of E with
           | (N.eqb b ?k || _) = true =>
               destruct (N.eqb_spec b k); [subst b; reflexivity|];
               cbn [orb] in E
           end.
    discriminate E.
  - unfold encodeOctet, escapeOctet.
    destruct (isUnreserved b) eqn:U.
    + repeat constructor. now apply unreserved_dataUrlChar.
    + assert ((b / 16 < 16)%N) by (apply N.Div0.div_lt_upper_bound; lia).
      pose proof (N.mod_lt b 16 ltac:(lia)).
      repeat constructor;
        apply unreserved_dataUrlChar; now apply hexDigit_unreserved.
Qed.

Lemma ensureXmlns_units (P : N -> Prop) s :
  Forall P svgWithXmlns -> Forall P s -> Forall P (ensureXmlns s).
Proof.
  intros HX Hs. unfold ensureXmlns.
  destruct (includes s (js "xmlns=")); cbn [negb]; [exact Hs|].
  destruct (replaceFirstSvgTag_cases s)
    as [[_ Eid] | (pre & post & Es & Einj)].
  - now rewrite Eid.
  - rewrite Einj. rewrite Es in Hs.
    apply Forall_app in Hs as [Hpre Hrest].
    apply Forall_app in Hrest as [_ Hpost].
    apply Forall_app. split; [exact Hpre|].
    apply Forall_app. split; assumption.
Qed.

(** X7.  A reference built from a markup of 16-bit units is made of
    unreserved characters, the characters space [=] [:] [/] [%], and
    [;] [,] [+] of the prefix only: it holds no double quote, no newline,
    no [#], [<] or [>] and nothing outside ASCII. *)
Theorem svgToDataUrl_alphabet :
  forall s u : jsstring,
    Forall (fun c => (c < 65536)%N) s ->
    svgToDataUrl s = Normal u ->
    Forall (fun c => isDataUrlChar c = true) u
    /\ Forall (fun c => (c < 128)%N) u
    /\ ~ In quote u /\ ~ In 10%N u /\ ~ In 35%N u
    /\ ~ In 60%N u /\ ~ In 62%N u.
Proof.
  intros s u Hs Hu.
  assert (Hall : Forall (fun c => isDataUrlChar c = true) u).
  { rewrite svgToDataUrl_by_octets in Hu.
    destruct (utf8 (ensureXmlns s)) as [bs|] eqn:E; [|discriminate Hu].
    assert (Eu : u = dataUrlPrefix ++ flat_map tidyOctet bs) by congruence.
    rewrite Eu. clear Hu Eu.
    assert (HX : Forall (fun c => (c < 65536)%N) svgWithXmlns)
      by (apply Forall_forall; intros x Hx; apply N.ltb_lt;
          revert x Hx; apply forallb_forall; vm_compute; reflexivity).
    pose proof (utf8_octets _ (ensureXmlns_units _ s HX Hs) bs E) as Hbs.
    apply Forall_app. split.
    - apply Forall_forall. apply forallb_forall. vm_compute. reflexivity.
    - apply Forall_flat_map. eapply Forall_impl; [|exact Hbs].
      intros b Hb. now apply tidyOctet_chars. }
  split; [exact Hall|].
  rewrite Forall_forall in Hall.
  split.
  - apply Forall_forall. intros c Hc. specialize (Hall c Hc).
    unfold isDataUrlChar, isUnreserved, isAlpha, isLower, isUpper, isDigit,
      between in Hall.
    cbn [existsb] in Hall. bool_arith. lia.
  - repeat split; intros Hin; specialize (Hall _ Hin); discriminate Hall.
Qed.

Lemma svgToDataUrl_alphabet_witness :
  Forall (fun c => isDataUrlChar c = true)
    (dataUrlPrefix ++ js "%3Csvg xmlns='http://www.w3.org/2000/svg'/%3E").
Proof.
  apply (svgToDataUrl_alphabet (js "<svg/>")
           (dataUrlPrefix
              ++ js "%3Csvg xmlns='http://www.w3.org/2000/svg'/%3E")).
  - repeat constructor.
  - vm_compute. reflexivity.
Defined.

(** ** The rasterizer: where a blob comes from, and how it fails *)

(** X8.  A blob returned by [rasterizeSvg] is the one [canvas.toBlob] gave
    for the type [image/png] or [image/jpeg] of the format, with quality
    0.92 for jpeg and none for png, on a canvas that shows the decoded
    image on every pixel of its surface. *)
Theorem rasterize_blob_origin :
  forall (Blob : Type) (loadImage : jsstring -> option Image)
         (contextAvailable : bool)
         (toBlob : Canvas -> jsstring -> option Q -> option Blob)
         markup outSize format bg (b : Blob),
    fst (rasterizeSvg loadImage contextAvailable toBlob
           markup outSize format bg) = Normal b ->
    exists url img c,
      svgToDataUrl markup = Normal url
      /\ loadImage url = Some img
      /\ contextAvailable = true
      /\ snd (rasterizeSvg loadImage contextAvailable toBlob
                markup outSize format bg) = Some c
      /\ toBlob c (js "image/" ++ formatName format)
           (match format with jpeg => Some (92 # 100) | png => None end)
         = Some b
      /\ forall px py,
           onSurface c px py = true ->
           exists under, pixelAt (painted c) px py = Picture img under.
Proof.
  intros Blob loadImage ctx toBlob markup outSize format bg b H.
  destruct (svgToDataUrl markup) as [url|e] eqn:Hurl;
    [|unfold rasterizeSvg in H; rewrite Hurl in H; discriminate H].
  destruct (loadImage url) as [img|] eqn:Himg;
    [|unfold rasterizeSvg in H; rewrite Hurl, Himg in H; discriminate H].
  destruct ctx;
    [|unfold rasterizeSvg in H; rewrite Hurl, Himg in H; discriminate H].
  exists url, img. eexists.
  split; [reflexivity|]. split; [exact Himg|]. split; [reflexivity|].
  split; [apply (rasterizeSvg_canvas Blob loadImage toBlob markup outSize format
                   bg url img Hurl Himg)|].
  unfold rasterizeSvg in H. rewrite Hurl, Himg in H. cbn [negb] in H.
  cbv zeta. split.
  - destruct format, (transparent bg);
      cbn [RasterFormat_eqb orb negb] in H |- *;
      match type of H with
      | fst match ?t with _ => _ end = _ =>
          destruct t as [b'|] eqn:Hb; cbn [fst] in H;
          [injection H as ->; exact Hb | discriminate H]
      end.
  - intros px py Hin. unfold onSurface in Hin.
    destruct (RasterFormat_eqb format jpeg || negb (transparent bg));
      cbn [canvas_width canvas_height painted] in Hin |- *;
      unfold pixelAt; cbn [fold_left applyOp]; rewrite Hin;
      eexists; reflexivity.
Qed.

Lemma rasterize_blob_origin_witness :
  exists url img c,
    svgToDataUrl (js "<svg/>") = Normal url
    /\ (fun u => Some (mkImage u)) url = Some img
    /\ true = true
    /\ snd (rasterizeSvg (fun u => Some (mkImage u)) true
              (fun c t q => Some (t, q))
              (js "<svg/>") (mkSize (ofZ 512) (ofZ 341)) jpeg
              (mkBackground (js "#ffffff") false)) = Some c
    /\ (fun (c : Canvas) (t : jsstring) (q : option Q) => Some (t, q)) c
         (js "image/" ++ formatName jpeg) (Some (92 # 100))
       = Some (js "image/jpeg", Some (92 # 100))
    /\ forall px py,
         onSurface c px py = true ->
         exists under, pixelAt (painted c) px py = Picture img under.
Proof.
  apply (rasterize_blob_origin _ (fun u => Some (mkImage u)) true
           (fun c t q => Some (t, q))
           (js "<svg/>") (mkSize (ofZ 512) (ofZ 341)) jpeg
           (mkBackground (js "#ffffff") false)
           (js "image/jpeg", Some (92 # 100))).
  vm_compute. reflexivity.
Defined.

(** X9.  [rasterizeSvg] fails in four ways only: the reference cannot be
    built (the error of [svgToDataUrl]), the image does not decode (the
    event of [onerror]), there is no 2D context ("Canvas context
    unavailable"), or [toBlob] hands back [null] ("toBlob failed").  In the
    first two no canvas is made; in the third the canvas is left
    unpainted. *)
Theorem rasterize_failure_cases :
  forall (Blob : Type) (loadImage : jsstring -> option Image)
         (contextAvailable : bool)
         (toBlob : Canvas -> jsstring -> option Q -> option Blob)
         markup outSize format bg (e : jsstring),
    fst (rasterizeSvg loadImage contextAvailable toBlob
           markup outSize format bg) = Throw e ->
    (svgToDataUrl markup = Throw e
     /\ snd (rasterizeSvg loadImage contextAvailable toBlob
               markup outSize format bg) = None)
    \/ (exists url,
          svgToDataUrl markup = Normal url /\ loadImage url = None
          /\ e = js "[object Event]"
          /\ snd (rasterizeSvg loadImage contextAvailable toBlob
                    markup outSize format bg) = None)
    \/ (exists c,
          contextAvailable = false
          /\ e = js "Canvas context unavailable"
          /\ snd (rasterizeSvg loadImage contextAvailable toBlob
                    markup outSize format bg) = Some c
          /\ painted c = [])
    \/ (exists c,
          contextAvailable = true
          /\ e = js "toBlob failed"
          /\ snd (rasterizeSvg loadImage contextAvailable toBlob
                    markup outSize format bg) = Some c
          /\ toBlob c (js "image/" ++ formatName format)
               (match format with jpeg => Some (92 # 100) | png => None end)
             = None).
Proof.
  intros Blob loadImage ctx toBlob markup outSize format bg e.
  unfold rasterizeSvg.
  destruct (svgToDataUrl markup) as [url|e'] eqn:Hurl.
  2:{ cbn [fst snd]. intros [= ->]. left. split; reflexivity. }
  destruct (loadImage url) as [img|] eqn:Himg.
  2:{ cbn [fst snd]. intros [= <-]. right. left. exists url.
      split; [reflexivity|]. split; [exact Himg|]. split; reflexivity. }
  destruct ctx; cbn [negb].
  2:{ cbn [fst snd]. intros [= <-]. right. right. left.
      eexists. repeat split; reflexivity. }
  intros H. right. right. right.
  destruct format, (transparent bg);
    cbn [RasterFormat_eqb orb negb] in H |- *;
    match type of H with
    | fst match ?t with _ => _ end = _ =>
        destruct t as [b'|] eqn:Hb; cbn [fst snd] in H |- *;
        [discriminate H | injection H as <-];
        eexists; repeat split; exact Hb
    end.
Qed.

(** An unpaired surrogate in the markup: the URIError, and no canvas. *)
Lemma rasterize_failure_cases_witness :
  svgToDataUrl [55357%N] = Throw (js "URIError")
  /\ snd (rasterizeSvg (fun u => Some (mkImage u)) true
            (fun _ _ _ => Some tt) [55357%N]
            (mkSize (ofZ 1) (ofZ 1)) png (mkBackground [] true)) = None.
Proof.
  destruct (rasterize_failure_cases _ (fun u => Some (mkImage u)) true
              (fun _ _ _ => Some tt) [55357%N]
              (mkSize (ofZ 1) (ofZ 1)) png (mkBackground [] true)
              (js "URIError") eq_refl)
    as [H | [(u & H & _) | [(c & H & _) | (c & _ & H & _)]]].
  - exact H.
  - discriminate H.
  - discriminate H.
  - discriminate H.
Defined.

(** ** The download trigger: what it leaves in the page *)

Lemma filter_keep_all {A : Type} (f : A -> bool) (l : list A) :
  Forall (fun x => f x = true) l -> filter f l = l.
Proof.
  induction 1 as [|x l Hx Hl IH]; [reflexivity|].
  cbn [filter]. now rewrite Hx, IH.
Qed.

Lemma not_live_filter {Blob : Type} (store : list (jsstring * Blob)) url :
  lookupURL store url = None ->
  filter (fun e => negb (str_eqb (fst e) url)) store = store.
Proof.
  unfold lookupURL. intros H. apply filter_keep_all.
  apply Forall_forall. intros x Hx.
  destruct (find (fun e => str_eqb (fst e) url) store) eqn:E;
    [discriminate H|].
  now rewrite (find_none _ _ E x Hx).
Qed.

(** X10.  When no call throws, the reference it will create is not in use
    and every element of the page is older than the link it makes,
    [downloadBlob] leaves the page as it found it but for the save it
    started: the blob URL store and the children of [document.body] are
    the same as before. *)
Theorem downloadBlob_leaves_page_clean :
  forall (Blob : Type) (throws : DomCall -> bool) (blob : Blob)
         (filename : jsstring) (b : Browser Blob),
    (forall c, throws c = false) ->
    isLive b (mintedURL b) = false ->
    nodesFresh b ->
    downloadBlob throws blob filename b
    = (Normal tt,
       mkBrowser (objectURLs b) (bodyChildren b)
         (saves b ++ [(mintedURL b, filename, blob)])
         (S (S (minted b)))).
Proof.
  intros Blob throws blob filename b Hok Hlive Hfresh.
  rewrite (downloadBlob_normal Blob throws blob filename b Hok).
  f_equal. f_equal.
  - cbn [filter fst]. rewrite str_eqb_refl. cbn [negb].
    apply not_live_filter. unfold isLive in Hlive.
    destruct (lookupURL (objectURLs b) (mintedURL b)); [discriminate|].
    reflexivity.
  - rewrite filter_app. cbn [filter node]. rewrite Nat.eqb_refl.
    cbn [negb]. rewrite app_nil_r. apply filter_keep_all.
    eapply Forall_impl; [|exact Hfresh].
    intros a Ha. cbn beta in Ha. apply negb_true_iff. apply Nat.eqb_neq. lia.
Qed.

(** A page with one live reference and one link of its own. *)
Lemma downloadBlob_leaves_page_clean_witness :
  downloadBlob (fun _ => false) tt (js "a.png")
    (mkBrowser [(js "blob:1", tt)] [mkAnchor 0 (js "/home") []] [] 3)
  = (Normal tt,
     mkBrowser [(js "blob:1", tt)] [mkAnchor 0 (js "/home") []]
       [(js "blob:3", js "a.png", tt)] 5).
Proof.
  apply (downloadBlob_leaves_page_clean unit (fun _ => false) tt (js "a.png")
           (mkBrowser [(js "blob:1", tt)] [mkAnchor 0 (js "/home") []] [] 3)).
  - reflexivity.
  - reflexivity.
  - repeat constructor.
Defined.

(** X11.  When [a.click()] or [a.remove()] throws (and nothing before
    it), the link that [downloadBlob] appended is still the last child of
    [document.body] when the exception leaves the function. *)
Theorem downloadBlob_link_left_behind :
  forall (Blob : Type) (throws : DomCall -> bool) (blob : Blob)
         (filename : jsstring) (b : Browser Blob),
    throws CallCreateObjectURL = false ->
    throws CallCreateElement = false ->
    throws CallAppendChild = false ->
    throws CallClick || throws CallRemove = true ->
    fst (downloadBlob throws blob filename b) = Throw (js "DOMException")
    /\ bodyChildren (snd (downloadBlob throws blob filename b))
       = bodyChildren b ++ [mkAnchor (S (minted b)) (mintedURL b) filename].
Proof.
  intros Blob throws blob filename b H1 H2 H3 H45.
  unfold downloadBlob, dom_bind, createObjectURL, createAnchor,
    appendChild, click, remove, revokeObjectURL, call.
  rewrite H1, H2, H3.
  cbn [objectURLs bodyChildren saves minted href download node].
  change (js "blob:" ++ decimal (Z.of_nat (minted b))) with (mintedURL b).
  destruct (throws CallClick); [split; reflexivity|].
  rewrite !lookupURL_head.
  cbn [objectURLs bodyChildren saves minted href download node].
  cbn [orb] in H45. rewrite H45. split; reflexivity.
Qed.

Lemma downloadBlob_link_left_behind_witness :
  bodyChildren
    (snd (downloadBlob
            (fun c => match c with CallRemove => true | _ => false end)
            tt (js "a.png") (mkBrowser [] [] [] 0)))
  = [mkAnchor 1 (js "blob:0") (js "a.png")].
Proof.
  apply (downloadBlob_link_left_behind unit
           (fun c => match c with CallRemove => true | _ => false end)
           tt (js "a.png") (mkBrowser [] [] [] 0));
    reflexivity.
Defined.

(** ** The card: its invariant, what an input touches, the ratio lock *)

Lemma effect_opaque st : opaqueWhenJpeg (Card.effect st).
Proof.
  destruct st as [f t c l s]. unfold opaqueWhenJpeg, Card.effect.
  destruct f, t; cbn; congruence.
Qed.

Lemma run_snoc parse item st es e :
  Card.run parse item st (es ++ [e])
  = Card.step parse item (Card.run parse item st es) e.
Proof. unfold Card.run. now rewrite fold_left_app. Qed.

(** X12.  After every input, and so in every state reached from the
    initial one, the card has no transparency when its format is jpeg. *)
Theorem card_never_transparent_jpeg :
  forall (parse : jsstring -> completion Document) (item : SvgItem)
         (defaultWidth : number),
    (forall st e, opaqueWhenJpeg (Card.step parse item st e))
    /\ (forall es,
          opaqueWhenJpeg
            (Card.run parse item
               (Card.initialState parse item defaultWidth) es)).
Proof.
  intros parse item dw.
  assert (Hstep : forall st e, opaqueWhenJpeg (Card.step parse item st e))
    by (intros st e; apply effect_opaque).
  split; [exact Hstep|].
  intros es. induction es as [|e es _] using rev_ind.
  - intros H. discriminate H.
  - rewrite run_snoc. apply Hstep.
Qed.

(** X13.  Choosing jpeg and then png again leaves the transparency flag
    off, whatever it was, and touches nothing else. *)
Theorem jpeg_then_png_loses_transparency :
  forall (parse : jsstring -> completion Document) (item : SvgItem)
         (st : Card.State),
    Card.run parse item st [Card.FormatInput jpeg; Card.FormatInput png]
    = Card.mkState png false (Card.bgColor st) (Card.lockRatio st)
        (Card.size st).
Proof.
  intros parse item [f t c l s]. destruct t; reflexivity.
Qed.

(** X14.  In a state that has no transparency with jpeg, a width or
    height input changes the size only; every other input leaves the size
    alone; and with the ratio unlocked a width input keeps the height and
    a height input keeps the width. *)
Theorem card_inputs_frame :
  forall (parse : jsstring -> completion Document) (item : SvgItem)
         (st : Card.State),
    opaqueWhenJpeg st ->
    (forall v e,
        e = Card.WidthInput v \/ e = Card.HeightInput v ->
        Card.step parse item st e
        = Card.mkState (Card.format st) (Card.transparent st)
            (Card.bgColor st) (Card.lockRatio st)
            (Card.size (Card.step parse item st e)))
    /\ (forall e,
          (forall v, e <> Card.WidthInput v) ->
          (forall v, e <> Card.HeightInput v) ->
          Card.size (Card.step parse item st e) = Card.size st)
    /\ (Card.lockRatio st = false ->
        forall v,
          height (Card.size (Card.step parse item st (Card.WidthInput v)))
          = height (Card.size st)
          /\ width (Card.size (Card.step parse item st (Card.HeightInput v)))
             = width (Card.size st)).
Proof.
  intros parse item st Hinv.
  assert (Heff : forall s',
            Card.format s' = Card.format st ->
            Card.transparent s' = Card.transparent st ->
            Card.effect s' = s').
  { intros s' Hf Ht. unfold Card.effect. rewrite Hf, Ht.
    destruct (Card.format st) eqn:F; [reflexivity|].
    rewrite (Hinv F). reflexivity. }
  split; [|split].
  - intros v e [-> | ->]; unfold Card.step; cbn [Card.handle].
    + unfold Card.onWidthChange.
      destruct (Card.lockRatio st) eqn:L; rewrite Heff by reflexivity;
        cbn [Card.setSize Card.size]; rewrite <- ?L; reflexivity.
    + unfold Card.onHeightChange.
      destruct (Card.lockRatio st) eqn:L; rewrite Heff by reflexivity;
        cbn [Card.setSize Card.size]; rewrite <- ?L; reflexivity.
  - intros e Hw Hh. unfold Card.step. rewrite effect_size.
    destruct e as [v|v| | | | ]; try reflexivity.
    + exfalso. apply (Hw v). reflexivity.
    + exfalso. apply (Hh v). reflexivity.
  - intros L v. unfold Card.step. rewrite !effect_size.
    cbn [Card.handle]. unfold Card.onWidthChange, Card.onHeightChange.
    rewrite L. split; reflexivity.
Qed.

Lemma card_inputs_frame_witness :
  height
    (Card.size
       (Card.step (fun _ => Throw (js "no parser"))
          (mkSvgItem [] (js "Masjid Siluet") [] None)
          (Card.mkState jpeg false (js "#ffffff") false
             (mkSize (ofZ 512) (ofZ 341)))
          (Card.WidthInput (js "300"))))
  = ofZ 341.
Proof.
  apply (proj2 (proj2 (card_inputs_frame (fun _ => Throw (js "no parser"))
                         (mkSvgItem [] (js "Masjid Siluet") [] None)
                         (Card.mkState jpeg false (js "#ffffff") false
                            (mkSize (ofZ 512) (ofZ 341)))
                         ltac:(intros _; reflexivity)))
           eq_refl (js "300")).
Defined.

(** *** Integers survive the rounding of the arithmetic *)

Lemma round_ties_even_exact n : round_ties_even n 1 = n.
Proof.
  unfold round_ties_even. rewrite Z.div_1_r, Z.mod_1_r. reflexivity.
Qed.

(** A positive integer below 2^53 is a binary64 value. *)
Lemma binary64_integer n :
  (1 <= n < 2 ^ 53)%Z ->
  exists q, binary64 (n # 1) = Fin q /\ q == inject_Z n.
Proof.
  intros [Hlo Hhi].
  pose proof (Z.log2_nonneg n) as Hk0.
  assert (Hk : (Z.log2 n < 53)%Z) by (apply Z.log2_lt_pow2; lia).
  pose proof (Z.log2_spec n ltac:(lia)) as [Hspec _].
  unfold binary64. cbn [Qnum Qden].
  rewrite (Z.abs_eq n) by lia.
  change (Z.log2 1) with 0%Z. rewrite Z.sub_0_r.
  assert (E0 : (n =? 0)%Z = false) by (apply Z.eqb_neq; lia).
  assert (E1 : (0 <=? Z.log2 n)%Z = true) by (apply Z.leb_le; lia).
  assert (E2 : (n <? 1 * 2 ^ Z.log2 n)%Z = false) by (apply Z.ltb_ge; lia).
  assert (E3 : (n <? 0)%Z = false) by (apply Z.ltb_ge; lia).
  rewrite E0, E1, E2, E3.
  rewrite Z.max_l by lia.
  set (e := (Z.log2 n - 53 + 1)%Z).
  assert (He : (e <= 0)%Z) by (unfold e; lia).
  assert (E4 : (971 <? e)%Z = false) by (apply Z.ltb_ge; lia).
  assert (E5 : (e =? 971)%Z = false) by (apply Z.eqb_neq; lia).
  rewrite E4, E5. cbn [orb andb].
  destruct (Z.leb_spec 0 e) as [Hz|Hneg].
  - assert (Ez : e = 0%Z) by lia. rewrite Ez.
    change (1 * 2 ^ 0)%Z with 1%Z. rewrite round_ties_even_exact.
    eexists. split; [reflexivity|].
    replace (1 * n * 2 ^ 0)%Z with n by (change (2 ^ 0)%Z with 1%Z; lia).
    reflexivity.
  - rewrite round_ties_even_exact.
    eexists. split; [reflexivity|].
    rewrite Qred_correct.
    assert (Hp : (0 < 2 ^ (- e))%Z) by (apply Z.pow_pos_nonneg; lia).
    unfold Qeq. cbn [Qnum Qden inject_Z].
    rewrite Z2Pos.id by exact Hp. lia.
Qed.

Lemma round_integer n : Qfloor (inject_Z n + (1 # 2)) = n.
Proof.
  unfold Qfloor, Qplus, inject_Z. cbn [Qnum Qden].
  symmetry. apply (Z.div_unique _ _ n 1); lia.
Qed.

Lemma round_binary64_integer n :
  (1 <= n < 2 ^ 53)%Z -> Math_round (binary64 (n # 1)) = Fin (inject_Z n).
Proof.
  intros H. destruct (binary64_integer n H) as (q & -> & Hq).
  cbn [Math_round]. do 2 f_equal.
  rewrite <- (round_integer n). apply Qfloor_comp. now rewrite Hq.
Qed.

Lemma round_div_one n :
  (1 <= n < 2 ^ 53)%Z ->
  Math_round (div (Fin (inject_Z n)) one) = Fin (inject_Z n)
  /\ Math_round (mul (Fin (inject_Z n)) one) = Fin (inject_Z n).
Proof.
  intros H.
  assert (Ed : div (Fin (inject_Z n)) one = binary64 (n * 1 # 1))
    by reflexivity.
  assert (Em : mul (Fin (inject_Z n)) one = binary64 (n * 1 # 1))
    by reflexivity.
  rewrite Ed, Em, Z.mul_1_r. split; now apply round_binary64_integer.
Qed.

(** A clamped value goes through [/ 1] and [* 1], rounding and the clamp
    unchanged. *)
Lemma clamp_through_one x :
  isNaN x = false ->
  (forall q, x = Fin q -> (q < inject_Z (2 ^ 53 - 1))%Q) ->
  Math_max one (Math_round (div (Math_max one (Math_round x)) one))
  = Math_max one (Math_round x)
  /\ Math_max one (Math_round (mul (Math_max one (Math_round x)) one))
     = Math_max one (Math_round x).
Proof.
  intros Hn Hb. destruct x as [|[|]|q]; try discriminate Hn.
  - split; vm_compute; reflexivity.
  - split; vm_compute; reflexivity.
  - specialize (Hb q eq_refl).
    cbn [Math_round]. set (n := Qfloor (q + (1 # 2))).
    assert (Hn53 : (n < 2 ^ 53)%Z).
    { pose proof (Qfloor_le (q + (1 # 2))) as Hf. fold n in Hf.
      assert (Hlt : (inject_Z n < inject_Z (2 ^ 53))%Q).
      { eapply Qle_lt_trans; [exact Hf|].
        assert (E : inject_Z (2 ^ 53) == inject_Z (2 ^ 53 - 1) + 1)
          by (vm_compute; reflexivity).
        rewrite E. lra. }
      now rewrite <- Zlt_Qlt in Hlt. }
    clearbody n. rewrite !Math_max_one_integer.
    destruct (Z.leb_spec n 1) as [Hle|Hgt].
    + split; vm_compute; reflexivity.
    + destruct (round_div_one n ltac:(lia)) as [Ed Em].
      rewrite Ed, Em, !Math_max_one_integer.
      destruct (Z.leb_spec n 1); [lia|]. split; reflexivity.
Qed.

(** X15.  When the intrinsic size is unknown the aspect ratio is 1, and
    with the ratio locked a width or height input below 2^53 is stored in
    both dimensions: the size stays square. *)
Theorem locked_edit_without_intrinsic_is_square :
  forall (parse : jsstring -> completion Document) (item : SvgItem)
         (st : Card.State) (v : number),
    Card.intrinsic parse item = None ->
    Card.lockRatio st = true ->
    (forall q, v = Fin q -> (q < inject_Z (2 ^ 53 - 1))%Q) ->
    Card.size (Card.onWidthChange parse item v st)
    = mkSize (spec_clamp (or_else v zero)) (spec_clamp (or_else v zero))
    /\ Card.size (Card.onHeightChange parse item v st)
       = mkSize (spec_clamp (or_else v zero)) (spec_clamp (or_else v zero)).
Proof.
  intros parse item st v Hintr Hlock Hv.
  assert (Ha : Card.aspect parse item = one)
    by (unfold Card.aspect; now rewrite Hintr).
  assert (Hb : forall q, or_else v zero = Fin q ->
                         (q < inject_Z (2 ^ 53 - 1))%Q).
  { intros q. unfold or_else. destruct (truthy v); [apply Hv|].
    intros [= <-]. reflexivity. }
  destruct (clamp_through_one (or_else v zero)
              (or_else_zero_not_NaN v) Hb) as [Ed Em].
  unfold Card.onWidthChange, Card.onHeightChange, spec_clamp.
  rewrite Hlock, Ha. cbn [Card.setSize Card.size].
  rewrite Ed, Em. split; reflexivity.
Qed.

(** No parser at hand, width set to 300: 300 by 300. *)
Lemma locked_edit_without_intrinsic_is_square_witness :
  Card.size
    (Card.onWidthChange (fun _ => Throw (js "ReferenceError"))
       (mkSvgItem [] (js "Masjid Siluet") [] None) (ofZ 300)
       (Card.mkState png true (js "#ffffff") true
          (mkSize (ofZ 1024) (ofZ 1024))))
  = mkSize (ofZ 300) (ofZ 300).
Proof.
  apply (proj1 (locked_edit_without_intrinsic_is_square
                  (fun _ => Throw (js "ReferenceError"))
                  (mkSvgItem [] (js "Masjid Siluet") [] None)
                  (Card.mkState png true (js "#ffffff") true
                     (mkSize (ofZ 1024) (ofZ 1024)))
                  (ofZ 300) eq_refl eq_refl
                  ltac:(intros q [= <-]; reflexivity))).
Defined.

Lemma slugChar_lowerUnit c : isSlugChar c = true -> lowerUnit c = [c].
Proof.
  intros H. unfold lowerUnit.
  assert (E1 : isUpper c = false) by (unfold_classes; bool_arith; lia).
  assert (E2 : N.eqb c 304 = false) by (unfold_classes; bool_arith; lia).
  assert (E3 : N.eqb c 8490 = false) by (unfold_classes; bool_arith; lia).
  now rewrite E1, E2, E3.
Qed.

Lemma slugChar_not_whitespace c :
  isSlugChar c = true -> isWhiteSpace c = false.
Proof. intros H. unfold_classes; bool_arith; lia. Qed.

Lemma spec_slug_fixed s :
  Forall (fun c => isSlugChar c = true) s ->
  forall b, spec_slug s b = s.
Proof.
  induction 1 as [|c s Hc Hs IH]; intros b; [reflexivity|].
  cbn [spec_slug].
  rewrite (slugChar_not_whitespace c Hc), (slugChar_lowerUnit c Hc).
  cbn [filter]. rewrite Hc. cbn [app]. f_equal. apply IH.
Qed.

(** X16.  The name sanitization of the file name is idempotent: an item
    named by the slug of another has the same slug. *)
Theorem slug_idempotent :
  forall item item' : SvgItem,
    name item' = Card.slug item ->
    Card.slug item' = Card.slug item.
Proof.
  intros item item' Hn. unfold Card.slug at 1.
  rewrite slug_pipeline, Hn. apply spec_slug_fixed.
  unfold Card.slug. rewrite slug_pipeline. apply spec_slug_chars.
Qed.

Lemma slug_idempotent_witness :
  Card.slug (mkSvgItem [] (js "masjid-siluet") [] None)
  = Card.slug (mkSvgItem [] (js "Masjid  Siluet!") [] None).
Proof.
  apply (slug_idempotent (mkSvgItem [] (js "Masjid  Siluet!") [] None)
           (mkSvgItem [] (js "masjid-siluet") [] None)).
  reflexivity.
Defined.

(** X17.  A card whose picture has no intrinsic size starts as a square
    of the default width, for a default width that is a whole number from
    1 to below 2^53. *)
Theorem initial_size_without_intrinsic_is_square :
  forall (parse : jsstring -> completion Document) (item : SvgItem) (n : Z),
    Card.intrinsic parse item = None ->
    (1 <= n < 2 ^ 53)%Z ->
    Card.size (Card.initialState parse item (ofZ n)) = mkSize (ofZ n) (ofZ n).
Proof.
  intros parse item n Hintr Hn.
  unfold Card.initialState, Card.initialSize, Card.aspect.
  rewrite Hintr. cbn [Card.size].
  destruct (round_div_one n Hn) as [Ed _].
  unfold ofZ. now rewrite Ed.
Qed.

Lemma initial_size_without_intrinsic_is_square_witness :
  Card.size
    (Card.initialState (fun _ => Throw (js "ReferenceError"))
       (mkSvgItem [] (js "Masjid Siluet") [] None) (ofZ 1024))
  = mkSize (ofZ 1024) (ofZ 1024).
Proof.
  apply (initial_size_without_intrinsic_is_square
           (fun _ => Throw (js "ReferenceError"))
           (mkSvgItem [] (js "Masjid Siluet") [] None) 1024 eq_refl).
  lia.
Defined.

(** ** The export of a card: [handleDownload] *)

Lemma downloadBlob_Normal_inv (Blob : Type) throws (blob : Blob) filename b u :
  fst (downloadBlob throws blob filename b) = Normal u ->
  forall c, throws c = false.
Proof.
  unfold downloadBlob, dom_bind, createObjectURL, createAnchor, appendChild,
    click, remove, revokeObjectURL, call.
  destruct (throws CallCreateObjectURL) eqn:E1; [discriminate|].
  destruct (throws CallCreateElement) eqn:E2; [discriminate|].
  destruct (throws CallAppendChild) eqn:E3; [discriminate|].
  destruct (throws CallClick) eqn:E4; [discriminate|].
  destruct (throws CallRemove) eqn:E5; [discriminate|].
  destruct (throws CallRevokeObjectURL) eqn:E6; [discriminate|].
  intros _ []; assumption.
Qed.

(** The saves after [downloadBlob], whichever call throws. *)
Lemma downloadBlob_saves (Blob : Type) throws (blob : Blob) filename b :
  saves (snd (downloadBlob throws blob filename b))
  = if throws CallCreateObjectURL || throws CallCreateElement
       || throws CallAppendChild || throws CallClick
    then saves b
    else saves b ++ [(mintedURL b, filename, blob)].
Proof.
  unfold downloadBlob, dom_bind, createObjectURL, createAnchor, appendChild,
    click, remove, revokeObjectURL, call.
  destruct (throws CallCreateObjectURL); [reflexivity|].
  destruct (throws CallCreateElement); [reflexivity|].
  destruct (throws CallAppendChild); [reflexivity|].
  destruct (throws CallClick); [reflexivity|].
  cbn [objectURLs bodyChildren saves minted href download node orb].
  change (js "blob:" ++ decimal (Z.of_nat (minted b))) with (mintedURL b).
  rewrite !lookupURL_head.
  destruct (throws CallRemove); [reflexivity|].
  destruct (throws CallRevokeObjectURL); reflexivity.
Qed.

(** X18.  When [handleDownload] ends without an alert, the rasterizer gave
    a blob and the browser has started exactly one more save: that blob,
    under the file name built from the item and the state. *)
Theorem handleDownload_silent_means_saved :
  forall (shortest : Q -> jsstring) (item : SvgItem) (Blob : Type)
         (loadImage : jsstring -> option Image) (contextAvailable : bool)
         (toBlob : Canvas -> jsstring -> option Q -> option Blob)
         (throws : DomCall -> bool) (st : Card.State) (b : Browser Blob),
    fst (Card.handleDownload shortest item loadImage contextAvailable
           toBlob throws st b) = None ->
    exists blob,
      fst (rasterizeSvg loadImage contextAvailable toBlob (svg item)
             (Card.size st) (Card.format st) (Card.exportBackground st))
      = Normal blob
      /\ saves (snd (Card.handleDownload shortest item loadImage
                       contextAvailable toBlob throws st b))
         = saves b ++ [(mintedURL b, Card.exportFilename shortest item st,
                        blob)]
      /\ isLive (snd (Card.handleDownload shortest item loadImage
                        contextAvailable toBlob throws st b))
           (mintedURL b) = false.
Proof.
  intros shortest item Blob loadImage ctx toBlob throws st b H.
  unfold Card.handleDownload in *.
  destruct (rasterizeSvg loadImage ctx toBlob (svg item) (Card.size st)
              (Card.format st) (Card.exportBackground st))
    as [[blob|e] cv]; [|discriminate H].
  exists blob. split; [reflexivity|].
  destruct (downloadBlob throws blob (Card.exportFilename shortest item st) b)
    as [[u|e] b'] eqn:D; [|discriminate H].
  assert (Hok : forall c, throws c = false).
  { apply (downloadBlob_Normal_inv Blob throws blob
             (Card.exportFilename shortest item st) b u).
    now rewrite D. }
  rewrite (downloadBlob_normal Blob throws blob _ b Hok) in D.
  apply (f_equal snd) in D. cbn [snd] in D. rewrite <- D.
  cbn [snd saves]. split; [reflexivity|].
  unfold isLive. cbn [objectURLs]. now rewrite lookupURL_filter_same.
Qed.

Lemma handleDownload_silent_means_saved_witness :
  exists blob,
    fst (rasterizeSvg (fun u => Some (mkImage u)) true
           (fun c t q => Some t) (js "<svg/>")
           (mkSize (ofZ 512) (ofZ 341)) png
           (Card.exportBackground
              (Card.mkState png true (js "#ffffff") true
                 (mkSize (ofZ 512) (ofZ 341)))))
    = Normal blob
    /\ saves (snd (Card.handleDownload (fun _ => js "0")
                     (mkSvgItem [] (js "Masjid Siluet") (js "<svg/>") None)
                     (fun u => Some (mkImage u)) true
                     (fun c t q => Some t) (fun _ => false)
                     (Card.mkState png true (js "#ffffff") true
                        (mkSize (ofZ 512) (ofZ 341)))
                     (mkBrowser [] [] [] 0)))
       = [] ++ [(js "blob:0", js "masjid-siluet-512x341.png", blob)]
    /\ isLive (snd (Card.handleDownload (fun _ => js "0")
                      (mkSvgItem [] (js "Masjid Siluet") (js "<svg/>") None)
                      (fun u => Some (mkImage u)) true
                      (fun c t q => Some t) (fun _ => false)
                      (Card.mkState png true (js "#ffffff") true
                         (mkSize (ofZ 512) (ofZ 341)))
                      (mkBrowser [] [] [] 0)))
         (js "blob:0") = false.
Proof.
  apply (handleDownload_silent_means_saved (fun _ => js "0")
           (mkSvgItem [] (js "Masjid Siluet") (js "<svg/>") None)
           jsstring (fun u => Some (mkImage u)) true
           (fun c t q => Some t) (fun _ => false)
           (Card.mkState png true (js "#ffffff") true
              (mkSize (ofZ 512) (ofZ 341)))
           (mkBrowser [] [] [] 0)).
  reflexivity.
Defined.

(** X19.  When the rasterizer gave a blob and [a.click()] went through,
    but [a.remove()] or [URL.revokeObjectURL] throws, the user is told the
    download failed although the save has been started. *)
Theorem handleDownload_alert_after_save :
  forall (shortest : Q -> jsstring) (item : SvgItem) (Blob : Type)
         (loadImage : jsstring -> option Image) (contextAvailable : bool)
         (toBlob : Canvas -> jsstring -> option Q -> option Blob)
         (throws : DomCall -> bool) (st : Card.State) (b : Browser Blob)
         (blob : Blob),
    fst (rasterizeSvg loadImage contextAvailable toBlob (svg item)
           (Card.size st) (Card.format st) (Card.exportBackground st))
    = Normal blob ->
    throws CallCreateObjectURL = false ->
    throws CallCreateElement = false ->
    throws CallAppendChild = false ->
    throws CallClick = false ->
    throws CallRemove || throws CallRevokeObjectURL = true ->
    fst (Card.handleDownload shortest item loadImage contextAvailable
           toBlob throws st b)
    = Some (js "Gagal mengunduh: " ++ js "DOMException")
    /\ saves (snd (Card.handleDownload shortest item loadImage
                     contextAvailable toBlob throws st b))
       = saves b ++ [(mintedURL b, Card.exportFilename shortest item st,
                      blob)].
Proof.
  intros shortest item Blob loadImage ctx toBlob throws st b blob
    Hr H1 H2 H3 H4 H56.
  unfold Card.handleDownload.
  destruct (rasterizeSvg loadImage ctx toBlob (svg item) (Card.size st)
              (Card.format st) (Card.exportBackground st))
    as [[blob'|e] cv]; [|discriminate Hr].
  cbn [fst] in Hr. injection Hr as ->.
  pose proof (downloadBlob_saves Blob throws blob
                (Card.exportFilename shortest item st) b) as Hs.
  rewrite H1, H2, H3, H4 in Hs. cbn [orb] in Hs.
  destruct (downloadBlob throws blob (Card.exportFilename shortest item st) b)
    as [[u|e] b'] eqn:D.
  - pose proof (downloadBlob_Normal_inv Blob throws blob
                  (Card.exportFilename shortest item st) b u) as Hok.
    rewrite D in Hok. specialize (Hok eq_refl).
    rewrite !Hok in H56. discriminate H56.
  - cbn [fst snd] in Hs |- *. split; [|exact Hs].
    unfold downloadBlob, dom_bind, createObjectURL, createAnchor,
      appendChild, click, remove, revokeObjectURL, call in D.
    rewrite H1, H2, H3, H4 in D.
    destruct (throws CallRemove);
      [injection D as <- _; reflexivity|].
    destruct (throws CallRevokeObjectURL);
      [injection D as <- _; reflexivity|discriminate H56].
Qed.

Lemma handleDownload_alert_after_save_witness :
  fst (Card.handleDownload (fun _ => js "0")
         (mkSvgItem [] (js "Masjid Siluet") (js "<svg/>") None)
         (fun u => Some (mkImage u)) true
         (fun c t q => Some t)
         (fun c => match c with CallRemove => true | _ => false end)
         (Card.mkState png true (js "#ffffff") true
            (mkSize (ofZ 512) (ofZ 341)))
         (mkBrowser [] [] [] 0))
  = Some (js "Gagal mengunduh: DOMException")
  /\ saves (snd (Card.handleDownload (fun _ => js "0")
                   (mkSvgItem [] (js "Masjid Siluet") (js "<svg/>") None)
                   (fun u => Some (mkImage u)) true
                   (fun c t q => Some t)
                   (fun c => match c with CallRemove => true | _ => false end)
                   (Card.mkState png true (js "#ffffff") true
                      (mkSize (ofZ 512) (ofZ 341)))
                   (mkBrowser [] [] [] 0)))
     = [(js "blob:0", js "masjid-siluet-512x341.png", js "image/png")].
Proof.
  apply (handleDownload_alert_after_save (fun _ => js "0")
           (mkSvgItem [] (js "Masjid Siluet") (js "<svg/>") None)
           jsstring (fun u => Some (mkImage u)) true
           (fun c t q => Some t)
           (fun c => match c with CallRemove => true | _ => false end)
           (Card.mkState png true (js "#ffffff") true
              (mkSize (ofZ 512) (ofZ 341)))
           (mkBrowser [] [] [] 0) (js "image/png"));
    reflexivity.
Defined.

(** X20.  [handleDownload] starts at most one save, and only of a blob the
    rasterizer returned; when the rasterizer fails, the alert carries its
    error and the page is not touched at all. *)
Theorem handleDownload_saves_at_most_once :
  forall (shortest : Q -> jsstring) (item : SvgItem) (Blob : Type)
         (loadImage : jsstring -> option Image) (contextAvailable : bool)
         (toBlob : Canvas -> jsstring -> option Q -> option Blob)
         (throws : DomCall -> bool) (st : Card.State) (b : Browser Blob),
    (saves (snd (Card.handleDownload shortest item loadImage contextAvailable
                   toBlob throws st b)) = saves b
     \/ exists blob,
          fst (rasterizeSvg loadImage contextAvailable toBlob (svg item)
                 (Card.size st) (Card.format st) (Card.exportBackground st))
          = Normal blob
          /\ saves (snd (Card.handleDownload shortest item loadImage
                           contextAvailable toBlob throws st b))
             = saves b ++ [(mintedURL b, Card.exportFilename shortest item st,
                            blob)])
    /\ forall e,
         fst (rasterizeSvg loadImage contextAvailable toBlob (svg item)
                (Card.size st) (Card.format st) (Card.exportBackground st))
         = Throw e ->
         Card.handleDownload shortest item loadImage contextAvailable
           toBlob throws st b
         = (Some (js "Gagal mengunduh: " ++ e), b).
Proof.
  intros shortest item Blob loadImage ctx toBlob throws st b.
  unfold Card.handleDownload.
  destruct (rasterizeSvg loadImage ctx toBlob (svg item) (Card.size st)
              (Card.format st) (Card.exportBackground st))
    as [[blob|e] cv].
  - split; [|intros e He; discriminate He].
    pose proof (downloadBlob_saves Blob throws blob
                  (Card.exportFilename shortest item st) b) as Hs.
    destruct (downloadBlob throws blob (Card.exportFilename shortest item st)
                b) as [[u|e] b']; cbn [snd] in Hs |- *;
      (destruct (throws CallCreateObjectURL || throws CallCreateElement
                 || throws CallAppendChild || throws CallClick);
       [left; exact Hs | right; exists blob; split; [reflexivity|exact Hs]]).
  - split; [left; reflexivity|].
    intros e' [= ->]. reflexivity.
Qed.

(** ** The search box of the page *)

Lemma trim_blank w : WhiteSpaceRun w -> trim w = [].
Proof.
  intros Hw. rewrite <- (app_nil_r w).
  apply (trim_sandwich w [] [] Hw); constructor.
Qed.

Lemma trim_surrounding w0 q w1 :
  WhiteSpaceRun w0 -> WhiteSpaceRun w1 -> trim (w0 ++ q ++ w1) = trim q.
Proof.
  intros H0 H1.
  destruct (trim_decompose q) as (a & c & E & Ha & Hc & Hh & Hr).
  remember (trim q) as t eqn:Et. rewrite E.
  replace (w0 ++ (a ++ t ++ c) ++ w1) with ((w0 ++ a) ++ t ++ (c ++ w1))
    by (now rewrite <- !app_assoc).
  apply trim_sandwich; try assumption; apply Forall_app; now split.
Qed.

Lemma isPrefix_refl s : isPrefix s s = true.
Proof.
  induction s as [|c s IH]; [reflexivity|].
  cbn [isPrefix]. now rewrite N.eqb_refl, IH.
Qed.

Lemma includes_refl s : includes s s = true.
Proof. destruct s; cbn [includes]; now rewrite isPrefix_refl. Qed.

(** X21.  A query of white space only (the empty one too) shows the whole
    catalogue, for a lower-casing that keeps the empty string empty. *)
Theorem filtered_blank_query :
  forall (lowerCase : jsstring -> jsstring) (query : jsstring),
    lowerCase [] = [] ->
    WhiteSpaceRun query ->
    filtered lowerCase query = SAMPLE_SVGS.
Proof.
  intros lowerCase query Hl Hq. unfold filtered.
  now rewrite (trim_blank query Hq), Hl.
Qed.

Lemma filtered_blank_query_witness :
  filtered toLowerCase (js "   ") = SAMPLE_SVGS.
Proof.
  apply (filtered_blank_query toLowerCase (js "   ")).
  - reflexivity.
  - repeat constructor.
Defined.

(** X22.  White space around the query does not change what the search
    shows. *)
Theorem filtered_ignores_surrounding_space :
  forall (lowerCase : jsstring -> jsstring) (w0 query w1 : jsstring),
    WhiteSpaceRun w0 ->
    WhiteSpaceRun w1 ->
    filtered lowerCase (w0 ++ query ++ w1) = filtered lowerCase query.
Proof.
  intros lowerCase w0 query w1 H0 H1. unfold filtered.
  now rewrite (trim_surrounding w0 query w1 H0 H1).
Qed.

Lemma filtered_ignores_surrounding_space_witness :
  filtered toLowerCase (js " " ++ js "Masjid" ++ js "  ")
  = filtered toLowerCase (js "Masjid").
Proof.
  apply (filtered_ignores_surrounding_space toLowerCase
           (js " ") (js "Masjid") (js "  ")); repeat constructor.
Defined.

Lemma filtered_finds (lowerCase : jsstring -> jsstring) s t :
  In s SAMPLE_SVGS ->
  trim t = t ->
  t = name s
  \/ In t (match tags s with Some ts => ts | None => [] end) ->
  In s (filtered lowerCase t).
Proof.
  intros Hs Ht Hm. unfold filtered. rewrite Ht.
  destruct (lowerCase t) as [|c r] eqn:El; [exact Hs|].
  apply filter_In. split; [exact Hs|]. rewrite <- El.
  destruct Hm as [-> | Hm].
  - now rewrite includes_refl.
  - apply orb_true_iff. right. unfold tagMatches.
    apply existsb_exists. exists t. split; [exact Hm|apply includes_refl].
Qed.

(** X23.  Searching for the name of a catalogue item, or for one of its
    tags, as they are written in the catalogue, shows that item, whatever
    the lower-casing does to the text. *)
Theorem filtered_finds_by_name_or_tag :
  forall (lowerCase : jsstring -> jsstring) (s : SvgItem) (t : jsstring),
    In s SAMPLE_SVGS ->
    t = name s
    \/ In t (match tags s with Some ts => ts | None => [] end) ->
    In s (filtered lowerCase t).
Proof.
  intros lowerCase s t Hs Hm.
  apply (filtered_finds lowerCase s t Hs); [|exact Hm].
  unfold SAMPLE_SVGS in Hs. cbn [In] in Hs.
  destruct Hs as [<- | [<- | [<- | []]]];
    cbn [name tags In] in Hm;
    (destruct Hm as [-> | Hm];
     [|repeat (destruct Hm as [<- | Hm]); try contradiction]);
    vm_compute; reflexivity.
Qed.

Lemma filtered_finds_by_name_or_tag_witness :
  In (nth 1 SAMPLE_SVGS (mkSvgItem [] [] [] None))
     (filtered toLowerCase (js "building")).
Proof.
  apply (filtered_finds_by_name_or_tag toLowerCase
           (nth 1 SAMPLE_SVGS (mkSvgItem [] [] [] None)) (js "building")).
  - right. left. reflexivity.
  - right. right. left. reflexivity.
Defined.

(** ** The change handlers: what they guarantee about the size *)

(** X24.  Whatever the state and whatever number reaches it, not a number
    included, a change handler stores [max(1, round(v || 0))] in the
    dimension it edits, and that is at least one; for a number it is
    [max(1, round(v))].  The inputs 0, empty and -7 store 1. *)
Theorem edited_dimension_clamped :
  forall (parse : jsstring -> completion Document) (item : SvgItem)
         (st : Card.State) (v : number),
    width (Card.size (Card.onWidthChange parse item v st))
    = spec_clamp (or_else v zero)
    /\ height (Card.size (Card.onHeightChange parse item v st))
       = spec_clamp (or_else v zero)
    /\ ge (spec_clamp (or_else v zero)) one = true
    /\ (isNaN v = false -> spec_clamp (or_else v zero) = spec_clamp v)
    /\ width (Card.size (Card.handle parse item (Card.WidthInput (js "0")) st))
       = one
    /\ width (Card.size (Card.handle parse item (Card.WidthInput []) st))
       = one
    /\ width (Card.size (Card.handle parse item (Card.WidthInput (js "-7")) st))
       = one.
Proof.
  intros parse item st v.
  rewrite onWidthChange_width, onHeightChange_height.
  split; [reflexivity|]. split; [reflexivity|]. split.
  - apply clamp_ge_one, or_else_zero_not_NaN.
  - split.
    + intros Hv. unfold spec_clamp. now rewrite (round_or_else v Hv).
    + cbn [Card.handle]. rewrite !onWidthChange_width.
      repeat split; vm_compute; reflexivity.
Qed.

(** X25.  For a card whose aspect ratio is a positive number: a width or
    height input with the ratio locked leaves both dimensions at least
    one, whatever the size was; and any sequence of inputs keeps both
    dimensions at least one once they are. *)
Theorem sizes_stay_at_least_one :
  forall (parse : jsstring -> completion Document) (item : SvgItem),
    (exists q, Card.aspect parse item = Fin q /\ (0 < q)%Q) ->
    (forall st v,
        Card.lockRatio st = true ->
        sizeOk (Card.size (Card.onWidthChange parse item v st))
        /\ sizeOk (Card.size (Card.onHeightChange parse item v st)))
    /\ (forall st es,
          sizeOk (Card.size st) ->
          sizeOk (Card.size (Card.run parse item st es))).
Proof.
  intros parse item Hasp. split.
  - destruct Hasp as (q & Ha & Hq). intros st v Hlock.
    unfold Card.onWidthChange, Card.onHeightChange.
    rewrite Hlock, Ha. cbn [Card.setSize Card.size].
    assert (Hc : isNaN (Math_max one (Math_round (or_else v zero))) = false)
      by (rewrite clamp_isNaN; apply or_else_zero_not_NaN).
    split; split; cbn [width height]; apply clamp_ge_one.
    + apply or_else_zero_not_NaN.
    + now apply div_not_NaN.
    + now apply mul_not_NaN.
    + apply or_else_zero_not_NaN.
  - intros st es Hst. now apply run_sizeOk.
Qed.

(** The card of "Masjid Siluet" (bounding box 0 0 240 160) at the default
    width 1024: width set to 0, the ratio unlocked, height set to -3.5. *)
Lemma sizes_stay_at_least_one_witness :
  sizeOk
    (Card.size
       (Card.run
          (fun _ : jsstring =>
             Normal (mkDocument
               (Some (mkElement (js "svg")
                        [(js "viewBox", js "0 0 240 160")]))))
          (mkSvgItem (js "masjid") (js "Masjid Siluet") (js "<svg/>") None)
          (Card.initialState
             (fun _ : jsstring =>
                Normal (mkDocument
                  (Some (mkElement (js "svg")
                           [(js "viewBox", js "0 0 240 160")]))))
             (mkSvgItem (js "masjid") (js "Masjid Siluet") (js "<svg/>") None)
             (ofZ 1024))
          [Card.WidthInput (js "0"); Card.LockRatioInput false;
           Card.HeightInput (js "-3.5")])).
Proof.
  refine (proj2 (sizes_stay_at_least_one
            (fun _ : jsstring =>
               Normal (mkDocument
                 (Some (mkElement (js "svg")
                          [(js "viewBox", js "0 0 240 160")]))))
            (mkSvgItem (js "masjid") (js "Masjid Siluet") (js "<svg/>") None)
            _) _ _ _).
  - exists (3 # 2). split; [vm_compute; reflexivity | reflexivity].
  - split; vm_compute; reflexivity.
Defined.
